(** * web-print-escpos: the ESC/POS encoder, embedded and verified

    A shallow embedding of the printer session ([Printer], file
    [printer.js]), of the monochrome image ([PrintImage], [image.js]) and
    of the helpers of [utils.js], followed by the properties of the
    encoder that the specification states about them.

    Conventions of the embedding.
    - A JavaScript string is the list of its UTF-16 code units
      ([jstring]); [str] turns a literal into one.
    - JavaScript numbers that the driver uses as counters, lengths, byte
      values and option values are integers ([nat], [N] or [Z]); the cell
      widths of the table layout, which the driver multiplies and divides,
      are rationals ([Q]), exact where a double would be rounded.
    - [undefined] is [None] (or [VUndef] where the driver tests the type of
      an argument).
    - The output stream is the list of the bytes appended so far.
    - Code that throws returns [Throw e] together with the session as it
      was when the exception left the call. *)

From Stdlib Require Import ZArith NArith QArith Qround Ascii String Lia ZifyNat ZifyN.
From stdpp Require Import base option list gmap.

#[local] Open Scope Z_scope.
#[local] Open Scope list_scope.

(** ** JavaScript strings *)

Abbreviation jstring := (list N) (only parsing).

Definition str (s : string) : jstring :=
  map N_of_ascii (list_ascii_of_string s).

(** [String.prototype.toUpperCase], on the ASCII letters. The strings the
    driver upper-cases are option keywords (alignments, fonts, densities,
    symbologies, levels), written in ASCII; other code units are kept. *)
Definition toUpperCase (s : jstring) : jstring :=
  map (fun c => if ((97 <=? c) && (c <=? 122))%N then (c - 32)%N else c) s.

(** [for (let i = 0; i < n; i++) body] on a state [S]. *)
Definition for_loop {S : Type} (n : nat) (body : nat -> S -> S) (s : S) : S :=
  foldl (fun acc i => body i acc) s (seq 0 n).

(** Digits of a non-negative integer in a radix, most significant first:
    [Number.prototype.toString(radix)] on such an integer. *)
Definition digit_char (d : N) : N :=
  if (d <? 10)%N then (48 + d)%N else (87 + d)%N.

Fixpoint digits_fuel (fuel : nat) (radix n : N) (acc : jstring) : jstring :=
  match fuel with
  | O => acc
  | S fuel' =>
      let acc' := digit_char (n mod radix)%N :: acc in
      if (n / radix =? 0)%N then acc'
      else digits_fuel fuel' radix (n / radix)%N acc'
  end.

Definition Number_toString (radix : N) (n : N) : jstring :=
  digits_fuel (S (N.size_nat n)) radix n [].

(** [a < b] on rationals *)
Definition Qlt_bool (a b : Q) : bool := negb (Qle_bool b a).

(** ** The collaborators of the encoder

    The text codec ([iconv.encode]), the decoding of a byte buffer into a
    string ([Buffer.prototype.toString], UTF-8) and the conversion of a
    string to a number are the platform's. They are taken as an
    interface. *)

Record Platform := {
  iconv_encode : jstring -> jstring -> list N;
  Buffer_toString : list N -> jstring;
  StringToNumber : jstring -> option Z
}.

(** What is used of UTF-8 decoding: ASCII bytes decode to themselves. *)
Definition decodes_ascii (pf : Platform) : Prop :=
  forall bs, Forall (fun b => (b < 128)%N) bs -> Buffer_toString pf bs = bs.

(** ** utils.js *)

Module utils.

(** [parseInt(ch, 10)] on a one-character string: the digit, or NaN
    ([None]). *)
Definition parseInt1 (ch : option N) : option Z :=
  match ch with
  | Some c => if ((48 <=? c) && (c <=? 57))%N then Some (Z.of_N c - 48) else None
  | None => None
  end.

(** [Math.pow(3, e)] for the two exponents the checksum uses. *)
Definition pow3 (e : nat) : Z := 3 ^ Z.of_nat e.

(** [getParityBit(str)]: [parity] is a number, NaN being [None]; the
    result is the string of [(10 - parity % 10) % 10]. *)
Definition parity_loop (reversedCode : jstring) : option Z :=
  for_loop (length reversedCode)
    (fun counter parity =>
       p ← parity;
       d ← parseInt1 (reversedCode !! counter);
       Some (p + d * pow3 ((counter + 1) mod 2)))
    (Some 0).

Definition getParityBit (s : jstring) : jstring :=
  let reversedCode := reverse s in
  match parity_loop reversedCode with
  | Some parity => Number_toString 10 (Z.to_N ((10 - parity mod 10) mod 10))
  | None => str "NaN"
  end.

(** [Buffer.from(h, 'hex')] on a string of hexadecimal digits: one byte
    for each complete pair of digits, a last single digit is dropped. *)
Definition hex_val (c : N) : N :=
  if (c <? 58)%N then (c - 48)%N else (c - 87)%N.

Fixpoint Buffer_from_hex (h : jstring) : list N :=
  match h with
  | hi :: lo :: rest => (16 * hex_val hi + hex_val lo)%N :: Buffer_from_hex rest
  | _ => []
  end.

(** [charLength(char)], [textLength(str)], [textSubstring(str, start, end)].
    [end] is optional; [!end] also holds for the number 0. *)
Definition charLength (code : N) : Z :=
  if ((0x7f <? code) && (code <=? 0xffff))%N then 2 else 1.

Definition textLength (s : jstring) : Z :=
  foldl (fun accLen char => accLen + charLength char) 0 s.

Definition not_end (e : option Q) : bool :=
  match e with
  | None => true
  | Some q => Qeq_bool q 0
  end.

(** The callback of the reduction in [textSubstring]; [accLen] is the
    variable that it updates. *)
Definition substring_round (start : Q) (e : option Q) (st : Z * jstring) (char : N)
    : Z * jstring :=
  let '(accLen, accStr) := st in
  let accLen := accLen + charLength char in
  (accLen,
   accStr ++
     (if Qlt_bool start (inject_Z accLen)
         && (not_end e
             || match e with
                | Some q => Qle_bool (inject_Z accLen) q
                | None => false
                end)
      then [char] else [])).

Definition textSubstring (s : jstring) (start : Q) (e : option Q) : jstring :=
  snd (foldl (substring_round start e) (0, []) s).

(** [codeLength(str)]: the hexadecimal digits of the length, read back
    as bytes, read back as a string. *)
Definition codeLength (pf : Platform) (s : jstring) : jstring :=
  let buff := Buffer_from_hex (Number_toString 16 (N.of_nat (length s))) in
  Buffer_toString pf buff.

Definition upperCase (s : jstring) : jstring := toUpperCase s.

End utils.

(** ** JavaScript values, where the driver tests what it is given

    The values of an argument whose type the driver tests or converts:
    [undefined], [null], booleans, integers, strings and plain objects. A
    plain object is given by its own properties; its prototype is
    [Object.prototype], and no value is a function. *)

#[warnings="-register-all"]
Inductive value :=
| VUndef
| VNull
| VBool (b : bool)
| VNum (n : Z)
| VStr (s : jstring)
| VObj (props : list (string * value)).

Definition truthy (v : value) : bool :=
  match v with
  | VUndef | VNull => false
  | VBool b => b
  | VNum n => negb (n =? 0)
  | VStr s => match s with [] => false | _ => true end
  | VObj _ => true
  end.

(** [a || b] *)
Definition or_else (a b : value) : value := if truthy a then a else b.

(** [typeof v === 'object'] *)
Definition typeof_object (v : value) : bool :=
  match v with
  | VNull | VObj _ => true
  | _ => false
  end.

(** [typeof v === 'number'] *)
Definition typeof_number (v : value) : bool :=
  match v with
  | VNum _ => true
  | _ => false
  end.

Definition Z_toString (n : Z) : jstring :=
  if n <? 0 then 45%N :: Number_toString 10 (Z.to_N (- n))
  else Number_toString 10 (Z.to_N n).

(** The conversions of a value, [None] when the conversion throws. An
    object is converted through its [toString] and [valueOf] methods. Those
    of [Object.prototype] give the string [[object Object]]; an own
    property named [toString] hides the first, and since it is no function
    the conversion finds no method that returns a primitive and throws a
    TypeError. *)
Definition own_property (props : list (string * value)) (name : string) : bool :=
  existsb (fun kv => String.eqb (fst kv) name) props.

(** The property key a value stands for in [key in table] and
    [table[key]]. *)
Definition ToPropertyKey (v : value) : option jstring :=
  match v with
  | VUndef => Some (str "undefined")
  | VNull => Some (str "null")
  | VBool true => Some (str "true")
  | VBool false => Some (str "false")
  | VNum n => Some (Z_toString n)
  | VStr s => Some s
  | VObj props =>
      if own_property props "toString" then None else Some (str "[object Object]")
  end.

(** The number a value stands for in a comparison or in a byte to
    write; [Some None] is NaN. *)
Definition ToNumber (pf : Platform) (v : value) : option (option Z) :=
  match v with
  | VUndef => Some None
  | VNull => Some (Some 0)
  | VBool b => Some (Some (if b then 1 else 0))
  | VNum n => Some (Some n)
  | VStr s => Some (StringToNumber pf s)
  | VObj props => if own_property props "toString" then None else Some None
  end.

(** ** The command table (commands.js)

    The table is not part of the sources at hand; the encoder is embedded
    over an arbitrary table. An entry the driver names statically is a
    string (or a function to a string); a sub-table the driver indexes
    with a computed key is a partial function, [None] being [undefined]. *)

Record Commands := {
  EOL : jstring;
  LS_DEFAULT : jstring;
  LS_SET : jstring;
  TXT_NORMAL : jstring;
  TXT_CUSTOM_SIZE : Z -> Z -> jstring;
  TXT_BOLD_ON : jstring;
  TXT_BOLD_OFF : jstring;
  TXT_ITALIC_ON : jstring;
  TXT_ITALIC_OFF : jstring;
  TXT_UNDERL_OFF : jstring;
  TXT_UNDERL_ON : jstring;
  TXT_UNDERL2_ON : jstring;
  BARCODE_FORMAT : jstring -> option jstring;
  BARCODE_WIDTH : jstring -> option jstring;
  BARCODE_WIDTH_DEFAULT : jstring;
  BARCODE_HEIGHT : value -> jstring;
  BARCODE_HEIGHT_DEFAULT : jstring;
  CODE2D_FORMAT : jstring -> option jstring;
  TYPE_QR : jstring;
  CODE2D : jstring;
  BITMAP_FORMAT : jstring -> option jstring;
  GSV0_FORMAT : jstring -> option jstring;
  QS_BARCODE_MODE_ON : jstring;
  QS_BARCODE_MODE_OFF : jstring;
  QS_BARCODE_HEIGHT_DEFAULT : jstring;
  QS_PIXEL_SIZE_CMD : jstring;
  QS_PIXEL_SIZE_MIN : Z;
  QS_PIXEL_SIZE_MAX : Z;
  QS_PIXEL_SIZE_DEFAULT : Z;
  QS_VERSION_CMD : jstring;
  QS_VERSION_MIN : Z;
  QS_VERSION_MAX : Z;
  QS_VERSION_DEFAULT : Z;
  QS_LEVEL_CMD : jstring;
  QS_LEVEL_OPTIONS : jstring -> option jstring;
  QS_LEN_OFFSET : Z;
  QS_SAVEBUF_CMD_P1 : jstring;
  QS_SAVEBUF_CMD_P2 : jstring;
  QS_PRINTBUF_CMD_P1 : jstring;
  QS_PRINTBUF_CMD_P2 : jstring
}.

(** ** The session and its output stream *)

Record PrinterOptions := {
  opt_encoding : jstring;
  opt_width : Z
}.

Record Printer := {
  buffer : list N;
  options : PrinterOptions;
  encoding : jstring;
  width : Z;
  _model : option jstring
}.

Definition with_buffer (p : Printer) (b : list N) : Printer :=
  {| buffer := b; options := options p; encoding := encoding p;
     width := width p; _model := _model p |}.

(** The constructor, [new Printer(options)]. *)
Definition new_Printer (o : PrinterOptions) : Printer :=
  {| buffer := []; options := o; encoding := opt_encoding o;
     width := opt_width o; _model := None |}.

(** [model(model)] *)
Definition model (m : option jstring) (p : Printer) : Printer :=
  {| buffer := buffer p; options := options p; encoding := encoding p;
     width := width p; _model := m |}.

(** What a call can throw. [TypeError] and [Error] carry the message of a
    [throw] statement of the driver; [RuntimeTypeError] is the TypeError of
    the language itself (a property of [undefined], a method that a value
    does not have, a property set on a primitive in strict mode);
    [RangeError] is the one of the buffer's fixed-width writers. *)
Inductive error :=
| TypeError (msg : string)
| Error (msg : string)
| RuntimeTypeError
| RangeError.

(** An exception thrown by a [throw] statement of the driver. *)
Definition thrown_by_driver (e : error) : bool :=
  match e with
  | TypeError _ | Error _ => true
  | RuntimeTypeError | RangeError => false
  end.

Inductive outcome (A : Type) :=
| Ok (a : A)
| Throw (e : error).
Arguments Ok {A} a.
Arguments Throw {A} e.

(** Computations on the session. *)
Definition M (A : Type) : Type := Printer -> outcome A * Printer.

Definition ret {A} (a : A) : M A := fun p => (Ok a, p).
Definition throw {A} (e : error) : M A := fun p => (Throw e, p).
Definition bind {A B} (m : M A) (k : A -> M B) : M B :=
  fun p => match m p with
           | (Ok a, p') => k a p'
           | (Throw e, p') => (Throw e, p')
           end.

Declare Scope session_scope.
Delimit Scope session_scope with session.
Notation "'let*' x := m 'in' k" := (bind m (fun x => k))
  (at level 10, x name, m at level 100, k at level 200) : session_scope.
Notation "m ;;; k" := (bind m (fun _ => k))
  (at level 100, k at level 200, right associativity) : session_scope.
#[local] Open Scope session_scope.

Definition get_model : M (option jstring) := fun p => (Ok (_model p), p).

(** The result of a conversion, or the TypeError that it throws. *)
Definition convert {A} (o : option A) : M A :=
  match o with
  | Some a => ret a
  | None => throw RuntimeTypeError
  end.

(** [for] over the elements of an array, with possible exceptions. *)
Fixpoint forEach {A} (l : list A) (body : A -> M unit) : M unit :=
  match l with
  | [] => ret tt
  | a :: l' => body a ;;; forEach l' body
  end.

(** *** The buffer (package mutable-buffer)

    [write] of a string appends its UTF-8 encoding; [write] of an array
    appends one byte for each element; the fixed-width writers refuse a
    value out of range. *)

Definition is_high_surrogate (c : N) : bool := ((0xD800 <=? c) && (c <=? 0xDBFF))%N.
Definition is_low_surrogate (c : N) : bool := ((0xDC00 <=? c) && (c <=? 0xDFFF))%N.

Definition utf8_code_point (c : N) : list N :=
  if (c <? 0x80)%N then [c]
  else if (c <? 0x800)%N then [0xC0 + c / 64; 0x80 + c mod 64]%N
  else if (c <? 0x10000)%N then
    [0xE0 + c / 4096; 0x80 + (c / 64) mod 64; 0x80 + c mod 64]%N
  else
    [0xF0 + c / 262144; 0x80 + (c / 4096) mod 64;
     0x80 + (c / 64) mod 64; 0x80 + c mod 64]%N.

Fixpoint utf8_encode (s : jstring) : list N :=
  match s with
  | [] => []
  | c :: rest =>
      if is_high_surrogate c then
        match rest with
        | d :: rest' =>
            if is_low_surrogate d
            then utf8_code_point (0x10000 + (c - 0xD800) * 1024 + (d - 0xDC00))%N
                   ++ utf8_encode rest'
            else utf8_code_point 0xFFFD ++ utf8_encode rest
        | [] => utf8_code_point 0xFFFD
        end
      else if is_low_surrogate c then utf8_code_point 0xFFFD ++ utf8_encode rest
      else utf8_code_point c ++ utf8_encode rest
  end.

Definition append_bytes (bs : list N) : M unit :=
  fun p => (Ok tt, with_buffer p (buffer p ++ bs)).

(** [this.buffer.write(string)] *)
Definition write (s : jstring) : M unit := append_bytes (utf8_encode s).

(** [this.buffer.write(table[key])]: an entry that is [undefined] is
    written as the string of that name. *)
Definition write_entry (o : option jstring) : M unit :=
  write (default (str "undefined") o).

(** [this.buffer.write(buffer)], the bytes of a Buffer *)
Definition write_Buffer (bs : list N) : M unit := append_bytes bs.

(** [this.buffer.write(array)]: each element is stored as a byte, a hole
    as 0. *)
Definition write_Array (a : list (option Z)) : M unit :=
  append_bytes (map (fun o => Z.to_N (default 0 o mod 256)) a).

(** [this.buffer.writeUInt8(n)] and [this.buffer.writeUInt16LE(n)] on an
    integer. *)
Definition writeUInt8 (n : Z) : M unit :=
  if (0 <=? n) && (n <=? 255) then append_bytes [Z.to_N n]
  else throw RangeError.

Definition writeUInt16LE (n : Z) : M unit :=
  if (0 <=? n) && (n <=? 65535)
  then append_bytes [Z.to_N (n mod 256); Z.to_N (n / 256)]
  else throw RangeError.

(** ** image.js: the monochrome image *)

(** A JavaScript array: [None] is a hole, which reads as [undefined]. An
    assignment past the end extends the array, leaving holes. *)
Definition array_get {A} (a : list (option A)) (i : nat) : option A :=
  mjoin (a !! i).

Definition array_set {A} (a : list (option A)) (i : nat) (v : A) : list (option A) :=
  if (i <? length a)%nat then <[i := Some v]> a
  else a ++ replicate (i - length a) None ++ [Some v].

(** [if (a[i] === undefined) a[i] = 0] *)
Definition array_init0 (a : list (option Z)) (i : nat) : list (option Z) :=
  match array_get a i with
  | None => array_set a i 0
  | Some _ => a
  end.

(** [a[i] += v], on an entry that is a number *)
Definition array_add (a : list (option Z)) (i : nat) (v : Z) : list (option Z) :=
  array_set a i (default 0 (array_get a i) + v).

(** The pixel source: [shape] is (width, height, channels), [data] the
    interleaved channels. *)
Record Pixels := {
  px_data : list Z;
  px_shape : nat * nat * nat
}.

Record PrintImage := {
  pixels : Pixels;
  data : list bool
}.

Record Size := { s_width : nat; s_height : nat; s_colors : nat }.

Definition size (img : PrintImage) : Size :=
  let '(w, h, c) := px_shape (pixels img) in
  {| s_width := w; s_height := h; s_colors := c |}.

(** The constructor. With no channel the loop over the pixel data does not
    advance and the constructor does not return ([None]). *)
Definition gt200 (o : option Z) : bool :=
  match o with Some v => 200 <? v | None => false end.

Definition ne0 (o : option Z) : bool :=
  match o with Some v => negb (v =? 0) | None => true end.

Definition new_PrintImage (px : Pixels) : option PrintImage :=
  let colors := snd (px_shape px) in
  let len := length (px_data px) in
  if (colors =? 0)%nat && negb (len =? 0)%nat then None
  else
    let rgbaData :=
      for_loop ((len + colors - 1) / colors)
        (fun k acc =>
           let i := (k * colors)%nat in
           acc ++ [map (fun b => px_data px !! (i + b)%nat) (seq 0 colors)])
        [] in
    Some {| pixels := px;
            data := map (fun px => let r := mjoin (px !! 0%nat) in
                                   let g := mjoin (px !! 1%nat) in
                                   let b := mjoin (px !! 2%nat) in
                                   let a := mjoin (px !! 3%nat) in
                                   ne0 a && gt200 r && gt200 g && gt200 b)
                        rgbaData |}.

(** [if (this.data[k])] *)
Definition ink (img : PrintImage) (k : nat) : bool := default false (data img !! k).

Record Bitmap := {
  bm_data : list (option (list (option Z)));
  bm_density : nat
}.

(** [toBitmap(density)]. [density] is a positive multiple of 8 (the
    driver passes 8 or 24), so that [c] is an integer. The line [ld] is
    filled and then stored at [result[y]]. *)
Definition toBitmap (img : PrintImage) (density : nat) : Bitmap :=
  let c := (density / 8)%nat in
  let n := ((s_height (size img) + density - 1) / density)%nat in
  let result :=
    for_loop n
      (fun y result =>
         let ld :=
           for_loop (s_width (size img))
             (fun x ld =>
                for_loop density
                  (fun b ld =>
                     let i := (x * c + Nat.shiftr b 3)%nat in
                     let ld := array_init0 ld i in
                     let l := (y * density + b)%nat in
                     if (l <? s_height (size img))%nat then
                       if ink img (l * s_width (size img) + x)
                       then array_add ld i (Z.shiftr 0x80 (Z.land (Z.of_nat b) 0x7))
                       else ld
                     else ld)
                  ld)
             [] in
         array_set result y ld)
      [] in
  {| bm_data := result; bm_density := density |}.

Record Raster := {
  r_data : list (option Z);
  r_width : nat;
  r_height : nat
}.

(** [toRaster()] *)
Definition toRaster (img : PrintImage) : Raster :=
  let width := s_width (size img) in
  let height := s_height (size img) in
  let n := ((width + 7) / 8)%nat in
  let result :=
    for_loop height
      (fun y result =>
         for_loop n
           (fun x result =>
              for_loop 8
                (fun b result =>
                   let i := (x * 8 + b)%nat in
                   let result := array_init0 result (y * n + x) in
                   let c := (x * 8 + b)%nat in
                   if (c <? width)%nat then
                     if ink img (y * width + i)
                     then array_add result (y * n + x)
                            (Z.shiftr 0x80 (Z.land (Z.of_nat b) 0x7))
                     else result
                   else result)
                result)
           result)
      [] in
  {| r_data := result; r_width := n; r_height := height |}.

(** ** printer.js: the session's commands *)

Section Printer.

Context (pf : Platform) (cmd : Commands).

(** [s === 'literal'] on a value and on the model tag *)
Definition is_str (v : value) (lit : string) : bool :=
  match v with
  | VStr s => bool_decide (s = str lit)
  | _ => false
  end.

Definition is_model (m : option jstring) (lit : string) : bool :=
  match m with
  | Some s => bool_decide (s = str lit)
  | None => false
  end.

(** [utils.upperCase(v)]: a value that is not a string has no
    [toUpperCase]. *)
Definition upperCase_value (v : value) : M jstring :=
  match v with
  | VStr s => ret (utils.upperCase s)
  | _ => throw RuntimeTypeError
  end.

(** [this.buffer.writeUInt8(v)] on a value: the value is converted to a
    number, and NaN is stored as 0. *)
Definition writeUInt8_value (v : value) : M unit :=
  let* n := convert (ToNumber pf v) in
  match n with
  | Some n => writeUInt8 n
  | None => append_bytes [0%N]
  end.

(** [lineSpace(n)] *)
Definition lineSpace (n : value) : M unit :=
  match n with
  | VUndef | VNull => write (LS_DEFAULT cmd)
  | _ => write (LS_SET cmd) ;;; writeUInt8_value n
  end.

(** *** barcode *)

Record BarcodeOptions := {
  b_width : value;
  b_height : value;
  b_position : value;
  b_font : value;
  b_includeParity : value
}.

Definition arg (args : list value) (i : nat) : value := default VUndef (args !! i).

Definition isLegacyBarcodeOptions (optionsOrLegacy : list value) : bool :=
  typeof_object (arg optionsOrLegacy 0).

(** The first lines of [barcode]: the options record and its defaults.
    When the first optional argument is not an object, [options] is that
    argument, [undefined] or a primitive; the defaulting of [font] then
    reads a property of [undefined] or sets one on a primitive, which
    strict code refuses. (A function given as options is not a [value].) *)
Definition barcode_options (optionsOrLegacy : list value) : M BarcodeOptions :=
  let* options :=
    (if isLegacyBarcodeOptions optionsOrLegacy
     then ret {| b_width := arg optionsOrLegacy 0;
                 b_height := arg optionsOrLegacy 1;
                 b_position := arg optionsOrLegacy 2;
                 b_font := arg optionsOrLegacy 3;
                 b_includeParity := VBool true |}
     else throw RuntimeTypeError) in
  ret {| b_width := b_width options;
         b_height := b_height options;
         b_position := or_else (b_position options) (VStr (str "blw"));
         b_font := or_else (b_font options) (VStr (str "a"));
         b_includeParity := or_else (b_includeParity options) (VBool true) |}.

(** [options.height >= 1 && options.height <= 255] *)
Definition height_in_range (h : value) : option bool :=
  n ← ToNumber pf h;
  Some (match n with
        | Some n => (1 <=? n) && (n <=? 255)
        | None => false
        end).

(** [barcode(code, type, ...optionsOrLegacy)]. The payload [code] is a
    string, which [toString(10)] returns as it is. *)
Definition barcode (code : jstring) (type : value) (optionsOrLegacy : list value) : M unit :=
  let* options := barcode_options optionsOrLegacy in
  let convertCode := code in
  match type with
  | VUndef | VNull => throw (TypeError "barcode type is required")
  | _ =>
  if is_str type "EAN13" && negb (length convertCode =? 12)%nat
  then throw (Error "EAN13 Barcode type requires code length 12")
  else if is_str type "EAN8" && negb (length convertCode =? 7)%nat
  then throw (Error "EAN8 Barcode type requires code length 7")
  else
    let* m := get_model in
    (if is_model m "qsprinter" then write (QS_BARCODE_MODE_ON cmd) else ret tt) ;;;
    (if is_model m "qsprinter" then ret tt
     else let* key := convert (ToPropertyKey (b_width options)) in
          match BARCODE_WIDTH cmd key with
          | Some w => write w
          | None => write (BARCODE_WIDTH_DEFAULT cmd)
          end) ;;;
    (let* inRange := convert (height_in_range (b_height options)) in
     if inRange
     then write (BARCODE_HEIGHT cmd (b_height options))
     else if is_model m "qsprinter"
          then write (QS_BARCODE_HEIGHT_DEFAULT cmd)
          else write (BARCODE_HEIGHT_DEFAULT cmd)) ;;;
    (if is_model m "qsprinter" then ret tt
     else let* f := upperCase_value (b_font options) in
          write_entry (BARCODE_FORMAT cmd (str "BARCODE_FONT_" ++ f))) ;;;
    (let* pos := upperCase_value (b_position options) in
     write_entry (BARCODE_FORMAT cmd (str "BARCODE_TXT_" ++ pos))) ;;;
    let* upper := upperCase_value type in
    let normalizedType :=
      if bool_decide (upper = str "UPC-A") then str "UPC_A"
      else if bool_decide (upper = str "UPC-E") then str "UPC_E"
      else upper in
    write_entry (BARCODE_FORMAT cmd (str "BARCODE_" ++ normalizedType)) ;;;
    let parityBit :=
      if truthy (b_includeParity options)
      then if is_str type "EAN13" || is_str type "EAN8"
           then utils.getParityBit convertCode
           else []
      else [] in
    let codeLength :=
      if is_str type "CODE128" || is_str type "CODE93"
      then utils.codeLength pf convertCode
      else [] in
    write (codeLength ++ convertCode
             ++ (if truthy (b_includeParity options) then parityBit else [])
             ++ [0%N]) ;;;
    (if is_model m "qsprinter" then write (QS_BARCODE_MODE_OFF cmd) else ret tt)
  end.

(** *** qrcode *)

(** The clamping of [size] and of [version] for the qsprinter model: the
    default when the option is absent, zero or not a number, else the
    option brought into [mn, mx]. *)
Definition clamp (v : value) (dflt mn mx : Z) : Z :=
  if negb (truthy v) || (truthy v && negb (typeof_number v)) then dflt
  else match v with
       | VNum n =>
           if truthy v && (n <? mn) then mn
           else if truthy v && (mx <? n) then mx
           else n
       | _ => dflt
       end.

(** [qrcode(content, version, level, size)] *)
Definition qrcode (content : jstring) (version level size : value) : M unit :=
  let* m := get_model in
  if negb (is_model m "qsprinter") then
    write (TYPE_QR cmd) ;;;
    write (CODE2D cmd) ;;;
    writeUInt8_value (or_else version (VNum 3)) ;;;
    (let* lv := upperCase_value (or_else level (VStr (str "L"))) in
     write_entry (CODE2D_FORMAT cmd (str "QR_LEVEL_" ++ lv))) ;;;
    writeUInt8_value (or_else size (VNum 6)) ;;;
    writeUInt16LE (Z.of_nat (length content)) ;;;
    write content
  else
    let dataRaw := iconv_encode pf content (str "utf8") in
    if (Z.of_nat (length dataRaw) <? 1) && (2710 <? Z.of_nat (length dataRaw))
    then throw (Error "Invalid code length in byte. Must be between 1 and 2710")
    else
      let size := clamp size (QS_PIXEL_SIZE_DEFAULT cmd)
                    (QS_PIXEL_SIZE_MIN cmd) (QS_PIXEL_SIZE_MAX cmd) in
      write (QS_PIXEL_SIZE_CMD cmd) ;;;
      writeUInt8 size ;;;
      let version := clamp version (QS_VERSION_DEFAULT cmd)
                       (QS_VERSION_MIN cmd) (QS_VERSION_MAX cmd) in
      write (QS_VERSION_CMD cmd) ;;;
      writeUInt8 version ;;;
      write (QS_LEVEL_CMD cmd) ;;;
      (let* lv := upperCase_value (or_else level (VStr (str "L"))) in
       write_entry (QS_LEVEL_OPTIONS cmd lv)) ;;;
      write (QS_SAVEBUF_CMD_P1 cmd) ;;;
      writeUInt16LE (Z.of_nat (length dataRaw) + QS_LEN_OFFSET cmd) ;;;
      write (QS_SAVEBUF_CMD_P2 cmd) ;;;
      write_Buffer dataRaw ;;;
      write (QS_PRINTBUF_CMD_P1 cmd) ;;;
      writeUInt16LE (Z.of_nat (length dataRaw) + QS_LEN_OFFSET cmd) ;;;
      write (QS_PRINTBUF_CMD_P2 cmd).

(** *** image and raster *)

(** What [image instanceof PrintImage] tells apart. *)
Inductive image_arg :=
| ImageObject (img : PrintImage)
| OtherValue (v : value).

(** [array.forEach]: the holes of the array are skipped. *)
Definition forEach_array {A} (a : list (option A)) (body : A -> M unit) : M unit :=
  forEach (omap id a) body.

(** [image(image, density = 'd24')]. The delay that follows the lines
    appends nothing and is left out. [line.length / n] is exact: a line
    has [n] bytes for each column. *)
Definition image (image : image_arg) (density : option jstring) : M unit :=
  match image with
  | OtherValue _ => throw (TypeError "Only escpos.getImage supported")
  | ImageObject image =>
      let density := default (str "d24") density in
      let n := if bool_decide (utils.upperCase density ∈ [str "D8"; str "S8"])
               then 1%nat else 3%nat in
      let header := BITMAP_FORMAT cmd (str "BITMAP_" ++ utils.upperCase density) in
      let bitmap := toBitmap image (n * 8) in
      lineSpace (VNum 0) ;;;
      forEach_array (bm_data bitmap)
        (fun line =>
           write_entry header ;;;
           writeUInt16LE (Z.of_nat (length line) / Z.of_nat n) ;;;
           write_Array line ;;;
           write (EOL cmd)) ;;;
      lineSpace VUndef
  end.

(** [raster(image, mode = 'NORMAL')] *)
Definition raster (image : image_arg) (mode : option jstring) : M unit :=
  match image with
  | OtherValue _ => throw (TypeError "Only escpos.getImage supported")
  | ImageObject image =>
      let mode := utils.upperCase (default (str "NORMAL") mode) in
      let mode := if bool_decide (mode = str "DHDW")
                     || bool_decide (mode = str "DWH")
                     || bool_decide (mode = str "DHW")
                  then str "DWDH" else mode in
      let raster := toRaster image in
      let header := GSV0_FORMAT cmd (str "GSV0_" ++ mode) in
      write_entry header ;;;
      writeUInt16LE (Z.of_nat (r_width raster)) ;;;
      writeUInt16LE (Z.of_nat (r_height raster)) ;;;
      write_Array (r_data raster)
  end.

(** *** tableCustom

    The cells of a row are objects that the caller owns and that
    [tableCustom] changes: the row is a list of references into a store
    of cells. *)

Abbreviation loc := nat (only parsing).

Record Cell := {
  text : jstring;
  align : option jstring;
  style : option jstring;
  cwidth : option Q;
  cols : option Z
}.

Definition set_text (obj : Cell) (t : jstring) : Cell :=
  {| text := t; align := align obj; style := style obj;
     cwidth := cwidth obj; cols := cols obj |}.

Record TableOptions := {
  t_size : positive * positive;
  t_encoding : option jstring
}.

(** [_getStyle(bold, italic, underline)] on the flags *)
Definition getStyle_flags (bold italic : bool) (underline : Z) : jstring :=
  let styled :=
    (if bold then TXT_BOLD_ON cmd else TXT_BOLD_OFF cmd)
      ++ (if italic then TXT_ITALIC_ON cmd else TXT_ITALIC_OFF cmd) in
  if underline =? 0 then styled ++ TXT_UNDERL_OFF cmd
  else if underline =? 1 then styled ++ TXT_UNDERL_ON cmd
  else if underline =? 2 then styled ++ TXT_UNDERL2_ON cmd
  else styled.

(** [_getStyle(string)] *)
Definition _getStyle (boldOrString : jstring) : jstring :=
  let s := utils.upperCase boldOrString in
  if bool_decide (s = str "B") then getStyle_flags true false 0
  else if bool_decide (s = str "I") then getStyle_flags false true 0
  else if bool_decide (s = str "U") then getStyle_flags false false 1
  else if bool_decide (s = str "U2") then getStyle_flags false false 2
  else if bool_decide (s = str "BI") then getStyle_flags true true 0
  else if bool_decide (s = str "BIU") then getStyle_flags true true 1
  else if bool_decide (s = str "BIU2") then getStyle_flags true true 2
  else if bool_decide (s = str "BU") then getStyle_flags true false 1
  else if bool_decide (s = str "BU2") then getStyle_flags true false 2
  else if bool_decide (s = str "IU") then getStyle_flags false true 1
  else if bool_decide (s = str "IU2") then getStyle_flags false true 2
  else getStyle_flags false false 0.

(** [for (let s = 0; s < spaces; s++) lineStr += ' '] *)
Definition pad (spaces : Q) : jstring :=
  replicate (Z.to_nat (Qceiling spaces)) 32%N.

(** The text of a cell as it is put on the line, with its style. *)
Definition styled_text (obj : Cell) : jstring :=
  match text obj with
  | [] => []
  | _ =>
      match style obj with
      | Some ((_ :: _) as st) => _getStyle st ++ text obj ++ _getStyle (str "NORMAL")
      | _ => text obj
      end
  end.

Record RowState := {
  cellWidth : Q;
  leftoverSpace : Z;
  lineStr : jstring;
  secondLineEnabled : bool;
  secondLine : list loc;
  heap : gmap nat Cell
}.

(** The body of the loop over the cells, for the cell [obj] found at
    reference [l]. *)
Definition cell_step (baseWidth : Z) (width : positive) (l : loc) (obj : Cell)
    (rs : RowState) : RowState :=
  let align := utils.upperCase (match align obj with
                                | Some ((_ :: _) as a) => a
                                | _ => str "left"
                                end) in
  let textLength := utils.textLength (text obj) in
  let '(cellWidth, leftoverSpace) :=
    match cwidth obj with
    | Some w => ((inject_Z baseWidth * w)%Q, leftoverSpace rs)
    | None =>
        match cols obj with
        | Some c => if c =? 0 then (cellWidth rs, leftoverSpace rs)
                    else ((inject_Z c / inject_Z (Z.pos width))%Q, 0)
        | None => (cellWidth rs, leftoverSpace rs)
        end
    end in
  let overflow := Qlt_bool cellWidth (inject_Z textLength) in
  let originalText := if overflow then Some (text obj) else None in
  let obj := if overflow
             then set_text obj (utils.textSubstring (text obj) 0 (Some cellWidth))
             else obj in
  let heap1 := if overflow then <[l := obj]> (heap rs) else heap rs in
  let '(lineStr, leftoverSpace) :=
    if bool_decide (align = str "CENTER") then
      let spaces := ((cellWidth - inject_Z textLength) / 2)%Q in
      (lineStr rs ++ pad spaces ++ styled_text obj ++ pad (spaces - 1)%Q, leftoverSpace)
    else if bool_decide (align = str "RIGHT") then
      let spaces := (cellWidth - inject_Z textLength)%Q in
      let '(spaces, leftoverSpace) :=
        if 0 <? leftoverSpace then ((spaces + inject_Z leftoverSpace)%Q, 0)
        else (spaces, leftoverSpace) in
      (lineStr rs ++ pad spaces ++ styled_text obj, leftoverSpace)
    else
      let spaces := inject_Z (Qfloor (cellWidth - inject_Z textLength)) in
      let '(spaces, leftoverSpace) :=
        if 0 <? leftoverSpace then ((spaces + inject_Z leftoverSpace)%Q, 0)
        else (spaces, leftoverSpace) in
      (lineStr rs ++ styled_text obj ++ pad spaces, leftoverSpace) in
  match originalText with
  | Some originalText =>
      {| cellWidth := cellWidth; leftoverSpace := leftoverSpace;
         lineStr := lineStr; secondLineEnabled := true;
         secondLine := secondLine rs ++ [l];
         heap := <[l := set_text obj (utils.textSubstring originalText cellWidth None)]> heap1 |}
  | None =>
      {| cellWidth := cellWidth; leftoverSpace := leftoverSpace;
         lineStr := lineStr; secondLineEnabled := secondLineEnabled rs;
         secondLine := secondLine rs ++ [l];
         heap := <[l := set_text obj []]> heap1 |}
  end.

(** The loop over [data]. An element that is not a cell of the store is
    [undefined], and reading its [align] throws. *)
Fixpoint render_cells (baseWidth : Z) (width : positive) (data : list loc)
    (rs : RowState) : outcome unit * RowState :=
  match data with
  | [] => (Ok tt, rs)
  | l :: rest =>
      match heap rs !! l with
      | None => (Throw RuntimeTypeError, rs)
      | Some obj => render_cells baseWidth width rest (cell_step baseWidth width l obj rs)
      end
  end.

(** The first statements of [tableCustom] and its loop: the widths of the
    row, then the cells in order. [deviceWidth] is [this.width]. *)
Definition table_row (deviceWidth : Z) (data : list loc) (width : positive)
    (store : gmap nat Cell) : outcome unit * RowState :=
  let baseWidth := deviceWidth / Z.pos width in
  let cellWidth := baseWidth / Z.of_nat (length data) in
  let leftoverSpace := baseWidth - cellWidth * Z.of_nat (length data) in
  render_cells baseWidth width data
    {| cellWidth := inject_Z cellWidth; leftoverSpace := leftoverSpace;
       lineStr := []; secondLineEnabled := false; secondLine := [];
       heap := store |}.

(** The line that is written: the cells, between the commands of the
    custom size when the row has one, and the end of line, encoded. *)
Definition table_line (options : TableOptions) (this : Printer) (lineStr : jstring) : list N :=
  let '(width, height) := t_size options in
  let lineStr :=
    if (1 <? Z.pos width) || (1 <? Z.pos height)
    then TXT_CUSTOM_SIZE cmd (Z.pos width) (Z.pos height) ++ lineStr ++ TXT_NORMAL cmd
    else lineStr in
  let enc := match t_encoding options with
             | Some ((_ :: _) as e) => e
             | _ => encoding this
             end in
  iconv_encode pf (lineStr ++ EOL cmd) enc.

(** The default value of the parameter [options]. *)
Definition default_table_options (this : Printer) : TableOptions :=
  {| t_size := (1%positive, 1%positive); t_encoding := Some (encoding this) |}.

(** [tableCustom(data, options)]. The call recurses on the continuation
    row; [fuel] bounds the depth of the recursion, and [None] is a run
    that needs more. *)
Fixpoint tableCustom (fuel : nat) (data : list loc) (options : option TableOptions)
    (this : Printer) (store : gmap nat Cell)
    : option (outcome unit * Printer * gmap nat Cell) :=
  match fuel with
  | O => None
  | S fuel' =>
      let options := default (default_table_options this) options in
      let '(r, rs) := table_row (width this) data (fst (t_size options)) store in
      match r with
      | Throw e => Some (Throw e, this, heap rs)
      | Ok _ =>
          let this := with_buffer this
                        (buffer this ++ table_line options this (lineStr rs)) in
          if secondLineEnabled rs
          then tableCustom fuel' (secondLine rs) (Some options) this (heap rs)
          else Some (Ok tt, this, heap rs)
      end
  end.

End Printer.

(** ** A platform and a command table to run the encoder on

    The theorems below hold for every platform and every command table.
    To evaluate the encoder on concrete calls, this section fixes one of
    each: a codec that encodes every text as UTF-8, a decoder that
    replaces every byte outside ASCII, decimal numerals, and the usual
    ESC/POS encodings of the commands. *)

Module Sample.

Definition decode_replacing (bs : list N) : jstring :=
  map (fun b => if (b <? 128)%N then b else 0xFFFD%N) bs.

Definition decimal (s : jstring) : option Z :=
  match s with
  | [] => Some 0
  | _ => foldl (fun acc c => n ← acc; d ← utils.parseInt1 (Some c); Some (10 * n + d))
           (Some 0) s
  end.

Definition platform : Platform :=
  {| iconv_encode := fun s _ => utf8_encode s;
     Buffer_toString := decode_replacing;
     StringToNumber := decimal |}.

Fixpoint lookup (table : list (string * jstring)) (key : jstring) : option jstring :=
  match table with
  | [] => None
  | (k, v) :: table' => if bool_decide (str k = key) then Some v else lookup table' key
  end.

Definition size_byte (w h : Z) : N :=
  let w := if 8 <? w then 8 else if w <? 1 then 1 else w in
  let h := if 8 <? h then 8 else if h <? 1 then 1 else h in
  Z.to_N ((w - 1) * 16 + (h - 1)).

#[local] Open Scope string_scope.

Definition commands : Commands :=
  {| EOL := [10%N];
     LS_DEFAULT := [0x1b; 0x32]%N;
     LS_SET := [0x1b; 0x33]%N;
     TXT_NORMAL := [0x1b; 0x21; 0x00]%N;
     TXT_CUSTOM_SIZE := fun w h => [0x1d; 0x21; size_byte w h]%N;
     TXT_BOLD_ON := [0x1b; 0x45; 0x01]%N;
     TXT_BOLD_OFF := [0x1b; 0x45; 0x00]%N;
     TXT_ITALIC_ON := [0x1b; 0x34]%N;
     TXT_ITALIC_OFF := [0x1b; 0x35]%N;
     TXT_UNDERL_OFF := [0x1b; 0x2d; 0x00]%N;
     TXT_UNDERL_ON := [0x1b; 0x2d; 0x01]%N;
     TXT_UNDERL2_ON := [0x1b; 0x2d; 0x02]%N;
     BARCODE_FORMAT :=
       lookup [("BARCODE_TXT_OFF", [0x1d; 0x48; 0x00]%N);
               ("BARCODE_TXT_ABV", [0x1d; 0x48; 0x01]%N);
               ("BARCODE_TXT_BLW", [0x1d; 0x48; 0x02]%N);
               ("BARCODE_TXT_BTH", [0x1d; 0x48; 0x03]%N);
               ("BARCODE_FONT_A", [0x1d; 0x66; 0x00]%N);
               ("BARCODE_FONT_B", [0x1d; 0x66; 0x01]%N);
               ("BARCODE_UPC_A", [0x1d; 0x6b; 0x00]%N);
               ("BARCODE_UPC_E", [0x1d; 0x6b; 0x01]%N);
               ("BARCODE_EAN13", [0x1d; 0x6b; 0x02]%N);
               ("BARCODE_EAN8", [0x1d; 0x6b; 0x03]%N);
               ("BARCODE_CODE39", [0x1d; 0x6b; 0x04]%N);
               ("BARCODE_ITF", [0x1d; 0x6b; 0x05]%N);
               ("BARCODE_NW7", [0x1d; 0x6b; 0x06]%N);
               ("BARCODE_CODE93", [0x1d; 0x6b; 0x48]%N);
               ("BARCODE_CODE128", [0x1d; 0x6b; 0x49]%N)];
     BARCODE_WIDTH :=
       lookup [("1", [0x1d; 0x77; 0x02]%N); ("2", [0x1d; 0x77; 0x03]%N);
               ("3", [0x1d; 0x77; 0x04]%N); ("4", [0x1d; 0x77; 0x05]%N);
               ("5", [0x1d; 0x77; 0x06]%N)];
     BARCODE_WIDTH_DEFAULT := [0x1d; 0x77; 0x01]%N;
     BARCODE_HEIGHT := fun h => [0x1d; 0x68; match h with VNum n => Z.to_N n | _ => 0 end]%N;
     BARCODE_HEIGHT_DEFAULT := [0x1d; 0x68; 0x64]%N;
     CODE2D_FORMAT :=
       lookup [("QR_LEVEL_L", [0x4c]%N); ("QR_LEVEL_M", [0x4d]%N);
               ("QR_LEVEL_H", [0x48]%N); ("QR_LEVEL_Q", [0x51]%N)];
     TYPE_QR := [0x1d; 0x5a; 0x02]%N;
     CODE2D := [0x1b; 0x5a]%N;
     BITMAP_FORMAT :=
       lookup [("BITMAP_S8", [0x1b; 0x2a; 0x00]%N); ("BITMAP_D8", [0x1b; 0x2a; 0x01]%N);
               ("BITMAP_S24", [0x1b; 0x2a; 0x20]%N); ("BITMAP_D24", [0x1b; 0x2a; 0x21]%N)];
     GSV0_FORMAT :=
       lookup [("GSV0_NORMAL", [0x1d; 0x76; 0x30; 0x00]%N);
               ("GSV0_DW", [0x1d; 0x76; 0x30; 0x01]%N);
               ("GSV0_DH", [0x1d; 0x76; 0x30; 0x02]%N);
               ("GSV0_DWDH", [0x1d; 0x76; 0x30; 0x03]%N)];
     QS_BARCODE_MODE_ON := [0x1d; 0x45; 0x43; 0x01]%N;
     QS_BARCODE_MODE_OFF := [0x1d; 0x45; 0x43; 0x00]%N;
     QS_BARCODE_HEIGHT_DEFAULT := [0x1d; 0x68; 0xA2]%N;
     QS_PIXEL_SIZE_CMD := [0x1b; 0x23; 0x23; 0x51; 0x50; 0x49; 0x58]%N;
     QS_PIXEL_SIZE_MIN := 1;
     QS_PIXEL_SIZE_MAX := 24;
     QS_PIXEL_SIZE_DEFAULT := 12;
     QS_VERSION_CMD := [0x1d; 0x28; 0x6b; 0x03; 0x00; 0x31; 0x43]%N;
     QS_VERSION_MIN := 1;
     QS_VERSION_MAX := 16;
     QS_VERSION_DEFAULT := 3;
     QS_LEVEL_CMD := [0x1d; 0x28; 0x6b; 0x03; 0x00; 0x31; 0x45]%N;
     QS_LEVEL_OPTIONS :=
       lookup [("L", str "48"); ("M", str "49"); ("Q", str "50"); ("H", str "51")];
     QS_LEN_OFFSET := 3;
     QS_SAVEBUF_CMD_P1 := [0x1d; 0x28; 0x6b]%N;
     QS_SAVEBUF_CMD_P2 := [0x31; 0x50; 0x30]%N;
     QS_PRINTBUF_CMD_P1 := [0x1d; 0x28; 0x6b]%N;
     QS_PRINTBUF_CMD_P2 := [0x31; 0x51; 0x30]%N |}.

(** A session as the constructor makes it by default, and the same for
    the qsprinter model. *)
Definition printer : Printer :=
  new_Printer {| opt_encoding := str "GB18030"; opt_width := 48 |}.

Definition qsprinter : Printer := model (Some (str "qsprinter")) printer.

(** An image of one dot, set; and one of three columns and two rows. *)
Definition dot : PrintImage :=
  {| pixels := {| px_data := [255; 255; 255; 255]; px_shape := (1, 1, 4)%nat |};
     data := [true] |}.

Definition grid : PrintImage :=
  {| pixels := {| px_data := []; px_shape := (3, 2, 4)%nat |};
     data := [true; false; true; false; true; true] |}.

(** Cells: a plain one, and one that is a single column wide. *)
Definition cell (t : jstring) : Cell :=
  {| text := t; align := None; style := None; cwidth := None; cols := None |}.

Definition narrow_cell (t : jstring) : Cell :=
  {| text := t; align := None; style := None; cwidth := None; cols := Some 1 |}.

(** A store with one cell, one column wide, that holds one character two
    columns wide (U+4E2D); and a store with a row of two cells. *)
Definition wide_store : gmap nat Cell := {[ 0%nat := narrow_cell [0x4E2D%N] ]}.

Definition row_store : gmap nat Cell :=
  <[0%nat := cell (str "hello world, this is long")]> {[ 1%nat := cell (str "ab") ]}.

Definition printer16 : Printer :=
  new_Printer {| opt_encoding := str "GB18030"; opt_width := 16 |}.

(** The session and the store after the row of [row_store] has been
    printed on [printer16]: four lines, and both texts empty. *)
Definition printer16_after : Printer :=
  with_buffer printer16
    (utf8_encode (str "hello woab      ") ++ [10%N]
       ++ utf8_encode (str "rld, thi        ") ++ [10%N]
       ++ utf8_encode (str "s is lon        ") ++ [10%N]
       ++ utf8_encode (str "g               ") ++ [10%N]).

Definition row_store_after : gmap nat Cell :=
  <[0%nat := cell []]> {[ 1%nat := cell [] ]}.

End Sample.

(** ** printer.js: the other commands of the session

    The entries of the command table that the commands below name, with
    the conventions of [Commands]. *)

Record MoreCommands := {
  ESC : jstring;
  TAB : jstring;
  MARGINS_BOTTOM : jstring;
  MARGINS_LEFT : jstring;
  MARGINS_RIGHT : jstring;
  FEED_CONTROL_SEQUENCES : jstring -> option jstring;
  TEXT_FORMAT : jstring -> option jstring;
  CS_DEFAULT : jstring;
  CS_SET : jstring;
  CD_KICK_2 : jstring;
  CD_KICK_5 : jstring;
  BEEP : jstring;
  PAPER_FULL_CUT : jstring;
  PAPER_PART_CUT : jstring;
  STAR_FULL_CUT : jstring;
  COLOR : Z -> option jstring;
  COLOR_REVERSE : jstring;
  COLOR_UNREVERSE : jstring;
  STAR_TXT_EMPHASIZED : jstring;
  STAR_CANCEL_TXT_EMPHASIZED : jstring
}.

(** [String.prototype.toLowerCase], on the ASCII letters. No other
    character becomes a hexadecimal digit or a separator when it is put in
    lower case, which is all that [raw] asks of its result. *)
Definition toLowerCase (s : jstring) : jstring :=
  map (fun c => if ((65 <=? c) && (c <=? 90))%N then (c + 32)%N else c) s.

(** The class [\s] of a regular expression. *)
Definition is_white_space (c : N) : bool :=
  (((9 <=? c) && (c <=? 13)) || (c =? 32) || (c =? 0xA0) || (c =? 0x1680)
   || ((0x2000 <=? c) && (c <=? 0x200A)) || (c =? 0x2028) || (c =? 0x2029)
   || (c =? 0x202F) || (c =? 0x205F) || (c =? 0x3000) || (c =? 0xFEFF))%N.

(** [Buffer.from(h, 'hex')] on any string: one byte for each pair of
    hexadecimal digits, up to the first pair that is not one. *)
Definition hex_digit (c : N) : option N :=
  if ((48 <=? c) && (c <=? 57))%N then Some (c - 48)%N
  else if ((97 <=? c) && (c <=? 102))%N then Some (c - 87)%N
  else if ((65 <=? c) && (c <=? 70))%N then Some (c - 55)%N
  else None.

Fixpoint Buffer_from_hex_string (h : jstring) : list N :=
  match h with
  | hi :: lo :: rest =>
      match hex_digit hi, hex_digit lo with
      | Some a, Some b => (16 * a + b)%N :: Buffer_from_hex_string rest
      | _, _ => []
      end
  | _ => []
  end.

(** The fields of the session that a command reads or sets. *)
Definition get_encoding : M jstring := fun p => (Ok (encoding p), p).
Definition get_width : M Z := fun p => (Ok (width p), p).
Definition get_options : M PrinterOptions := fun p => (Ok (options p), p).

Definition set_encoding (e : jstring) : M unit :=
  fun p => (Ok tt, {| buffer := buffer p; options := options p; encoding := e;
                      width := width p; _model := _model p |}).

Definition set_width (w : Z) : M unit :=
  fun p => (Ok tt, {| buffer := buffer p; options := options p;
                      encoding := encoding p; width := w; _model := _model p |}).

Definition set_model (m : option jstring) : M unit := fun p => (Ok tt, model m p).

(** [v.toString()]: [undefined] and [null] have no method, and an own
    property [toString] of an object is no function. *)
Definition toString_value (v : value) : M jstring :=
  match v with
  | VUndef | VNull => throw RuntimeTypeError
  | _ => convert (ToPropertyKey v)
  end.

(** [underline === 0 || underline === false], [=== 1 || === true],
    [=== 2]: the number that the cases of [_getStyle] compare with, and 3
    for a value that none of them matches. *)
Definition underline_code (v : value) : Z :=
  match v with
  | VNum n => n
  | VBool b => if b then 1 else 0
  | _ => 3
  end.

(** What [raw] tells apart: a Buffer, or another value. *)
Inductive raw_arg :=
| RawBuffer (bs : list N)
| RawValue (v : value).

Module Session.

Section Commands.

Context (pf : Platform) (cmd : Commands) (more : MoreCommands).

(** [setCharacterCodeTable(codeTable)] *)
Definition setCharacterCodeTable (codeTable : value) : M unit :=
  write (ESC more) ;;;
  write (TAB more) ;;;
  writeUInt8_value pf codeTable.

(** [marginBottom(size)], [marginLeft(size)], [marginRight(size)] *)
Definition marginBottom (n : value) : M unit :=
  write (MARGINS_BOTTOM more) ;;; writeUInt8_value pf n.

Definition marginLeft (n : value) : M unit :=
  write (MARGINS_LEFT more) ;;; writeUInt8_value pf n.

Definition marginRight (n : value) : M unit :=
  write (MARGINS_RIGHT more) ;;; writeUInt8_value pf n.

(** [print(content)], [println(content)], [newLine()] on a string *)
Definition print (content : jstring) : M unit := write content.

Definition println (content : jstring) : M unit := print (content ++ EOL cmd).

Definition newLine : M unit := print (EOL cmd).

(** [text(content, encoding = this.encoding)]: [print] of a Buffer writes
    its bytes. *)
Definition text (content : jstring) (enc : option jstring) : M unit :=
  let* this_encoding := get_encoding in
  let enc := default this_encoding enc in
  write_Buffer (iconv_encode pf (content ++ EOL cmd) enc).

(** [pureText(content, encoding = this.encoding)] *)
Definition pureText (content : jstring) (enc : option jstring) : M unit :=
  let* this_encoding := get_encoding in
  let enc := default this_encoding enc in
  write_Buffer (iconv_encode pf content enc).

(** [drawLine(character = '-')]; [Buffer.from(character)] is the UTF-8
    encoding of the string. *)
Definition drawLine (character : option jstring) : M unit :=
  let character := default (str "-") character in
  let* w := get_width in
  forEach (seq 0 (Z.to_nat w)) (fun _ => write_Buffer (utf8_encode character)) ;;;
  newLine.

(** [table(data, encoding = this.encoding)]. The loop over [data]: the
    text of the item, then the spaces up to the width of a cell. *)
Fixpoint table_cells (cellWidth : Q) (data : list value) (lineTxt : jstring) : M jstring :=
  match data with
  | [] => ret lineTxt
  | item :: rest =>
      let* s := toString_value item in
      let spaces := (cellWidth - inject_Z (Z.of_nat (length s)))%Q in
      table_cells cellWidth rest (lineTxt ++ s ++ pad spaces)
  end.

Definition table (data : list value) (enc : option jstring) : M unit :=
  let* this_encoding := get_encoding in
  let enc := default this_encoding enc in
  let* w := get_width in
  let cellWidth := (inject_Z w / inject_Z (Z.of_nat (length data)))%Q in
  let* lineTxt := table_cells cellWidth data [] in
  write_Buffer (iconv_encode pf (lineTxt ++ EOL cmd) enc).

(** [encode(encoding)] *)
Definition encode (enc : jstring) : M unit := set_encoding enc.

(** [feed(n = 1)] on an integer: an array of a negative length, or of a
    length of 2^32 or more, is a RangeError of the language. *)
Definition feed (n : option Z) : M unit :=
  let n := default 1 n in
  if (n <? 0) || (4294967295 <? n) then throw RangeError
  else write (concat (replicate (Z.to_nat n) (EOL cmd))).

(** [control(ctrl)] *)
Definition control (ctrl : value) : M unit :=
  let* c := upperCase_value ctrl in
  write_entry (FEED_CONTROL_SEQUENCES more (str "CTL_" ++ c)).

(** [align(align)] *)
Definition align (a : value) : M unit :=
  let* a := upperCase_value a in
  write_entry (TEXT_FORMAT more (str "TXT_ALIGN_" ++ a)).

(** [font(family)]: [this.options.width || 42] is the width of the
    options unless that is 0. *)
Definition font (family : value) : M unit :=
  let* f := upperCase_value family in
  write_entry (TEXT_FORMAT more (str "TXT_FONT_" ++ f)) ;;;
  let* o := get_options in
  if bool_decide (f = str "A")
  then set_width (if opt_width o =? 0 then 42 else opt_width o)
  else set_width (if opt_width o =? 0 then 56 else opt_width o).

(** [style(boldOrString, italic, underline)] *)
Definition style (boldOrString italic underline : value) : M unit :=
  match boldOrString with
  | VStr s => write (_getStyle cmd s)
  | _ => write (getStyle_flags cmd (truthy boldOrString) (truthy italic)
                  (underline_code underline))
  end.

(** [size(width, height)] *)
Definition size (w h : Z) : M unit := write (TXT_CUSTOM_SIZE cmd w h).

(** [spacing(n)] *)
Definition spacing (n : value) : M unit :=
  match n with
  | VUndef | VNull => write (CS_DEFAULT more)
  | _ => write (CS_SET more) ;;; writeUInt8_value pf n
  end.

(** [cashdraw(pin = 2)] *)
Definition cashdraw (pin : value) : M unit :=
  let pin := match pin with VUndef => VNum 2 | _ => pin end in
  write (match pin with
         | VNum n => if n =? 5 then CD_KICK_5 more else CD_KICK_2 more
         | _ => CD_KICK_2 more
         end).

(** [beep(n, t)] *)
Definition beep (n t : value) : M unit :=
  write (BEEP more) ;;;
  writeUInt8_value pf n ;;;
  writeUInt8_value pf t.

(** [cut(partial = false, feed = 3)] *)
Definition cut (partial : value) (lines : option Z) : M unit :=
  let partial := match partial with VUndef => VBool false | _ => partial end in
  feed (Some (default 3 lines)) ;;;
  write (if truthy partial then PAPER_PART_CUT more else PAPER_FULL_CUT more).

(** [color(color)]; the warning goes to the console. *)
Definition color (c : value) : M unit :=
  match c with
  | VNum n => if (n =? 0) || (n =? 1) then write_entry (COLOR more n)
              else write_entry (COLOR more 0)
  | _ => write_entry (COLOR more 0)
  end.

(** [setReverseColors(reverse)] *)
Definition setReverseColors (reverse : value) : M unit :=
  write (if truthy reverse then COLOR_REVERSE more else COLOR_UNREVERSE more).

(** [raw(data)]: the bytes of a Buffer; for a string, the bytes that its
    hexadecimal digits spell once white space and colons are removed; for
    anything else, nothing. *)
Definition raw (data : raw_arg) : M unit :=
  match data with
  | RawBuffer bs => write_Buffer bs
  | RawValue (VStr s) =>
      let data := toLowerCase s in
      write_Buffer
        (Buffer_from_hex_string
           (List.filter (fun c => negb (is_white_space c || (c =? 58)%N)) data))
  | RawValue _ => ret tt
  end.

(** [starFullCut()], [emphasize()], [cancelEmphasize()] *)
Definition starFullCut : M unit := write (STAR_FULL_CUT more).

Definition emphasize : M unit := write (STAR_TXT_EMPHASIZED more).

Definition cancelEmphasize : M unit := write (STAR_CANCEL_TXT_EMPHASIZED more).

End Commands.

End Session.

(** The entries of the usual ESC/POS table for these commands. *)
Module SampleMore.

#[local] Open Scope string_scope.

Definition more : MoreCommands :=
  {| ESC := [0x1b]%N;
     TAB := [0x74]%N;
     MARGINS_BOTTOM := [0x1b; 0x4f]%N;
     MARGINS_LEFT := [0x1b; 0x6c]%N;
     MARGINS_RIGHT := [0x1b; 0x51]%N;
     FEED_CONTROL_SEQUENCES :=
       Sample.lookup [("CTL_LF", [0x0a]%N); ("CTL_GLF", [0x4a; 0x00]%N);
                      ("CTL_FF", [0x0c]%N); ("CTL_CR", [0x0d]%N);
                      ("CTL_HT", [0x09]%N); ("CTL_VT", [0x0b]%N)];
     TEXT_FORMAT :=
       Sample.lookup [("TXT_FONT_A", [0x1b; 0x4d; 0x00]%N);
                      ("TXT_FONT_B", [0x1b; 0x4d; 0x01]%N);
                      ("TXT_FONT_C", [0x1b; 0x4d; 0x02]%N);
                      ("TXT_ALIGN_LT", [0x1b; 0x61; 0x00]%N);
                      ("TXT_ALIGN_CT", [0x1b; 0x61; 0x01]%N);
                      ("TXT_ALIGN_RT", [0x1b; 0x61; 0x02]%N)];
     CS_DEFAULT := [0x1b; 0x20; 0x00]%N;
     CS_SET := [0x1b; 0x20]%N;
     CD_KICK_2 := [0x1b; 0x70; 0x00; 0x19; 0x78]%N;
     CD_KICK_5 := [0x1b; 0x70; 0x01; 0x19; 0x78]%N;
     BEEP := [0x1b; 0x42]%N;
     PAPER_FULL_CUT := [0x1d; 0x56; 0x00]%N;
     PAPER_PART_CUT := [0x1d; 0x56; 0x01]%N;
     STAR_FULL_CUT := [0x1b; 0x64; 0x02]%N;
     COLOR := fun n => if (n =? 0)%Z then Some [0x1b; 0x72; 0x00]%N
                       else if (n =? 1)%Z then Some [0x1b; 0x72; 0x01]%N
                       else None;
     COLOR_REVERSE := [0x1d; 0x42; 0x31]%N;
     COLOR_UNREVERSE := [0x1d; 0x42; 0x30]%N;
     STAR_TXT_EMPHASIZED := [0x1b; 0x45]%N;
     STAR_CANCEL_TXT_EMPHASIZED := [0x1b; 0x46]%N |}.

(** An image of two columns and two rows, as the pixel source gives it:
    white, black, transparent white, light grey. *)
Definition rgba : Pixels :=
  {| px_data := [255; 255; 255; 255;  0; 0; 0; 255;
                 255; 255; 255; 0;    201; 201; 201; 255];
     px_shape := (2, 2, 4)%nat |}.

End SampleMore.

(** * Notions of the specification

    The definitions that the properties below are stated with. *)

(** ** The checksum digit *)

Definition is_digit (c : N) : Prop := (48 <= c <= 57)%N.

Definition digit_value (c : N) : Z := Z.of_N c - 48.

(** The weighted sum as the specification words it: the digits of the
    reversed string, each times 3 at an odd position and times 1 at an
    even one, positions counted from [pos]. *)
Fixpoint weighted_sum_from (pos : nat) (reversed : jstring) : Z :=
  match reversed with
  | [] => 0
  | c :: rest =>
      digit_value c * (if Nat.odd pos then 3 else 1)
        + weighted_sum_from (S pos) rest
  end.

Definition weighted_sum (s : jstring) : Z := weighted_sum_from 1 (reverse s).

Definition checksum (s : jstring) : Z := (10 - weighted_sum s mod 10) mod 10.

(** ** Bit packing *)

(** One round of the packing loops on the byte at the end of the array:
    the byte is created as 0 if it is not there, and the bit is added when
    the source dot is set. *)
Definition pack_round (i : nat) (inked : bool) (t : nat) (ld : list (option Z)) :=
  let ld := array_init0 ld i in
  if inked then array_add ld i (Z.shiftr 0x80 (Z.of_nat t)) else ld.

Definition bit_of (t : nat) (inked : bool) : Z :=
  if inked then Z.shiftr 0x80 (Z.of_nat t) else 0.

(** The byte that eight rounds build, most significant bit first. *)
Definition bits_value (f : nat -> bool) : Z :=
  0 + bit_of 0 (f 0%nat) + bit_of 1 (f 1%nat) + bit_of 2 (f 2%nat)
    + bit_of 3 (f 3%nat) + bit_of 4 (f 4%nat) + bit_of 5 (f 5%nat)
    + bit_of 6 (f 6%nat) + bit_of 7 (f 7%nat).

(** ** The bytes of the projections *)

(** The ink mask as a grid: the dot of row [r] and column [c]. *)
Definition mask (img : PrintImage) (r c : nat) : bool :=
  ink img (r * s_width (size img) + c).

(** The source dot of sub-bit [b] of column [x] in block [y]: unset past
    the last row. *)
Definition bitmap_src (img : PrintImage) (density y x b : nat) : bool :=
  (y * density + b <? s_height (size img))%nat && mask img (y * density + b) x.

Definition bitmap_byte (img : PrintImage) (density y x j : nat) : Z :=
  bits_value (fun t => bitmap_src img density y x (j * 8 + t)).

Definition bitmap_column (img : PrintImage) (density y x : nat) : list (option Z) :=
  flat_map (fun j => [Some (bitmap_byte img density y x j)]) (seq 0 (density / 8)).

Definition bitmap_line (img : PrintImage) (density y : nat) : list (option Z) :=
  flat_map (bitmap_column img density y) (seq 0 (s_width (size img))).

(** The source dot of bit [b] of byte column [x] in row [y]: unset past
    the last column. *)
Definition raster_src (img : PrintImage) (y x b : nat) : bool :=
  (x * 8 + b <? s_width (size img))%nat && mask img y (x * 8 + b).

Definition raster_byte (img : PrintImage) (y x : nat) : Z :=
  bits_value (raster_src img y x).

Definition raster_row (img : PrintImage) (y : nat) : list (option Z) :=
  flat_map (fun x => [Some (raster_byte img y x)])
    (seq 0 ((s_width (size img) + 7) / 8)).

(** ** Decoding a projection *)

(** Bit [0x80 >> (b mod 8)] of the byte at offset [x * (density / 8) +
    (b div 8)] of block [y]. *)
Definition bitmap_bit (bm : Bitmap) (y x b : nat) : option bool :=
  line ← array_get (bm_data bm) y;
  byte ← array_get line (x * (bm_density bm / 8) + b / 8);
  Some (negb (Z.land byte (Z.shiftr 0x80 (Z.of_nat (b mod 8))) =? 0)).

(** Bit [0x80 >> b] of the byte at [y * ceil(w / 8) + x]. *)
Definition raster_bit (r : Raster) (y x b : nat) : option bool :=
  byte ← array_get (r_data r) (y * r_width r + x);
  Some (negb (Z.land byte (Z.shiftr 0x80 (Z.of_nat b)) =? 0)).

(** The mask read back from a projection, row by row. *)
Definition mask_of_bitmap (bm : Bitmap) (w h : nat) : list bool :=
  map (fun k => let row := (k / w)%nat in
                default false (bitmap_bit bm (row / bm_density bm) (k mod w)
                                 (row mod bm_density bm)))
      (seq 0 (h * w)).

Definition mask_of_raster (r : Raster) (w h : nat) : list bool :=
  map (fun k => let col := (k mod w)%nat in
                default false (raster_bit r (k / w) (col / 8) (col mod 8)))
      (seq 0 (h * w)).

(** ** Streams *)

(** [appends m bs]: on every session, [m] returns and has appended
    exactly the bytes [bs]. *)
Definition appends (m : M unit) (bs : list N) : Prop :=
  forall p, m p = (Ok tt, with_buffer p (buffer p ++ bs)).

(** The bytes of [n], little-endian on 16 bits. *)
Definition u16le (n : Z) : list N := [Z.to_N (n mod 256); Z.to_N (n / 256)].

(** The bytes [write] appends for a table entry. *)
Definition entry_bytes (o : option jstring) : list N :=
  utf8_encode (default (str "undefined") o).

(** The bytes [write] appends for a line of the bitmap. *)
Definition line_bytes (line : list (option Z)) : list N :=
  map (fun o => Z.to_N (default 0 o mod 256)) line.

(** The number of bytes of a column: 1 for the 8-dot densities, 3 for the
    others. *)
Definition bytes_per_column (density : option jstring) : nat :=
  if bool_decide (utils.upperCase (default (str "d24") density) ∈ [str "D8"; str "S8"])
  then 1%nat else 3%nat.

Definition bitmap_header (cmd : Commands) (density : option jstring) : option jstring :=
  BITMAP_FORMAT cmd (str "BITMAP_" ++ utils.upperCase (default (str "d24") density)).

Definition bitmap_lines (img : PrintImage) (density : option jstring) : list (list (option Z)) :=
  let d := (bytes_per_column density * 8)%nat in
  map (bitmap_line img d) (seq 0 ((s_height (size img) + d - 1) / d)).

(** What [image] appends: line spacing set to zero; for each line the
    header, the number of columns of the line (its byte length divided by
    the bytes of a column) on 16 bits, the bytes of the line and an end of
    line; the default line spacing. *)
Definition image_stream (cmd : Commands) (img : PrintImage) (density : option jstring) : list N :=
  (utf8_encode (LS_SET cmd) ++ [0%N])
    ++ flat_map (fun line =>
                   entry_bytes (bitmap_header cmd density)
                     ++ u16le (Z.of_nat (length line) / Z.of_nat (bytes_per_column density))
                     ++ line_bytes line
                     ++ utf8_encode (EOL cmd))
         (bitmap_lines img density)
    ++ utf8_encode (LS_DEFAULT cmd).

(** The stream as the claim words it: the integer that follows the header
    of a line is the byte length of that line. (The end of line after each
    line, which the claim leaves out, is kept.) *)
Definition image_stream_as_claimed (cmd : Commands) (img : PrintImage)
    (density : option jstring) : list N :=
  (utf8_encode (LS_SET cmd) ++ [0%N])
    ++ flat_map (fun line =>
                   entry_bytes (bitmap_header cmd density)
                     ++ u16le (Z.of_nat (length line))
                     ++ line_bytes line
                     ++ utf8_encode (EOL cmd))
         (bitmap_lines img density)
    ++ utf8_encode (LS_DEFAULT cmd).

(** ** Errors *)

(** [quiet m]: [m] never throws by a [throw] statement of the driver. *)
Definition quiet {A : Type} (m : M A) : Prop :=
  forall p e p', m p = (Throw e, p') -> thrown_by_driver e = false.

(** ** Barcodes *)

(** An optional argument that is a string when it is given. *)
Definition optional_string (v : value) : bool :=
  match v with
  | VUndef | VNull | VStr _ => true
  | _ => false
  end.

(** A value whose conversion to a property key or to a number returns: any
    value but an object in which an own property hides [toString]. *)
Definition convertible (v : value) : bool :=
  match v with
  | VObj props => negb (own_property props "toString")
  | _ => true
  end.

(** The options that [barcode] resolves when its first optional argument
    is an object. *)
Definition legacy_options (optionsOrLegacy : list value) : BarcodeOptions :=
  {| b_width := arg optionsOrLegacy 0;
     b_height := arg optionsOrLegacy 1;
     b_position := or_else (arg optionsOrLegacy 2) (VStr (str "blw"));
     b_font := or_else (arg optionsOrLegacy 3) (VStr (str "a"));
     b_includeParity := VBool true |}.

(** ** The bytes of a barcode *)

(** The name of the symbology in the command table. *)
Definition normalizedType (ty : jstring) : jstring :=
  let upper := utils.upperCase ty in
  if bool_decide (upper = str "UPC-A") then str "UPC_A"
  else if bool_decide (upper = str "UPC-E") then str "UPC_E"
  else upper.

(** The string of a value that is a string. *)
Definition string_of (v : value) : jstring :=
  match v with
  | VStr s => s
  | _ => []
  end.

(** What [barcode] appends, for a session of the qsprinter model ([qs])
    or of another one: the mode command of the qsprinter; the width,
    unless qsprinter; the height; the font, unless qsprinter; the position
    of the text; the symbology; the payload, between its length prefix
    (CODE128 and CODE93) and its checksum digit (EAN13 and EAN8), closed
    by NUL; the mode command of the qsprinter. *)
Definition barcode_stream (pf : Platform) (cmd : Commands) (qs : bool)
    (code ty : jstring) (optionsOrLegacy : list value) : list N :=
  let o := legacy_options optionsOrLegacy in
  (if qs then utf8_encode (QS_BARCODE_MODE_ON cmd) else [])
    ++ (if qs then []
        else utf8_encode (default (BARCODE_WIDTH_DEFAULT cmd)
                            (BARCODE_WIDTH cmd
                               (default [] (ToPropertyKey (b_width o))))))
    ++ utf8_encode (if default false (height_in_range pf (b_height o))
                    then BARCODE_HEIGHT cmd (b_height o)
                    else if qs then QS_BARCODE_HEIGHT_DEFAULT cmd
                         else BARCODE_HEIGHT_DEFAULT cmd)
    ++ (if qs then []
        else entry_bytes (BARCODE_FORMAT cmd
                            (str "BARCODE_FONT_"
                               ++ utils.upperCase (string_of (b_font o)))))
    ++ entry_bytes (BARCODE_FORMAT cmd
                      (str "BARCODE_TXT_" ++ utils.upperCase (string_of (b_position o))))
    ++ entry_bytes (BARCODE_FORMAT cmd (str "BARCODE_" ++ normalizedType ty))
    ++ utf8_encode
         ((if bool_decide (ty = str "CODE128") || bool_decide (ty = str "CODE93")
           then utils.codeLength pf code else [])
            ++ code
            ++ (if bool_decide (ty = str "EAN13") || bool_decide (ty = str "EAN8")
                then utils.getParityBit code else [])
            ++ [0%N])
    ++ (if qs then utf8_encode (QS_BARCODE_MODE_OFF cmd) else []).

(** ** Sessions that only grow *)

(** [appender m]: whatever [m] does, the session it leaves is the one it
    was given with bytes appended to the output stream. *)
Definition appender {A : Type} (m : M A) : Prop :=
  forall p, exists bs, snd (m p) = with_buffer p (buffer p ++ bs).

(** ** The qsprinter 2D code *)

(** The five commands of the qsprinter 2D code: pixel size, version,
    level, save to the buffer (framing and content), print from the
    buffer (framing only). *)
Definition qs_qrcode_stream (pf : Platform) (cmd : Commands) (content : jstring)
    (version level size : value) : list N :=
  let dataRaw := iconv_encode pf content (str "utf8") in
  let frame := u16le (Z.of_nat (length dataRaw) + QS_LEN_OFFSET cmd) in
  (utf8_encode (QS_PIXEL_SIZE_CMD cmd)
     ++ [Z.to_N (clamp size (QS_PIXEL_SIZE_DEFAULT cmd)
                   (QS_PIXEL_SIZE_MIN cmd) (QS_PIXEL_SIZE_MAX cmd))])
    ++ (utf8_encode (QS_VERSION_CMD cmd)
          ++ [Z.to_N (clamp version (QS_VERSION_DEFAULT cmd)
                        (QS_VERSION_MIN cmd) (QS_VERSION_MAX cmd))])
    ++ (utf8_encode (QS_LEVEL_CMD cmd)
          ++ entry_bytes
               (QS_LEVEL_OPTIONS cmd
                  (utils.upperCase
                     (match or_else level (VStr (str "L")) with
                      | VStr s => s
                      | _ => []
                      end))))
    ++ (utf8_encode (QS_SAVEBUF_CMD_P1 cmd) ++ frame
          ++ utf8_encode (QS_SAVEBUF_CMD_P2 cmd) ++ dataRaw)
    ++ (utf8_encode (QS_PRINTBUF_CMD_P1 cmd) ++ frame
          ++ utf8_encode (QS_PRINTBUF_CMD_P2 cmd)).

(** ** Table layout *)

(** A run that needs more fuel whatever fuel it is given: the call does
    not return. *)
Definition never_returns {A : Type} (run : nat -> option A) : Prop :=
  forall fuel, run fuel = None.

(** The width that the loop gives to a cell: an override of the cell, or
    the width in force before it. *)
Definition cell_width (baseWidth : Z) (width : positive) (obj : Cell) (rs : RowState) : Q :=
  match cwidth obj with
  | Some q => inject_Z baseWidth * q
  | None =>
      match cols obj with
      | Some c => if c =? 0 then cellWidth rs else inject_Z c / inject_Z (Z.pos width)
      | None => cellWidth rs
      end
  end.

(** The text does not fit in the width. *)
Definition overflows (cw : Q) (obj : Cell) : bool :=
  Qlt_bool cw (inject_Z (utils.textLength (text obj))).

(** A cell whose own width, if it has one, is at least two columns. *)
Definition cell_wide_enough (baseWidth : Z) (width : positive) (obj : Cell) : Prop :=
  forall cw, (2 <= cw)%Q ->
    (2 <= cell_width baseWidth width obj
            {| cellWidth := cw; leftoverSpace := 0; lineStr := [];
               secondLineEnabled := false; secondLine := []; heap := ∅ |})%Q.

Definition store_wide_enough (baseWidth : Z) (width : positive) (store : gmap nat Cell) : Prop :=
  forall l obj, store !! l = Some obj -> cell_wide_enough baseWidth width obj.

(** ** Hexadecimal dumps *)





(** ** The bytes of a projection *)

(** An entry of a projection that is there (no hole of the array) and is
    a byte. *)
Definition is_byte (o : option Z) : Prop := exists v, o = Some v /\ 0 <= v <= 255.

(** The mode that names the header of [raster]: three spellings stand for
    the double width and height. *)
Definition raster_mode (mode : option jstring) : jstring :=
  let m := utils.upperCase (default (str "NORMAL") mode) in
  if bool_decide (m = str "DHDW") || bool_decide (m = str "DWH")
     || bool_decide (m = str "DHW")
  then str "DWDH" else m.

(** What [raster] appends: the header of the mode, the number of bytes of
    a row and the number of rows on 16 bits each, and the rows. *)
Definition raster_stream (cmd : Commands) (img : PrintImage) (mode : option jstring) : list N :=
  entry_bytes (GSV0_FORMAT cmd (str "GSV0_" ++ raster_mode mode))
    ++ u16le (Z.of_nat ((s_width (size img) + 7) / 8))
    ++ u16le (Z.of_nat (s_height (size img)))
    ++ line_bytes (flat_map (raster_row img) (seq 0 (s_height (size img)))).

(** The test of the constructor of the image on the pixel [k] of a source
    with [c] channels: alpha is not 0, and red, green and blue are above
    200. *)
Definition marked (px : Pixels) (c k : nat) : bool :=
  ne0 (px_data px !! (k * c + 3)%nat)
  && gt200 (px_data px !! (k * c)%nat)
  && gt200 (px_data px !! (k * c + 1)%nat)
  && gt200 (px_data px !! (k * c + 2)%nat).

(** ** The 2D code of the other models *)

(** What [writeUInt8] stores for a value: its number, 0 for NaN; the
    writer accepts the value when it converts to a number and that number
    is a byte. *)
Definition uint8_byte (pf : Platform) (v : value) : N :=
  match ToNumber pf v with
  | Some (Some n) => Z.to_N n
  | _ => 0%N
  end.

Definition uint8_ok (pf : Platform) (v : value) : Prop :=
  match ToNumber pf v with
  | Some (Some n) => 0 <= n <= 255
  | Some None => True
  | None => False
  end.

(** The key of a level, [L] when none is given. *)
Definition level_key (level : value) : jstring :=
  utils.upperCase (match or_else level (VStr (str "L")) with
                   | VStr s => s
                   | _ => []
                   end).

(** The commands that come before the length of the content. *)
Definition qrcode_preamble (pf : Platform) (cmd : Commands)
    (version level size : value) : list N :=
  utf8_encode (TYPE_QR cmd)
    ++ utf8_encode (CODE2D cmd)
    ++ [uint8_byte pf (or_else version (VNum 3))]
    ++ entry_bytes (CODE2D_FORMAT cmd (str "QR_LEVEL_" ++ level_key level))
    ++ [uint8_byte pf (or_else size (VNum 6))].

(** What [qrcode] appends for a model other than qsprinter: the preamble,
    the number of UTF-16 code units of the content on 16 bits, and the
    content in UTF-8. *)
Definition qrcode_stream (pf : Platform) (cmd : Commands) (content : jstring)
    (version level size : value) : list N :=
  qrcode_preamble pf cmd version level size
    ++ u16le (Z.of_nat (length content))
    ++ utf8_encode content.

(** ** Chains of calls *)

(** A call against the session. ([tableCustom], which also changes the
    cells it is given, is treated apart.) *)
Module Call.

Inductive t :=
| SetCharacterCodeTable (codeTable : value)
| MarginBottom (n : value)
| MarginLeft (n : value)
| MarginRight (n : value)
| Print (content : jstring)
| Println (content : jstring)
| NewLine
| Text (content : jstring) (enc : option jstring)
| DrawLine (character : option jstring)
| Table (data : list value) (enc : option jstring)
| PureText (content : jstring) (enc : option jstring)
| Encode (enc : jstring)
| Feed (n : option Z)
| Control (ctrl : value)
| Align (a : value)
| Font (family : value)
| Style (boldOrString italic underline : value)
| Size (w h : Z)
| Spacing (n : value)
| LineSpace (n : value)
| Barcode (code : jstring) (type : value) (optionsOrLegacy : list value)
| Qrcode (content : jstring) (version level size : value)
| Image (img : image_arg) (density : option jstring)
| Raster (img : image_arg) (mode : option jstring)
| Cashdraw (pin : value)
| Beep (n t : value)
| Cut (partial : value) (lines : option Z)
| Color (c : value)
| SetReverseColors (reverse : value)
| Raw (data : raw_arg)
| StarFullCut
| Emphasize
| CancelEmphasize
| Model (m : option jstring).

End Call.

Abbreviation call := Call.t (only parsing).

Definition run (pf : Platform) (cmd : Commands) (more : MoreCommands) (c : call) : M unit :=
  match c with
  | Call.SetCharacterCodeTable codeTable => Session.setCharacterCodeTable pf more codeTable
  | Call.MarginBottom n => Session.marginBottom pf more n
  | Call.MarginLeft n => Session.marginLeft pf more n
  | Call.MarginRight n => Session.marginRight pf more n
  | Call.Print content => Session.print content
  | Call.Println content => Session.println cmd content
  | Call.NewLine => Session.newLine cmd
  | Call.Text content enc => Session.text pf cmd content enc
  | Call.DrawLine character => Session.drawLine cmd character
  | Call.Table data enc => Session.table pf cmd data enc
  | Call.PureText content enc => Session.pureText pf content enc
  | Call.Encode enc => Session.encode enc
  | Call.Feed n => Session.feed cmd n
  | Call.Control ctrl => Session.control more ctrl
  | Call.Align a => Session.align more a
  | Call.Font family => Session.font more family
  | Call.Style boldOrString italic underline => Session.style cmd boldOrString italic underline
  | Call.Size w h => Session.size cmd w h
  | Call.Spacing n => Session.spacing pf more n
  | Call.LineSpace n => lineSpace pf cmd n
  | Call.Barcode code type optionsOrLegacy => barcode pf cmd code type optionsOrLegacy
  | Call.Qrcode content version level size => qrcode pf cmd content version level size
  | Call.Image img density => image pf cmd img density
  | Call.Raster img mode => raster cmd img mode
  | Call.Cashdraw pin => Session.cashdraw more pin
  | Call.Beep n t => Session.beep pf more n t
  | Call.Cut partial lines => Session.cut cmd more partial lines
  | Call.Color c => Session.color more c
  | Call.SetReverseColors reverse => Session.setReverseColors more reverse
  | Call.Raw data => Session.raw data
  | Call.StarFullCut => Session.starFullCut more
  | Call.Emphasize => Session.emphasize more
  | Call.CancelEmphasize => Session.cancelEmphasize more
  | Call.Model m => set_model m
  end.

(** The calls that set a field of the session. *)
Definition sets_encoding (c : call) : bool :=
  match c with Call.Encode _ => true | _ => false end.

Definition sets_width (c : call) : bool :=
  match c with Call.Font _ => true | _ => false end.

Definition sets_model (c : call) : bool :=
  match c with Call.Model _ => true | _ => false end.

(** A chain of calls, which ends at the first call that throws. *)
Definition chain (pf : Platform) (cmd : Commands) (more : MoreCommands)
    (calls : list call) : M unit :=
  forEach calls (run pf cmd more).

(** ** Lines of cells *)

(** The quotient rounded up. *)
Definition ceil_div (a b : Z) : Z := - (- a / b).

(** The width that [table] gives to a cell of text [s], for cells of
    [cw] columns: the width of the text when it is the longer. *)
Definition cells_width (cw : Z) (data : list jstring) : Z :=
  foldr (fun s acc => Z.max (Z.of_nat (length s)) cw + acc) 0 data.

(** The line of [table] for cells of [cw] columns: the text of each item,
    whole, followed by the spaces that bring it to [cw] columns, by none
    when the text has [cw] columns or more. *)
Definition padded_cell (cw : Z) (s : jstring) : jstring :=
  s ++ replicate (Z.to_nat (cw - Z.of_nat (length s))) 32%N.

Definition padded_cells (cw : Z) (data : list jstring) : jstring :=
  flat_map (padded_cell cw) data.

(** A chain to run: centred text, a barcode whose payload is too short
    (the call throws), and a cut that is not reached. *)
Definition sample_calls : list call :=
  [Call.Align (VStr (str "ct")); Call.Println (str "hello");
   Call.Barcode (str "123") (VStr (str "EAN8")) [VObj []];
   Call.Cut VUndef None].

(** ** Cells of a custom table *)

(** The alignment of a cell as the pass reads it: [left] when the cell
    gives none. *)
Definition cell_align (c : Cell) : jstring :=
  utils.upperCase (match align c with
                   | Some ((_ :: _) as a) => a
                   | _ => str "left"
                   end).

(** A cell with no width of its own ([width] absent, [cols] absent or 0)
    and no style. *)
Definition plain_cell (c : Cell) : Prop :=
  cwidth c = None
  /\ (cols c = None \/ cols c = Some 0)
  /\ (style c = None \/ style c = Some []).

(** Two cells that differ by their text at most. *)
Definition same_but_text (c c' : Cell) : Prop :=
  align c' = align c /\ style c' = style c
  /\ cwidth c' = cwidth c /\ cols c' = cols c.

(** A centred cell that comes out one column short: the space left by
    its text is even and not zero. *)
Definition comes_short (cwz : Z) (c : Cell) : bool :=
  let slack := cwz - utils.textLength (text c) in
  (0 <? slack) && Z.even slack.

(** The cells that the references of a row stand for, in the order of the
    row. *)
Definition row_cells (data : list nat) (store : gmap nat Cell) : list Cell :=
  omap (fun l => store !! l) data.

(** What a cell that is not centred puts on the line, in a cell of [cwz]
    columns with [extra] columns more: its text, and the spaces that fill
    the columns, after the text, or before it when the cell is aligned to
    the right. *)
Definition side_piece (cwz extra : Z) (c : Cell) : jstring :=
  let spaces := replicate (Z.to_nat (cwz - utils.textLength (text c) + extra)) 32%N in
  if bool_decide (cell_align c = str "RIGHT") then spaces ++ text c
  else text c ++ spaces.

(** A line of cells that are not centred: the first cell has the columns
    [leftover] that the division leaves over. *)
Definition side_layout (cwz leftover : Z) (cells : list Cell) : jstring :=
  match cells with
  | [] => []
  | c :: cs => side_piece cwz leftover c ++ flat_map (side_piece cwz 0) cs
  end.

(** What a centred cell puts on the line: half of the free columns,
    rounded up, in spaces; its text; one space less than before it. *)
Definition centre_piece (cwz : Z) (c : Cell) : jstring :=
  let spaces := ceil_div (cwz - utils.textLength (text c)) 2 in
  replicate (Z.to_nat spaces) 32%N ++ text c ++ replicate (Z.to_nat (spaces - 1)) 32%N.

(** The cells of a row are plain cells of the store, aligned as [centred]
    says, whose texts fit in [cwz] columns. *)
Definition row_fits (centred : bool) (cwz : Z) (data : list nat)
    (store : gmap nat Cell) : Prop :=
  forall l, l ∈ data ->
    exists c, store !! l = Some c
              /\ plain_cell c
              /\ (if centred then cell_align c = str "CENTER"
                  else cell_align c <> str "CENTER")
              /\ utils.textLength (text c) <= cwz.

(** A row of three plain cells: left by default, right, left. *)
Definition sample_row : gmap nat Cell :=
  <[0%nat := Sample.cell (str "tea")]>
    (<[1%nat := {| text := str "2.50"; align := Some (str "right"); style := None;
                   cwidth := None; cols := None |}]>
       {[ 2%nat := Sample.cell [0x4E2D%N] ]}).

(** A row of two centred cells, three and four columns of text. *)
Definition centred_row : gmap nat Cell :=
  <[0%nat := {| text := str "abc"; align := Some (str "center"); style := None;
                cwidth := None; cols := None |}]>
    {[ 1%nat := {| text := str "abcd"; align := Some (str "CENTER"); style := None;
                   cwidth := None; cols := None |} ]}.

(** A row of one cell whose text is longer than a line of 16 columns. *)
Definition long_row : gmap nat Cell :=
  {[ 0%nat := Sample.cell (str "hello world, this is long") ]}.

(** * Properties *)

(** ** Loops *)

Lemma for_loop_S {S : Type} (n : nat) (body : nat -> S -> S) (s : S) :
  for_loop (Datatypes.S n) body s = body n (for_loop n body s).
Proof.
  unfold for_loop. rewrite seq_S, foldl_snoc. reflexivity.
Qed.

(** ** The checksum digit (utils.js, [getParityBit]) *)

Lemma pow3_parity (counter : nat) :
  utils.pow3 ((counter + 1) mod 2) = if Nat.odd (counter + 1) then 3 else 1.
Proof.
  unfold utils.pow3.
  destruct (Nat.odd (counter + 1)) eqn:Hodd.
  - apply Nat.odd_spec in Hodd. destruct Hodd as [k Hk].
    replace ((counter + 1) mod 2)%nat with 1%nat; [reflexivity|].
    rewrite Hk. symmetry.
    rewrite Nat.add_comm, Nat.mul_comm, Nat.Div0.mod_add. reflexivity.
  - assert (Heven : Nat.even (counter + 1) = true).
    { rewrite <- Nat.negb_odd, Hodd. reflexivity. }
    apply Nat.even_spec in Heven. destruct Heven as [k Hk].
    replace ((counter + 1) mod 2)%nat with 0%nat; [reflexivity|].
    rewrite Hk. symmetry.
    rewrite Nat.mul_comm. apply Nat.Div0.mod_mul.
Qed.

Lemma parity_fold (pre l : jstring) (a : Z) :
  Forall is_digit l ->
  foldl (fun parity counter =>
           p ← parity;
           d ← utils.parseInt1 ((pre ++ l) !! counter);
           Some (p + d * utils.pow3 ((counter + 1) mod 2)))
        (Some a) (seq (length pre) (length l))
  = Some (a + weighted_sum_from (length pre + 1) l).
Proof.
  intros Hl. revert pre a.
  induction Hl as [|c l Hc _ IH]; intros pre a.
  - simpl. f_equal. lia.
  - cbn [length seq foldl].
    rewrite lookup_app_r by lia. rewrite Nat.sub_diag.
    cbn [lookup list_lookup].
    unfold utils.parseInt1 at 2.
    destruct Hc as [Hlo Hhi].
    apply N.leb_le in Hlo. apply N.leb_le in Hhi.
    rewrite Hlo, Hhi. cbn [andb mbind option_bind].
    specialize (IH (pre ++ [c]) (a + (Z.of_N c - 48) * utils.pow3 ((length pre + 1) mod 2))).
    rewrite <- app_assoc in IH. cbn [app] in IH.
    rewrite length_app in IH. cbn [length] in IH.
    replace (Datatypes.S (length pre)) with (length pre + 1)%nat by lia.
    rewrite IH. f_equal.
    rewrite pow3_parity. cbn [weighted_sum_from].
    replace (Datatypes.S (length pre + 1)) with (length pre + 1 + 1)%nat by lia.
    unfold digit_value. lia.
Qed.

Lemma parity_loop_digits (l : jstring) :
  Forall is_digit l -> utils.parity_loop l = Some (weighted_sum_from 1 l).
Proof.
  intros Hl. unfold utils.parity_loop, for_loop.
  pose proof (parity_fold [] l 0 Hl) as H. simpl in H. exact H.
Qed.

Lemma Number_toString_digit (n : N) :
  (n < 10)%N -> Number_toString 10 n = [(48 + n)%N].
Proof.
  intros Hn.
  destruct n as [|p]; [reflexivity|].
  do 4 (destruct p as [p|p|]; try reflexivity; try lia).
Qed.

(** C3. For every non-empty string of decimal digits, [getParityBit]
    returns the one-character string of a decimal digit [d] with
    [0 <= d <= 9], and [d] is [(10 - (S mod 10)) mod 10] where [S] sums
    the digits of the reversed string, each times 3 when its 1-indexed
    position there is odd and times 1 when it is even. *)
Theorem getParityBit_checksum (s : jstring) :
  s <> [] ->
  Forall is_digit s ->
  0 <= checksum s <= 9 /\
  utils.getParityBit s = [(48 + Z.to_N (checksum s))%N].
Proof.
  intros _ Hs.
  assert (Hrange : 0 <= checksum s <= 9).
  { unfold checksum.
    pose proof (Z.mod_pos_bound (10 - weighted_sum s mod 10) 10 ltac:(lia)). lia. }
  split; [exact Hrange|].
  unfold utils.getParityBit.
  rewrite parity_loop_digits.
  - fold (weighted_sum s). fold (checksum s).
    apply Number_toString_digit. lia.
  - rewrite reverse_Permutation. exact Hs.
Qed.

Lemma getParityBit_checksum_witness :
  str "400638133393" <> [] /\
  Forall is_digit (str "400638133393") /\
  utils.getParityBit (str "400638133393") = str "1".
Proof.
  assert (Hne : str "400638133393" <> []) by discriminate.
  assert (Hd : Forall is_digit (str "400638133393")).
  { repeat constructor; unfold is_digit; simpl; lia. }
  split; [exact Hne|]. split; [exact Hd|].
  exact (proj2 (getParityBit_checksum (str "400638133393") Hne Hd)).
Defined.

(** ** Bit packing (image.js, [toBitmap] and [toRaster]) *)

(** Linear arithmetic with division and remainder by constants. *)
Ltac dlia := zify; Z.div_mod_to_equations; lia.

Lemma for_loop_ext {S : Type} (n : nat) (f g : nat -> S -> S) (s : S) :
  (forall i acc, (i < n)%nat -> f i acc = g i acc) ->
  for_loop n f s = for_loop n g s.
Proof.
  intros H. induction n as [|n IH]; [reflexivity|].
  rewrite !for_loop_S. rewrite IH by (intros; apply H; lia).
  apply H. lia.
Qed.

Lemma for_loop_add {S : Type} (n m : nat) (body : nat -> S -> S) (s : S) :
  for_loop (n + m) body s
  = for_loop m (fun t acc => body (n + t)%nat acc) (for_loop n body s).
Proof.
  induction m as [|m IH].
  - rewrite Nat.add_0_r. reflexivity.
  - replace (n + Datatypes.S m)%nat with (Datatypes.S (n + m)) by lia.
    rewrite !for_loop_S, IH. reflexivity.
Qed.

(** A loop of [n * m] rounds is [n] blocks of [m] rounds. *)
Lemma for_loop_mul {S : Type} (n m : nat) (body : nat -> S -> S) (s : S) :
  for_loop (n * m) body s
  = for_loop n (fun i acc => for_loop m (fun t acc => body (i * m + t)%nat acc) acc) s.
Proof.
  induction n as [|n IH]; [reflexivity|].
  rewrite for_loop_S, <- IH.
  replace (Datatypes.S n * m)%nat with (n * m + m)%nat by lia.
  apply for_loop_add.
Qed.

(** A loop that appends the chunk [chunk i] in round [i]. *)
Lemma for_loop_append {A : Type} (n : nat) (body : nat -> list A -> list A)
    (chunk : nat -> list A) (acc0 : list A) :
  (forall i, (i < n)%nat ->
     body i (acc0 ++ flat_map chunk (seq 0 i))
     = (acc0 ++ flat_map chunk (seq 0 i)) ++ chunk i) ->
  for_loop n body acc0 = acc0 ++ flat_map chunk (seq 0 n).
Proof.
  intros H. induction n as [|n IH].
  - simpl. rewrite app_nil_r. reflexivity.
  - rewrite for_loop_S, IH by (intros; apply H; lia).
    rewrite H by lia. rewrite seq_S, flat_map_app. simpl.
    rewrite app_nil_r, app_assoc. reflexivity.
Qed.

Lemma length_flat_map_const {A : Type} (chunk : nat -> list A) (m n : nat) :
  (forall i, (i < n)%nat -> length (chunk i) = m) ->
  length (flat_map chunk (seq 0 n)) = (n * m)%nat.
Proof.
  intros H. induction n as [|n IH]; [reflexivity|].
  rewrite seq_S, flat_map_app, length_app, IH by (intros; apply H; lia).
  simpl. rewrite app_nil_r, H by lia. lia.
Qed.

Lemma lookup_flat_map_const {A : Type} (chunk : nat -> list A) (m n i j : nat) :
  (forall i, (i < n)%nat -> length (chunk i) = m) ->
  (i < n)%nat -> (j < m)%nat ->
  flat_map chunk (seq 0 n) !! (i * m + j)%nat = chunk i !! j.
Proof.
  intros H. revert i. induction n as [|n IH]; intros i Hi Hj; [lia|].
  rewrite seq_S, flat_map_app. simpl. rewrite app_nil_r.
  assert (Hlen : length (flat_map chunk (seq 0 n)) = (n * m)%nat).
  { apply length_flat_map_const. intros; apply H; lia. }
  destruct (decide (i = n)) as [->|Hne].
  - rewrite lookup_app_r by lia. rewrite Hlen. f_equal. lia.
  - rewrite lookup_app_l by (rewrite Hlen; nia).
    apply IH; [intros; apply H; lia | lia | exact Hj].
Qed.

(** *** Arrays *)

Lemma array_get_end {A : Type} (a : list (option A)) :
  array_get a (length a) = None.
Proof.
  unfold array_get. rewrite lookup_ge_None_2 by lia. reflexivity.
Qed.

Lemma array_get_last {A : Type} (a : list (option A)) (v : A) :
  array_get (a ++ [Some v]) (length a) = Some v.
Proof.
  unfold array_get. rewrite lookup_app_r by lia.
  rewrite Nat.sub_diag. reflexivity.
Qed.

Lemma array_set_end {A : Type} (a : list (option A)) (v : A) :
  array_set a (length a) v = a ++ [Some v].
Proof.
  unfold array_set. rewrite Nat.ltb_irrefl, Nat.sub_diag. reflexivity.
Qed.

Lemma array_set_last {A : Type} (a : list (option A)) (v w : A) :
  array_set (a ++ [Some v]) (length a) w = a ++ [Some w].
Proof.
  unfold array_set. rewrite length_app. simpl.
  replace (length a <? length a + 1)%nat with true
    by (symmetry; apply Nat.ltb_lt; lia).
  rewrite insert_app_r_alt by lia. rewrite Nat.sub_diag. reflexivity.
Qed.

(** After [array_init0] the entry is a number: [array_add] never meets
    [undefined]. *)
Lemma array_init0_defined (a : list (option Z)) (i : nat) :
  is_Some (array_get (array_init0 a i) i).
Proof.
  unfold array_init0. destruct (array_get a i) eqn:Hget.
  - rewrite Hget. eauto.
  - unfold array_set, array_get.
    destruct (i <? length a)%nat eqn:Hlt.
    + apply Nat.ltb_lt in Hlt. rewrite list_lookup_insert_eq by lia. simpl. eauto.
    + apply Nat.ltb_ge in Hlt.
      rewrite lookup_app_r by lia. rewrite lookup_app_r by (rewrite length_replicate; lia).
      rewrite length_replicate. replace (i - length a - (i - length a))%nat with 0%nat by lia.
      simpl. eauto.
Qed.

Lemma pack_round_first (ld : list (option Z)) (inked : bool) (t : nat) :
  pack_round (length ld) inked t ld = ld ++ [Some (0 + bit_of t inked)].
Proof.
  unfold pack_round, array_init0, array_add, bit_of.
  rewrite array_get_end, array_set_end.
  destruct inked.
  - rewrite array_get_last, array_set_last. reflexivity.
  - reflexivity.
Qed.

Lemma pack_round_next (ld : list (option Z)) (v : Z) (inked : bool) (t : nat) :
  pack_round (length ld) inked t (ld ++ [Some v])
  = ld ++ [Some (v + bit_of t inked)].
Proof.
  unfold pack_round, array_init0, array_add, bit_of.
  rewrite array_get_last.
  destruct inked.
  - rewrite array_get_last, array_set_last. reflexivity.
  - rewrite Z.add_0_r. reflexivity.
Qed.

(** Eight rounds on a fresh byte append that byte. *)
Lemma pack_byte (ld : list (option Z)) (f : nat -> bool) :
  for_loop 8 (fun t acc => pack_round (length ld) (f t) t acc) ld
  = ld ++ [Some (bits_value f)].
Proof.
  unfold for_loop. cbn [seq foldl].
  rewrite pack_round_first. rewrite !pack_round_next. reflexivity.
Qed.

(** Reading a bit back. *)
Lemma bits_value_land (f : nat -> bool) (t : nat) :
  (t < 8)%nat ->
  negb (Z.land (bits_value f) (Z.shiftr 0x80 (Z.of_nat t)) =? 0) = f t.
Proof.
  intros Ht. unfold bits_value.
  do 8 (destruct t as [|t]; [
    destruct (f 0%nat), (f 1%nat), (f 2%nat), (f 3%nat),
             (f 4%nat), (f 5%nat), (f 6%nat), (f 7%nat); reflexivity |]).
  lia.
Qed.

Lemma shiftr3 (j t : nat) : (t < 8)%nat -> Nat.shiftr (j * 8 + t) 3 = j.
Proof.
  intros Ht. rewrite Nat.shiftr_div_pow2. change (2 ^ 3)%nat with 8%nat. dlia.
Qed.

Lemma land7 (j t : nat) :
  (t < 8)%nat -> Z.land (Z.of_nat (j * 8 + t)) 0x7 = Z.of_nat t.
Proof.
  intros Ht. change 7 with (Z.ones 3). rewrite Z.land_ones by lia.
  change (2 ^ 3) with 8. dlia.
Qed.

(** *** What the two projections contain *)

Lemma length_bitmap_column img density y x :
  length (bitmap_column img density y x) = (density / 8)%nat.
Proof.
  unfold bitmap_column.
  rewrite (length_flat_map_const _ 1) by reflexivity. lia.
Qed.

Lemma length_bitmap_line img density y :
  length (bitmap_line img density y) = (s_width (size img) * (density / 8))%nat.
Proof.
  unfold bitmap_line.
  apply length_flat_map_const. intros. apply length_bitmap_column.
Qed.

Lemma length_raster_row img y :
  length (raster_row img y) = ((s_width (size img) + 7) / 8)%nat.
Proof.
  unfold raster_row.
  rewrite (length_flat_map_const _ 1) by reflexivity. lia.
Qed.

(** The lines of [toBitmap]. *)
Lemma toBitmap_data (img : PrintImage) (density : nat) :
  (density mod 8 = 0)%nat ->
  bm_data (toBitmap img density)
  = flat_map (fun y => [Some (bitmap_line img density y)])
      (seq 0 ((s_height (size img) + density - 1) / density)).
Proof.
  intros Hd. unfold toBitmap. cbn [bm_data].
  rewrite <- (app_nil_l (flat_map _ _)).
  apply for_loop_append. intros y _.
  rewrite app_nil_l.
  replace y with (length (flat_map (fun y => [Some (bitmap_line img density y)]) (seq 0 y))) at 2
    by (rewrite (length_flat_map_const _ 1) by reflexivity; lia).
  rewrite array_set_end. f_equal. f_equal. f_equal.
  (* the line of block [y] *)
  unfold bitmap_line.
  rewrite <- (app_nil_l (flat_map _ _)).
  apply for_loop_append. intros x _.
  rewrite app_nil_l.
  set (ld0 := flat_map (bitmap_column img density y) (seq 0 x)).
  assert (Hlen : length ld0 = (x * (density / 8))%nat).
  { apply length_flat_map_const. intros. apply length_bitmap_column. }
  (* the column [x]: [density / 8] bytes of eight rounds each *)
  replace density with (density / 8 * 8)%nat at 1 by dlia.
  rewrite for_loop_mul.
  unfold bitmap_column.
  apply for_loop_append. intros j _.
  set (acc := ld0 ++ flat_map _ (seq 0 j)).
  assert (Hacc : length acc = (x * (density / 8) + j)%nat).
  { unfold acc. rewrite length_app, Hlen.
    rewrite (length_flat_map_const _ 1) by reflexivity. lia. }
  unfold bitmap_byte.
  rewrite <- (pack_byte acc (fun t => bitmap_src img density y x (j * 8 + t))).
  apply for_loop_ext. intros t ld Ht.
  rewrite shiftr3, land7 by exact Ht. rewrite Hacc.
  unfold pack_round, bitmap_src, mask.
  destruct (y * density + (j * 8 + t) <? s_height (size img))%nat; reflexivity.
Qed.

(** The bytes of [toRaster]. *)
Lemma toRaster_data (img : PrintImage) :
  r_data (toRaster img)
  = flat_map (raster_row img) (seq 0 (s_height (size img))).
Proof.
  unfold toRaster. cbn [r_data].
  rewrite <- (app_nil_l (flat_map _ _)).
  apply for_loop_append. intros y _.
  rewrite app_nil_l.
  set (res0 := flat_map (raster_row img) (seq 0 y)).
  assert (Hlen : length res0 = (y * ((s_width (size img) + 7) / 8))%nat).
  { apply length_flat_map_const. intros. apply length_raster_row. }
  unfold raster_row.
  apply for_loop_append. intros x _.
  set (acc := res0 ++ flat_map _ (seq 0 x)).
  assert (Hacc : length acc = (y * ((s_width (size img) + 7) / 8) + x)%nat).
  { unfold acc. rewrite length_app, Hlen.
    rewrite (length_flat_map_const _ 1) by reflexivity. lia. }
  unfold raster_byte.
  rewrite <- (pack_byte acc (raster_src img y x)).
  apply for_loop_ext. intros t res Ht.
  pose proof (land7 0 t Ht) as Hland. simpl in Hland. rewrite Hland, Hacc.
  unfold pack_round, raster_src, mask.
  destruct (x * 8 + t <? s_width (size img))%nat; reflexivity.
Qed.

(** *** Decoding, as the specification words it *)

Lemma bitmap_bit_spec (img : PrintImage) (density y x b : nat) :
  (density mod 8 = 0)%nat -> (0 < density)%nat ->
  (x < s_width (size img))%nat -> (b < density)%nat ->
  (y < (s_height (size img) + density - 1) / density)%nat ->
  bitmap_bit (toBitmap img density) y x b = Some (bitmap_src img density y x b).
Proof.
  intros Hd Hpos Hx Hb Hy. unfold bitmap_bit, array_get.
  rewrite toBitmap_data by exact Hd.
  replace y with (y * 1 + 0)%nat at 1 by lia.
  rewrite (lookup_flat_map_const _ 1) by (reflexivity || lia).
  cbn [lookup list_lookup mjoin option_join mbind option_bind].
  unfold bitmap_line.
  replace (bm_density (toBitmap img density)) with density by reflexivity.
  rewrite (lookup_flat_map_const _ (density / 8))
    by (try (intros; apply length_bitmap_column); try exact Hx; dlia).
  unfold bitmap_column.
  replace (b / 8)%nat with (b / 8 * 1 + 0)%nat at 1 by lia.
  rewrite (lookup_flat_map_const _ 1) by (reflexivity || dlia).
  cbn [lookup list_lookup mjoin option_join mbind option_bind].
  f_equal. unfold bitmap_byte.
  rewrite bits_value_land by dlia.
  f_equal. dlia.
Qed.

Lemma raster_bit_spec (img : PrintImage) (y x b : nat) :
  (y < s_height (size img))%nat ->
  (x < (s_width (size img) + 7) / 8)%nat -> (b < 8)%nat ->
  raster_bit (toRaster img) y x b = Some (raster_src img y x b).
Proof.
  intros Hy Hx Hb. unfold raster_bit, array_get.
  rewrite toRaster_data.
  replace (r_width (toRaster img)) with ((s_width (size img) + 7) / 8)%nat
    by reflexivity.
  rewrite (lookup_flat_map_const _ ((s_width (size img) + 7) / 8))
    by (try (intros; apply length_raster_row); assumption).
  unfold raster_row.
  replace x with (x * 1 + 0)%nat at 1 by lia.
  rewrite (lookup_flat_map_const _ 1) by (reflexivity || lia).
  cbn [lookup list_lookup mjoin option_join mbind option_bind].
  f_equal. unfold raster_byte.
  apply bits_value_land. exact Hb.
Qed.

Lemma mask_lookup (img : PrintImage) (k : nat) :
  (0 < s_width (size img))%nat ->
  (k < length (data img))%nat ->
  data img !! k
  = Some (mask img (k / s_width (size img)) (k mod s_width (size img))).
Proof.
  intros Hw Hk. unfold mask, ink.
  replace (k / s_width (size img) * s_width (size img) + k mod s_width (size img))%nat
    with k by (pose proof (Nat.div_mod_eq k (s_width (size img))); lia).
  destruct (data img !! k) eqn:Hlook; [reflexivity|].
  apply lookup_ge_None in Hlook. lia.
Qed.

(** C6. For an ink mask of width [w > 0] and height [h > 0] and a
    density among 8, 16 and 24: in the output of [toBitmap], bit
    [0x80 >> (b mod 8)] of the byte at offset [x * (density / 8) + b div 8]
    of block [y] is the dot of row [y * density + b] and column [x] when
    that row is below [h], and is unset for the rows from [h] on; in the
    output of [toRaster], bit [0x80 >> b] of byte [y * ceil(w / 8) + x] is
    the dot of row [y] and column [x * 8 + b] when that column is below
    [w], and is unset otherwise; and the mask read back from either
    projection is the original mask. *)
Theorem bit_packing_roundtrip (img : PrintImage) (density : nat) :
  let w := s_width (size img) in
  let h := s_height (size img) in
  (0 < w)%nat -> (0 < h)%nat ->
  length (data img) = (h * w)%nat ->
  density ∈ [8; 16; 24]%nat ->
  (forall y x b,
      (x < w)%nat -> (b < density)%nat -> (y < (h + density - 1) / density)%nat ->
      bitmap_bit (toBitmap img density) y x b
      = Some (if (y * density + b <? h)%nat then mask img (y * density + b) x
              else false))
  /\ (forall y x b,
         (y < h)%nat -> (x < (w + 7) / 8)%nat -> (b < 8)%nat ->
         raster_bit (toRaster img) y x b
         = Some (if (x * 8 + b <? w)%nat then mask img y (x * 8 + b) else false))
  /\ mask_of_bitmap (toBitmap img density) w h = data img
  /\ mask_of_raster (toRaster img) w h = data img.
Proof.
  intros w h Hw Hh Hlen Hdens.
  assert (Hd : (density mod 8 = 0)%nat /\ (0 < density)%nat).
  { set_unfold. destruct Hdens as [->|[->|[->|[]]]]; split; (reflexivity || lia). }
  destruct Hd as [Hd Hpos].
  assert (Hbm : forall y x b,
             (x < w)%nat -> (b < density)%nat -> (y < (h + density - 1) / density)%nat ->
             bitmap_bit (toBitmap img density) y x b
             = Some (if (y * density + b <? h)%nat then mask img (y * density + b) x
                     else false)).
  { intros y x b Hx Hb Hy. rewrite bitmap_bit_spec by assumption.
    unfold bitmap_src. fold h. destruct (y * density + b <? h)%nat; reflexivity. }
  assert (Hra : forall y x b,
             (y < h)%nat -> (x < (w + 7) / 8)%nat -> (b < 8)%nat ->
             raster_bit (toRaster img) y x b
             = Some (if (x * 8 + b <? w)%nat then mask img y (x * 8 + b) else false)).
  { intros y x b Hy Hx Hb. rewrite raster_bit_spec by assumption.
    unfold raster_src. fold w. destruct (x * 8 + b <? w)%nat; reflexivity. }
  split; [exact Hbm|]. split; [exact Hra|].
  split.
  - apply list_eq. intros k. unfold mask_of_bitmap.
    rewrite list_lookup_fmap.
    destruct (decide (k < h * w)%nat) as [Hk|Hk].
    + rewrite lookup_seq_lt by exact Hk. cbn [fmap option_fmap option_map Nat.add].
      rewrite mask_lookup by (fold w; lia). fold w. f_equal.
      replace (bm_density (toBitmap img density)) with density by reflexivity.
      assert (Hrow : (k / w < h)%nat) by (apply Nat.Div0.div_lt_upper_bound; lia).
      rewrite Hbm.
      * cbn [default]. unfold id.
        replace (k / w / density * density + (k / w) mod density)%nat with (k / w)%nat
          by (pose proof (Nat.div_mod_eq (k / w) density); lia).
        apply Nat.ltb_lt in Hrow. rewrite Hrow. reflexivity.
      * apply Nat.mod_upper_bound. lia.
      * apply Nat.mod_upper_bound. lia.
      * apply Nat.Div0.div_lt_upper_bound.
        pose proof (Nat.div_mod_eq (h + density - 1) density).
        pose proof (Nat.mod_upper_bound (h + density - 1) density). nia.
    + rewrite lookup_seq_ge by lia. symmetry. apply lookup_ge_None. lia.
  - apply list_eq. intros k. unfold mask_of_raster.
    rewrite list_lookup_fmap.
    destruct (decide (k < h * w)%nat) as [Hk|Hk].
    + rewrite lookup_seq_lt by exact Hk. cbn [fmap option_fmap option_map Nat.add].
      rewrite mask_lookup by (fold w; lia). fold w. f_equal.
      assert (Hrow : (k / w < h)%nat) by (apply Nat.Div0.div_lt_upper_bound; lia).
      assert (Hcol : (k mod w < w)%nat) by (apply Nat.mod_upper_bound; lia).
      rewrite Hra by dlia.
      cbn [default]. unfold id.
      replace ((k mod w) / 8 * 8 + (k mod w) mod 8)%nat with (k mod w)%nat by dlia.
      apply Nat.ltb_lt in Hcol. rewrite Hcol. reflexivity.
    + rewrite lookup_seq_ge by lia. symmetry. apply lookup_ge_None. lia.
Qed.

(** ** Commands that only append *)

Lemma with_buffer_same (p : Printer) : with_buffer p (buffer p) = p.
Proof. destruct p. reflexivity. Qed.

Lemma with_buffer_twice (p : Printer) (a b : list N) :
  with_buffer (with_buffer p a) b = with_buffer p b.
Proof. reflexivity. Qed.

Lemma appends_ret : appends (ret tt) [].
Proof.
  intros p. unfold ret. rewrite app_nil_r, with_buffer_same. reflexivity.
Qed.

Lemma appends_bytes (bs : list N) : appends (append_bytes bs) bs.
Proof. intros p. reflexivity. Qed.

Lemma appends_write (s : jstring) : appends (write s) (utf8_encode s).
Proof. intros p. reflexivity. Qed.

Lemma appends_write_entry (o : option jstring) :
  appends (write_entry o) (utf8_encode (default (str "undefined") o)).
Proof. intros p. reflexivity. Qed.

Lemma appends_write_Array (a : list (option Z)) :
  appends (write_Array a) (map (fun o => Z.to_N (default 0 o mod 256)) a).
Proof. intros p. reflexivity. Qed.

Lemma appends_writeUInt8 (n : Z) :
  0 <= n <= 255 -> appends (writeUInt8 n) [Z.to_N n].
Proof.
  intros Hn p. unfold writeUInt8.
  replace ((0 <=? n) && (n <=? 255)) with true by (symmetry; apply andb_true_iff; lia).
  reflexivity.
Qed.

Lemma appends_writeUInt16LE (n : Z) :
  0 <= n <= 65535 ->
  appends (writeUInt16LE n) [Z.to_N (n mod 256); Z.to_N (n / 256)].
Proof.
  intros Hn p. unfold writeUInt16LE.
  replace ((0 <=? n) && (n <=? 65535)) with true by (symmetry; apply andb_true_iff; lia).
  reflexivity.
Qed.

Lemma appends_seq (m1 m2 : M unit) (b1 b2 : list N) :
  appends m1 b1 -> appends m2 b2 -> appends (m1 ;;; m2) (b1 ++ b2).
Proof.
  intros H1 H2 p. unfold bind. rewrite H1, H2.
  rewrite with_buffer_twice. cbn [buffer with_buffer].
  rewrite app_assoc. reflexivity.
Qed.

Create HintDb appends.
#[export] Hint Resolve appends_ret appends_bytes appends_write appends_write_entry
  appends_write_Array appends_seq : appends.

(** ** Image emission ([image]) *)

Lemma omap_id_flat_map_singleton {A : Type} (f : nat -> A) (l : list nat) :
  omap id (flat_map (fun y => [Some (f y)]) l) = map f l.
Proof.
  induction l as [|y l IH]; [reflexivity|].
  cbn [flat_map app]. change (omap id (Some (f y) :: flat_map (fun y => [Some (f y)]) l))
    with (f y :: omap id (flat_map (fun y => [Some (f y)]) l)).
  rewrite IH. reflexivity.
Qed.

Lemma bytes_per_column_cases (density : option jstring) :
  bytes_per_column density = 1%nat \/ bytes_per_column density = 3%nat.
Proof.
  unfold bytes_per_column. case_bool_decide; [left|right]; reflexivity.
Qed.

(** C7, as the code has it. For every image at most 65535 dots wide and
    every density, [image] appends the command that sets the line spacing
    to zero, then for each line of the bitmap the header of the density,
    the number of dot columns of the line (its byte length divided by the
    number of bytes of a column) as a little-endian 16-bit integer, the
    bytes of the line and an end of line, and last the command that
    restores the default line spacing. *)
Theorem image_emits (pf : Platform) (cmd : Commands) (img : PrintImage)
    (density : option jstring) :
  Z.of_nat (s_width (size img)) <= 65535 ->
  appends (image pf cmd (ImageObject img) density) (image_stream cmd img density)
  /\ Forall (fun line =>
               Z.of_nat (length line) / Z.of_nat (bytes_per_column density)
               = Z.of_nat (s_width (size img)))
       (bitmap_lines img density).
Proof.
  intros Hw.
  assert (Hlines : Forall (fun line =>
               Z.of_nat (length line) / Z.of_nat (bytes_per_column density)
               = Z.of_nat (s_width (size img)))
       (bitmap_lines img density)).
  { unfold bitmap_lines. apply Forall_forall. intros line Hin.
    apply list_elem_of_fmap in Hin. destruct Hin as [y [-> _]].
    rewrite length_bitmap_line.
    destruct (bytes_per_column_cases density) as [-> | ->].
    - change (1 * 8 / 8)%nat with 1%nat. rewrite Nat2Z.inj_mul.
      apply Z.div_mul. discriminate.
    - change (3 * 8 / 8)%nat with 3%nat. rewrite Nat2Z.inj_mul.
      apply Z.div_mul. discriminate. }
  split; [|exact Hlines].
  unfold image, image_stream.
  fold (bytes_per_column density). fold (bitmap_header cmd density).
  apply appends_seq; [|apply appends_seq].
  - unfold lineSpace. apply appends_seq; [apply appends_write|].
    unfold writeUInt8_value. cbn [ToNumber]. apply (appends_writeUInt8 0). lia.
  - unfold forEach_array.
    rewrite toBitmap_data
      by (destruct (bytes_per_column_cases density) as [-> | ->]; reflexivity).
    rewrite omap_id_flat_map_singleton. fold (bitmap_lines img density).
    induction Hlines as [|line lines Hline _ IH]; cbn [forEach flat_map].
    + apply appends_ret.
    + apply appends_seq; [|exact IH].
      unfold entry_bytes, line_bytes, u16le.
      repeat apply appends_seq; auto with appends.
      apply appends_writeUInt16LE. rewrite Hline. lia.
  - unfold lineSpace. apply appends_write.
Qed.

Lemma bit_packing_roundtrip_witness :
  mask_of_bitmap (toBitmap Sample.grid 8) 3 2 = data Sample.grid
  /\ mask_of_raster (toRaster Sample.grid) 3 2 = data Sample.grid.
Proof.
  pose proof (bit_packing_roundtrip Sample.grid 8
                ltac:(simpl; lia) ltac:(simpl; lia) eq_refl
                ltac:(apply list_elem_of_In; simpl; tauto)) as H.
  exact (proj2 (proj2 H)).
Defined.

Lemma image_emits_witness :
  image Sample.platform Sample.commands (ImageObject Sample.dot) (Some (str "d24"))
    Sample.printer
  = (Ok tt,
     with_buffer Sample.printer
       [27; 51; 0; 27; 42; 33; 1; 0; 128; 0; 0; 10; 27; 50]%N).
Proof.
  exact (proj1 (image_emits Sample.platform Sample.commands Sample.dot
                  (Some (str "d24")) ltac:(simpl; lia)) Sample.printer).
Defined.

(** C7, as the claim words it, fails: for a 24-dot density a line of one
    column has three bytes, and the integer that follows the header is 1,
    the number of columns, not 3. *)
Lemma image_stream_not_as_claimed :
  buffer (snd (image Sample.platform Sample.commands (ImageObject Sample.dot)
                 (Some (str "d24")) Sample.printer))
  <> buffer Sample.printer
       ++ image_stream_as_claimed Sample.commands Sample.dot (Some (str "d24")).
Proof. vm_compute. discriminate. Qed.

(** ** Errors and the session (C5) *)

Lemma quiet_ret {A : Type} (a : A) : quiet (ret a).
Proof. intros p e p' H. discriminate. Qed.

Lemma quiet_append_bytes (bs : list N) : quiet (append_bytes bs).
Proof. intros p e p' H. discriminate. Qed.

Lemma quiet_write (s : jstring) : quiet (write s).
Proof. apply quiet_append_bytes. Qed.

Lemma quiet_write_entry (o : option jstring) : quiet (write_entry o).
Proof. apply quiet_append_bytes. Qed.

Lemma quiet_write_Buffer (bs : list N) : quiet (write_Buffer bs).
Proof. apply quiet_append_bytes. Qed.

Lemma quiet_write_Array (a : list (option Z)) : quiet (write_Array a).
Proof. apply quiet_append_bytes. Qed.

Lemma quiet_get_model : quiet get_model.
Proof. intros p e p' H. discriminate. Qed.

Lemma quiet_throw_runtime {A : Type} : quiet (@throw A RuntimeTypeError).
Proof. intros p e p' H. inversion H. reflexivity. Qed.

Lemma quiet_throw_range {A : Type} : quiet (@throw A RangeError).
Proof. intros p e p' H. inversion H. reflexivity. Qed.

Lemma quiet_writeUInt8 (n : Z) : quiet (writeUInt8 n).
Proof.
  unfold writeUInt8. destruct ((0 <=? n) && (n <=? 255)).
  - apply quiet_append_bytes.
  - apply quiet_throw_range.
Qed.

Lemma quiet_writeUInt16LE (n : Z) : quiet (writeUInt16LE n).
Proof.
  unfold writeUInt16LE. destruct ((0 <=? n) && (n <=? 65535)).
  - apply quiet_append_bytes.
  - apply quiet_throw_range.
Qed.

Lemma quiet_bind {A B : Type} (m : M A) (k : A -> M B) :
  quiet m -> (forall a, quiet (k a)) -> quiet (bind m k).
Proof.
  intros Hm Hk p e p' H. unfold bind in H.
  destruct (m p) as [[a|e0] p0] eqn:Hmp.
  - eapply Hk. exact H.
  - inversion H; subst. eapply Hm. exact Hmp.
Qed.

Lemma quiet_if {A : Type} (c : bool) (m1 m2 : M A) :
  quiet m1 -> quiet m2 -> quiet (if c then m1 else m2).
Proof. destruct c; auto. Qed.

Lemma quiet_forEach {A : Type} (l : list A) (body : A -> M unit) :
  (forall a, quiet (body a)) -> quiet (forEach l body).
Proof.
  intros H. induction l as [|a l IH]; simpl.
  - apply quiet_ret.
  - apply quiet_bind; auto.
Qed.

Lemma quiet_upperCase_value (v : value) : quiet (upperCase_value v).
Proof.
  destruct v; simpl; try apply quiet_throw_runtime. apply quiet_ret.
Qed.

Lemma quiet_convert {A : Type} (o : option A) : quiet (convert o).
Proof. destruct o; [apply quiet_ret | apply quiet_throw_runtime]. Qed.

Lemma quiet_writeUInt8_value (pf : Platform) (v : value) :
  quiet (writeUInt8_value pf v).
Proof.
  unfold writeUInt8_value. apply quiet_bind; [apply quiet_convert|].
  intros [n|]; [apply quiet_writeUInt8 | apply quiet_append_bytes].
Qed.

Lemma quiet_lineSpace (pf : Platform) (cmd : Commands) (n : value) :
  quiet (lineSpace pf cmd n).
Proof.
  destruct n; simpl; try apply quiet_write;
    (apply quiet_bind; [apply quiet_write | intros; apply quiet_writeUInt8_value]).
Qed.

Create HintDb quiet.
#[export] Hint Resolve quiet_ret quiet_append_bytes quiet_write quiet_write_entry
  quiet_write_Buffer quiet_write_Array quiet_get_model quiet_throw_runtime
  quiet_throw_range quiet_writeUInt8 quiet_writeUInt16LE quiet_if
  quiet_forEach quiet_upperCase_value quiet_writeUInt8_value quiet_lineSpace
  quiet_convert
  : quiet.
#[export] Hint Extern 2 (quiet (bind _ _)) => apply quiet_bind; [|intros] : quiet.
#[export] Hint Extern 3 (quiet (match ?x with _ => _ end)) => destruct x : quiet.

(** The length guard of [qrcode] for the qsprinter model never holds. *)
Lemma qrcode_guard_dead (n : nat) :
  (Z.of_nat n <? 1) && (2710 <? Z.of_nat n) = false.
Proof.
  destruct (Z.of_nat n <? 1) eqn:H1; [|reflexivity].
  apply Z.ltb_lt in H1. simpl. apply Z.ltb_ge. lia.
Qed.

Lemma quiet_qrcode pf cmd content version level size :
  quiet (qrcode pf cmd content version level size).
Proof.
  unfold qrcode. apply quiet_bind; [apply quiet_get_model|]. intros m.
  rewrite qrcode_guard_dead.
  destruct (negb (is_model m "qsprinter")); auto 30 with quiet.
Qed.

(** C5, at the input that breaks it. On a session of the qsprinter
    model, [qrcode] with a content of 65533 bytes, far out of the range of
    1 to 2710 bytes that the driver means to accept, is not refused before
    the first write: the guard on the length holds for no length, the
    commands for the pixel size, the version and the level and the first
    part of the command that saves the content are appended (28 bytes),
    and only then the writer of the 16-bit length throws. The session after
    the failed call is not the session before it. *)
Theorem qrcode_length_error_leaves_bytes :
  qrcode Sample.platform Sample.commands (replicate (Z.to_nat 65533) 65%N)
    VUndef VUndef VUndef Sample.qsprinter
  = (Throw RangeError,
     with_buffer Sample.qsprinter
       [27; 35; 35; 81; 80; 73; 88; 12;
        29; 40; 107; 3; 0; 49; 67; 3;
        29; 40; 107; 3; 0; 49; 69; 52; 56;
        29; 40; 107]%N).
Proof. vm_compute. reflexivity. Qed.

(** X28. When [barcode], [image] or [raster] throws by one of the
    driver's own [throw] statements (symbology missing, wrong length of a
    fixed-length payload, argument that is not an image), no byte of the
    command has been appended: the session after the failed call, output
    stream included, is the session before it. [qrcode] never throws by a
    [throw] statement of the driver: every exception that leaves it is one
    of the runtime or of the writers of the buffer. *)
Theorem driver_throw_leaves_session (pf : Platform) (cmd : Commands) :
  (forall (p p' : Printer) (e : error),
      thrown_by_driver e = true ->
      (forall code type optionsOrLegacy,
          barcode pf cmd code type optionsOrLegacy p = (Throw e, p') -> p' = p)
      /\ (forall img density,
             image pf cmd img density p = (Throw e, p') -> p' = p)
      /\ (forall img mode,
             raster cmd img mode p = (Throw e, p') -> p' = p))
  /\ (forall content version level size,
         quiet (qrcode pf cmd content version level size)).
Proof.
  split; [|intros; apply quiet_qrcode].
  intros p p' e He. repeat split.
  - intros code type args H. unfold barcode, barcode_options in H.
    destruct (isLegacyBarcodeOptions args).
    + unfold bind at 1 2 in H. cbn [ret] in H.
      destruct type; try (inversion H; subst; reflexivity);
        cbn [is_str andb] in H;
        repeat match type of H with
               | (if ?c then _ else _) p = _ =>
                   destruct c; [inversion H; subst; reflexivity|]
               end;
        exfalso;
        match type of H with
        | ?m p = _ =>
            assert (Hq : quiet m) by auto 40 with quiet;
            apply Hq in H; congruence
        end.
    + inversion H; subst. discriminate.
  - intros img density H. unfold image in H. destruct img as [img|v].
    + exfalso.
      match type of H with
      | ?m p = _ =>
          assert (Hq : quiet m)
            by (unfold forEach_array; auto 40 with quiet);
          apply Hq in H; congruence
      end.
    + inversion H; subst. reflexivity.
  - intros img mode H. unfold raster in H. destruct img as [img|v].
    + exfalso.
      match type of H with
      | ?m p = _ =>
          assert (Hq : quiet m) by auto 40 with quiet;
          apply Hq in H; congruence
      end.
    + inversion H; subst. reflexivity.
Qed.

Lemma driver_throw_leaves_session_witness :
  snd (barcode Sample.platform Sample.commands (str "40063813339")
         (VStr (str "EAN13")) [VObj []] Sample.printer) = Sample.printer
  /\ snd (barcode Sample.platform Sample.commands (str "400638133393")
            VUndef [VObj []] Sample.printer) = Sample.printer
  /\ snd (image Sample.platform Sample.commands (OtherValue (VStr (str "logo.png")))
            None Sample.printer) = Sample.printer
  /\ snd (raster Sample.commands (OtherValue VNull) None Sample.printer)
     = Sample.printer.
Proof.
  pose proof (proj1 (driver_throw_leaves_session Sample.platform Sample.commands)) as H.
  split; [|split; [|split]].
  - exact (proj1 (H Sample.printer _ (Error "EAN13 Barcode type requires code length 12")
                    eq_refl)
             (str "40063813339") (VStr (str "EAN13")) [VObj []] eq_refl).
  - exact (proj1 (H Sample.printer _ (TypeError "barcode type is required") eq_refl)
             (str "400638133393") VUndef [VObj []] eq_refl).
  - exact (proj1 (proj2 (H Sample.printer _
                           (TypeError "Only escpos.getImage supported") eq_refl))
             (OtherValue (VStr (str "logo.png"))) None eq_refl).
  - exact (proj2 (proj2 (H Sample.printer _
                           (TypeError "Only escpos.getImage supported") eq_refl))
             (OtherValue VNull) None eq_refl).
Defined.

(** ** Barcodes ([barcode]; C2, C9) *)

Lemma or_else_string (v : value) (d : jstring) :
  optional_string v = true -> exists s, or_else v (VStr d) = VStr s.
Proof.
  destruct v as [| | | |s|]; try discriminate; intros _; unfold or_else; simpl; eauto.
  destruct s; eauto.
Qed.

Lemma is_str_same (lit : string) : is_str (VStr (str lit)) lit = true.
Proof. unfold is_str. apply bool_decide_eq_true. reflexivity. Qed.

Lemma bind_ret_l {A B : Type} (a : A) (k : A -> M B) : bind (ret a) k = k a.
Proof. reflexivity. Qed.

Lemma barcode_options_legacy (optionsOrLegacy : list value) :
  typeof_object (arg optionsOrLegacy 0) = true ->
  barcode_options optionsOrLegacy = ret (legacy_options optionsOrLegacy).
Proof.
  intros H. unfold barcode_options, isLegacyBarcodeOptions. rewrite H.
  reflexivity.
Qed.

Lemma barcode_options_not_object (optionsOrLegacy : list value) :
  typeof_object (arg optionsOrLegacy 0) = false ->
  barcode_options optionsOrLegacy = throw RuntimeTypeError.
Proof.
  intros H. unfold barcode_options, isLegacyBarcodeOptions. rewrite H.
  reflexivity.
Qed.

Lemma appends_if (c : bool) (m1 m2 : M unit) (b1 b2 : list N) :
  appends m1 b1 -> appends m2 b2 ->
  appends (if c then m1 else m2) (if c then b1 else b2).
Proof. destruct c; auto. Qed.

Lemma appends_write_default (o : option jstring) (d : jstring) :
  appends (match o with Some w => write w | None => write d end)
    (utf8_encode (default d o)).
Proof. destruct o; apply appends_write. Qed.

Lemma guard_false (P : Prop) `{Decision P} (b : bool) :
  (P -> b = false) -> bool_decide P && b = false.
Proof.
  intros H0. destruct (decide P) as [HP|HP].
  - rewrite (H0 HP). apply andb_false_r.
  - rewrite bool_decide_eq_false_2 by exact HP. reflexivity.
Qed.

(** The conversions of a convertible value return. *)
Lemma convertible_key (v : value) :
  convertible v = true -> ToPropertyKey v = Some (default [] (ToPropertyKey v)).
Proof.
  destruct v as [| |[]| | |props]; try reflexivity.
  cbn [convertible ToPropertyKey]. intros H. apply negb_true_iff in H.
  rewrite H. reflexivity.
Qed.

Lemma convertible_height (pf : Platform) (v : value) :
  convertible v = true ->
  height_in_range pf v = Some (default false (height_in_range pf v)).
Proof.
  unfold height_in_range. destruct v as [| | | | |props]; try reflexivity.
  cbn [convertible ToNumber]. intros H. apply negb_true_iff in H.
  rewrite H. reflexivity.
Qed.

(** A call with an options object, text options that are strings when
    given, values that convert and a payload of the length that the
    symbology fixes returns, and appends the bytes of [barcode_stream]. *)
Lemma barcode_run (pf : Platform) (cmd : Commands) (code ty : jstring)
    (optionsOrLegacy : list value) (p : Printer) :
  typeof_object (arg optionsOrLegacy 0) = true ->
  optional_string (arg optionsOrLegacy 2) = true ->
  optional_string (arg optionsOrLegacy 3) = true ->
  is_model (_model p) "qsprinter" = true \/ convertible (arg optionsOrLegacy 0) = true ->
  convertible (arg optionsOrLegacy 1) = true ->
  (ty = str "EAN13" -> length code = 12%nat) ->
  (ty = str "EAN8" -> length code = 7%nat) ->
  barcode pf cmd code (VStr ty) optionsOrLegacy p
  = (Ok tt,
     with_buffer p
       (buffer p ++ barcode_stream pf cmd (is_model (_model p) "qsprinter")
                      code ty optionsOrLegacy)).
Proof.
  intros Hobj Hpos Hfont Hwidth Hheight H13 H8.
  destruct (or_else_string _ (str "blw") Hpos) as [pos Epos].
  destruct (or_else_string _ (str "a") Hfont) as [fnt Efnt].
  unfold barcode. rewrite barcode_options_legacy, !bind_ret_l by exact Hobj.
  cbv beta iota. unfold barcode_stream, legacy_options.
  cbn [b_position b_font b_width b_height b_includeParity truthy].
  rewrite Epos, Efnt. cbn [string_of upperCase_value]. unfold is_str.
  assert (G13 : bool_decide (ty = str "EAN13") && negb (length code =? 12)%nat = false)
    by (apply guard_false; intros E; rewrite (H13 E); reflexivity).
  assert (G8 : bool_decide (ty = str "EAN8") && negb (length code =? 7)%nat = false)
    by (apply guard_false; intros E; rewrite (H8 E); reflexivity).
  rewrite G13, G8.
  unfold bind at 1. cbn [get_model].
  unfold normalizedType. cbv zeta.
  pose proof (convertible_height pf _ Hheight) as Eh.
  destruct (height_in_range pf (arg optionsOrLegacy 1)) as [inRange|];
    [clear Eh | discriminate].
  cbn [convert default id].
  destruct (is_model (_model p) "qsprinter") eqn:Hqs.
  - rewrite ?bind_ret_l.
    match goal with
    | |- ?m p = _ => eassert (Ha : appends m _)
    end.
    { repeat (apply appends_seq;
              [solve [auto with appends
                     | apply appends_if; auto with appends
                     | apply appends_write_default] |]).
      solve [auto with appends]. }
    rewrite (Ha p). do 3 f_equal. unfold entry_bytes.
    cbn [app]. rewrite <- ?app_assoc, ?app_nil_r.
    repeat case_match; reflexivity.
  - destruct Hwidth as [Hqs' | Hwidth]; [discriminate|].
    pose proof (convertible_key _ Hwidth) as Ek.
    destruct (ToPropertyKey (arg optionsOrLegacy 0)) as [key|];
      [clear Ek | discriminate].
    cbn [convert default id]. rewrite ?bind_ret_l.
    match goal with
    | |- ?m p = _ => eassert (Ha : appends m _)
    end.
    { repeat (apply appends_seq;
              [solve [auto with appends
                     | apply appends_if; auto with appends
                     | apply appends_write_default] |]).
      solve [auto with appends]. }
    rewrite (Ha p). do 3 f_equal. unfold entry_bytes.
    cbn [app]. rewrite <- ?app_assoc, ?app_nil_r.
    repeat case_match; reflexivity.
Qed.

(** C2, at the inputs that break it. A call of [barcode] for EAN13 or
    EAN8 that passes no options, or the former positional options, never
    reaches the check of the length: a payload of 12 digits for EAN13 (of 7
    for EAN8) does not succeed, and a payload of 11 or of 13 digits is not
    refused with the length error; each of these calls throws a TypeError
    of the runtime while the options are resolved. The test that is named
    [isLegacyBarcodeOptions] holds for an options object, so that the
    positional arguments are taken apart as if they were one. *)
Theorem barcode_fixed_length_needs_options_object :
  barcode Sample.platform Sample.commands (str "400638133393") (VStr (str "EAN13"))
    [] Sample.printer = (Throw RuntimeTypeError, Sample.printer)
  /\ barcode Sample.platform Sample.commands (str "40063813339") (VStr (str "EAN13"))
       [] Sample.printer = (Throw RuntimeTypeError, Sample.printer)
  /\ barcode Sample.platform Sample.commands (str "4006381333931") (VStr (str "EAN13"))
       [] Sample.printer = (Throw RuntimeTypeError, Sample.printer)
  /\ barcode Sample.platform Sample.commands (str "5901234") (VStr (str "EAN8"))
       [] Sample.printer = (Throw RuntimeTypeError, Sample.printer)
  /\ barcode Sample.platform Sample.commands (str "400638133393") (VStr (str "EAN13"))
       [VNum 2; VNum 50; VStr (str "blw"); VStr (str "a")] Sample.printer
     = (Throw RuntimeTypeError, Sample.printer).
Proof. repeat split; vm_compute; reflexivity. Qed.

(** X29. With an options object: for the symbology EAN13, [barcode]
    throws its length error, and appends nothing, for every payload whose
    length is not 12; for EAN8 the same with 7. When moreover the position
    and the font are strings if they are given and the width and the height
    convert (the width need not for the qsprinter model), [barcode]
    returns for every payload of length 12 for EAN13 and of length 7 for
    EAN8. *)
Theorem barcode_fixed_length (pf : Platform) (cmd : Commands) (code : jstring)
    (optionsOrLegacy : list value) (p : Printer) :
  typeof_object (arg optionsOrLegacy 0) = true ->
  (length code <> 12%nat ->
   barcode pf cmd code (VStr (str "EAN13")) optionsOrLegacy p
   = (Throw (Error "EAN13 Barcode type requires code length 12"), p))
  /\ (length code <> 7%nat ->
      barcode pf cmd code (VStr (str "EAN8")) optionsOrLegacy p
      = (Throw (Error "EAN8 Barcode type requires code length 7"), p))
  /\ (optional_string (arg optionsOrLegacy 2) = true ->
      optional_string (arg optionsOrLegacy 3) = true ->
      is_model (_model p) "qsprinter" = true
      \/ convertible (arg optionsOrLegacy 0) = true ->
      convertible (arg optionsOrLegacy 1) = true ->
      (length code = 12%nat ->
       exists p', barcode pf cmd code (VStr (str "EAN13")) optionsOrLegacy p = (Ok tt, p'))
      /\ (length code = 7%nat ->
          exists p', barcode pf cmd code (VStr (str "EAN8")) optionsOrLegacy p
                     = (Ok tt, p'))).
Proof.
  intros Hobj.
  assert (Hne : is_str (VStr (str "EAN13")) "EAN8" = false) by reflexivity.
  split; [|split].
  - intros Hlen. unfold barcode.
    rewrite barcode_options_legacy, !bind_ret_l by exact Hobj.
    cbv beta iota. rewrite is_str_same.
    replace (length code =? 12)%nat with false
      by (symmetry; apply Nat.eqb_neq; exact Hlen).
    reflexivity.
  - intros Hlen. unfold barcode.
    rewrite barcode_options_legacy, !bind_ret_l by exact Hobj.
    cbv beta iota. rewrite is_str_same.
    replace (is_str (VStr (str "EAN8")) "EAN13") with false by reflexivity.
    replace (length code =? 7)%nat with false
      by (symmetry; apply Nat.eqb_neq; exact Hlen).
    reflexivity.
  - intros Hpos Hfont Hwidth Hheight. split; intros Hlen; eexists;
      apply barcode_run; try assumption; try discriminate; intros _; exact Hlen.
Qed.

Lemma barcode_fixed_length_witness :
  barcode Sample.platform Sample.commands (str "40063813339") (VStr (str "EAN13"))
    [VObj []] Sample.printer
  = (Throw (Error "EAN13 Barcode type requires code length 12"), Sample.printer)
  /\ barcode Sample.platform Sample.commands (str "590123") (VStr (str "EAN8"))
       [VObj []] Sample.printer
     = (Throw (Error "EAN8 Barcode type requires code length 7"), Sample.printer)
  /\ (exists p', barcode Sample.platform Sample.commands (str "400638133393")
                   (VStr (str "EAN13")) [VObj []] Sample.printer = (Ok tt, p'))
  /\ (exists p', barcode Sample.platform Sample.commands (str "5901234")
                   (VStr (str "EAN8")) [VObj []] Sample.printer = (Ok tt, p')).
Proof.
  split; [|split; [|split]].
  - apply (barcode_fixed_length Sample.platform Sample.commands (str "40063813339")
             [VObj []] Sample.printer eq_refl).
    simpl. lia.
  - apply (barcode_fixed_length Sample.platform Sample.commands (str "590123")
             [VObj []] Sample.printer eq_refl).
    simpl. lia.
  - apply (barcode_fixed_length Sample.platform Sample.commands (str "400638133393")
             [VObj []] Sample.printer eq_refl); try reflexivity.
    right. reflexivity.
  - apply (barcode_fixed_length Sample.platform Sample.commands (str "5901234")
             [VObj []] Sample.printer eq_refl); try reflexivity.
    right. reflexivity.
Defined.

Lemma appender_ret {A : Type} (a : A) : appender (ret a).
Proof.
  intros p. exists []. simpl. rewrite app_nil_r, with_buffer_same. reflexivity.
Qed.

Lemma appender_throw {A : Type} (e : error) : appender (@throw A e).
Proof.
  intros p. exists []. simpl. rewrite app_nil_r, with_buffer_same. reflexivity.
Qed.

Lemma appender_get_model : appender get_model.
Proof.
  intros p. exists []. simpl. rewrite app_nil_r, with_buffer_same. reflexivity.
Qed.

Lemma appender_append_bytes (bs : list N) : appender (append_bytes bs).
Proof. intros p. exists bs. reflexivity. Qed.

Lemma appender_write (s : jstring) : appender (write s).
Proof. apply appender_append_bytes. Qed.

Lemma appender_write_entry (o : option jstring) : appender (write_entry o).
Proof. apply appender_append_bytes. Qed.

Lemma appender_bind {A B : Type} (m : M A) (k : A -> M B) :
  appender m -> (forall a, appender (k a)) -> appender (bind m k).
Proof.
  intros Hm Hk p. unfold bind.
  destruct (Hm p) as [b1 H1].
  destruct (m p) as [[a|e] p1] eqn:Hmp; simpl in H1; subst p1.
  - destruct (Hk a (with_buffer p (buffer p ++ b1))) as [b2 H2].
    exists (b1 ++ b2). rewrite H2. cbn [buffer with_buffer].
    rewrite app_assoc. reflexivity.
  - exists b1. reflexivity.
Qed.

Lemma appender_if {A : Type} (c : bool) (m1 m2 : M A) :
  appender m1 -> appender m2 -> appender (if c then m1 else m2).
Proof. destruct c; auto. Qed.

Lemma appender_upperCase_value (v : value) : appender (upperCase_value v).
Proof.
  destruct v; simpl; try apply appender_throw. apply appender_ret.
Qed.

Lemma appender_convert {A : Type} (o : option A) : appender (convert o).
Proof. destruct o; [apply appender_ret | apply appender_throw]. Qed.

Create HintDb appender.
#[export] Hint Resolve appender_ret appender_throw appender_get_model
  appender_append_bytes appender_write appender_write_entry appender_if
  appender_upperCase_value appender_convert : appender.
#[export] Hint Extern 2 (appender (bind _ _)) => apply appender_bind; [|intros] : appender.
#[export] Hint Extern 3 (appender (match ?x with _ => _ end)) => destruct x : appender.

Lemma bind_Ok_inv {A B : Type} (m : M A) (k : A -> M B) (p p' : Printer) (b : B) :
  bind m k p = (Ok b, p') ->
  exists a p1, m p = (Ok a, p1) /\ k a p1 = (Ok b, p').
Proof.
  unfold bind. destruct (m p) as [[a|e] p1]; intros H; [eauto | discriminate].
Qed.

(** A step that returns has appended bytes and nothing else. *)
Lemma appender_Ok {A : Type} (m : M A) (p p1 : Printer) (a : A) :
  appender m -> m p = (Ok a, p1) ->
  exists bs, p1 = with_buffer p (buffer p ++ bs).
Proof.
  intros Hm H. destruct (Hm p) as [bs Hbs]. rewrite H in Hbs. eauto.
Qed.

(** One step of a sequence that returned: the step appended [bs]. *)
Ltac step H bs :=
  apply bind_Ok_inv in H;
  let q := fresh "q" in
  let Hq := fresh "Hq" in
  destruct H as (? & q & Hq & H);
  apply appender_Ok in Hq; [|solve [auto 20 with appender]];
  destruct Hq as [bs ->].

(** C9, at the input that breaks it. [barcode] chooses the symbology
    from the type in upper case, and decides on the checksum digit from the
    type as it was passed. The call with the type ['ean13'] and the payload
    400638133393 appends the command of the symbology EAN13 (GS k 2), the
    twelve digits and the NUL byte, with no checksum digit between them;
    the call with ['EAN13'] appends the same bytes with the digit 1 before
    the NUL byte. The check of the length is skipped in the same way: a
    payload of four digits is sent as EAN13. *)
Theorem barcode_lowercase_type_drops_checksum :
  barcode Sample.platform Sample.commands (str "400638133393") (VStr (str "ean13"))
    [VObj []] Sample.printer
  = (Ok tt,
     with_buffer Sample.printer
       ([29; 119; 1; 29; 104; 100; 29; 102; 0; 29; 72; 2; 29; 107; 2]%N
          ++ utf8_encode (str "400638133393") ++ [0%N]))
  /\ barcode Sample.platform Sample.commands (str "400638133393") (VStr (str "EAN13"))
       [VObj []] Sample.printer
     = (Ok tt,
        with_buffer Sample.printer
          ([29; 119; 1; 29; 104; 100; 29; 102; 0; 29; 72; 2; 29; 107; 2]%N
             ++ utf8_encode (str "4006381333931") ++ [0%N]))
  /\ barcode Sample.platform Sample.commands (str "4006") (VStr (str "ean13"))
       [VObj []] Sample.printer
     = (Ok tt,
        with_buffer Sample.printer
          ([29; 119; 1; 29; 104; 100; 29; 102; 0; 29; 72; 2; 29; 107; 2]%N
             ++ utf8_encode (str "4006") ++ [0%N])).
Proof. repeat split; vm_compute; reflexivity. Qed.

(** X30. The options that [barcode] resolves always have [includeParity]
    true, whatever the caller passes, an object with [includeParity: false]
    included; and every call whose type is exactly ['EAN13'] or ['EAN8']
    and that returns has appended the payload, the computed checksum digit
    and the NUL byte, in this order, followed only by the mode-off command
    of the qsprinter model. *)
Theorem barcode_parity_always (pf : Platform) (cmd : Commands) :
  (forall optionsOrLegacy p o p',
      barcode_options optionsOrLegacy p = (Ok o, p') ->
      b_includeParity o = VBool true)
  /\ (forall code ty optionsOrLegacy p p',
         ty = str "EAN13" \/ ty = str "EAN8" ->
         barcode pf cmd code (VStr ty) optionsOrLegacy p = (Ok tt, p') ->
         exists pre,
           buffer p'
           = buffer p ++ pre
               ++ utf8_encode (code ++ utils.getParityBit code ++ [0%N])
               ++ (if is_model (_model p) "qsprinter"
                   then utf8_encode (QS_BARCODE_MODE_OFF cmd) else [])).
Proof.
  split.
  - intros args p o p' H.
    destruct (typeof_object (arg args 0)) eqn:Hobj.
    + rewrite barcode_options_legacy in H by exact Hobj.
      inversion H. reflexivity.
    + rewrite barcode_options_not_object in H by exact Hobj. discriminate.
  - intros code ty args p p' Hty H.
    unfold barcode in H.
    destruct (typeof_object (arg args 0)) eqn:Hobj;
      [| rewrite barcode_options_not_object in H by exact Hobj; discriminate].
    rewrite barcode_options_legacy, !bind_ret_l in H by exact Hobj.
    cbv beta iota in H.
    unfold legacy_options in H.
    cbn [b_position b_font b_width b_height b_includeParity truthy] in H.
    assert (Hpar : is_str (VStr ty) "EAN13" || is_str (VStr ty) "EAN8" = true)
      by (destruct Hty as [-> | ->]; reflexivity).
    assert (Hlen : is_str (VStr ty) "CODE128" || is_str (VStr ty) "CODE93" = false)
      by (destruct Hty as [-> | ->]; reflexivity).
    rewrite Hpar, Hlen in H. cbn [app] in H.
    repeat match type of H with
           | (if ?c then _ else _) p = _ => destruct c; [discriminate|]
           end.
    apply bind_Ok_inv in H. destruct H as (m & p0 & Hm & H).
    inversion Hm; subst m p0. clear Hm.
    step H b1. step H b2. step H b3. step H b4. step H b5. step H b6. step H b7.
    apply bind_Ok_inv in H. destruct H as ([] & q & Hq & H).
    inversion Hq; subst q; clear Hq.
    cbn [buffer with_buffer] in H.
    exists (b1 ++ b2 ++ b3 ++ b4 ++ b5 ++ b6 ++ b7).
    destruct (is_model (_model p) "qsprinter"); inversion H;
      cbn [buffer with_buffer]; rewrite <- ?app_assoc, ?app_nil_r; reflexivity.
Qed.

Lemma barcode_parity_always_witness :
  (forall p o p',
      barcode_options [VObj [("includeParity"%string, VBool false)]] p = (Ok o, p') ->
      b_includeParity o = VBool true)
  /\ exists pre,
       buffer (snd (barcode Sample.platform Sample.commands (str "400638133393")
                      (VStr (str "EAN13"))
                      [VObj [("includeParity"%string, VBool false)]] Sample.printer))
       = buffer Sample.printer ++ pre
           ++ utf8_encode (str "400638133393" ++ str "1" ++ [0%N]) ++ [].
Proof.
  split.
  - exact (proj1 (barcode_parity_always Sample.platform Sample.commands)
             [VObj [("includeParity"%string, VBool false)]]).
  - exact (proj2 (barcode_parity_always Sample.platform Sample.commands)
             (str "400638133393") (str "EAN13")
             [VObj [("includeParity"%string, VBool false)]] Sample.printer _
             (or_introl eq_refl) eq_refl).
Defined.

(** ** The length prefix ([codeLength]; C4) *)

Lemma hex_bytes_below_128 :
  forallb (fun k => bool_decide
                      (utils.Buffer_from_hex (Number_toString 16 (N.of_nat k))
                       = if (k <? 16)%nat then [] else [N.of_nat k]))
          (seq 0 128) = true.
Proof. vm_compute. reflexivity. Qed.

Lemma hex_bytes (k : nat) :
  (k < 128)%nat ->
  utils.Buffer_from_hex (Number_toString 16 (N.of_nat k))
  = if (k <? 16)%nat then [] else [N.of_nat k].
Proof.
  intros Hk. pose proof hex_bytes_below_128 as H.
  rewrite forallb_forall in H.
  specialize (H k ltac:(apply in_seq; lia)).
  apply bool_decide_eq_true in H. exact H.
Qed.

(** X26. A payload shorter than 16 characters gets no prefix at all: its
    length has one hexadecimal digit, which makes no byte. *)
Lemma codeLength_short (pf : Platform) (s : jstring) :
  decodes_ascii pf -> (length s < 16)%nat -> utils.codeLength pf s = [].
Proof.
  intros Hpf Hs. unfold utils.codeLength. rewrite hex_bytes by lia.
  replace (length s <? 16)%nat with true by (symmetry; apply Nat.ltb_lt; exact Hs).
  apply Hpf. constructor.
Qed.

(** X2. A payload of 16 to 127 characters gets the one-character prefix whose
    code is its length. *)
Lemma codeLength_one_byte (pf : Platform) (s : jstring) :
  decodes_ascii pf ->
  (16 <= length s < 128)%nat -> utils.codeLength pf s = [N.of_nat (length s)].
Proof.
  intros Hpf Hs. unfold utils.codeLength. rewrite hex_bytes by lia.
  replace (length s <? 16)%nat with false by (symmetry; apply Nat.ltb_ge; lia).
  apply Hpf. repeat constructor. lia.
Qed.

Lemma sample_decodes_ascii : decodes_ascii Sample.platform.
Proof.
  intros bs. induction 1 as [|b bs Hb _ IH]; cbn; [reflexivity|].
  apply N.ltb_lt in Hb. rewrite Hb. f_equal. exact IH.
Qed.

(** C4, at the input that breaks it. For the payload 12345 and the
    symbology CODE128, [barcode] appends the commands of the preamble, the
    command that selects the symbology (29, 107, 73) and right after it
    the five characters of the payload and the NUL byte: no byte with the
    value 5 stands before the payload. *)
Theorem barcode_code128_short_payload_has_no_prefix :
  barcode Sample.platform Sample.commands (str "12345") (VStr (str "CODE128"))
    [VObj []] Sample.printer
  = (Ok tt,
     with_buffer Sample.printer
       ([29; 119; 1; 29; 104; 100; 29; 102; 0; 29; 72; 2; 29; 107; 73]%N
          ++ utf8_encode (str "12345") ++ [0%N])).
Proof. vm_compute. reflexivity. Qed.

(** ** The length guard of the qsprinter 2D code ([qrcode]; C1) *)

(** C1, at the inputs that break it. On a session of the qsprinter model,
    [qrcode] with an empty content (0 bytes) returns and has appended the
    five commands; with a content of 2711 bytes it returns as well. The
    guard on the length, which joins its two bounds with [&&], holds for
    no length. *)
Theorem qrcode_qsprinter_accepts_any_length :
  qrcode Sample.platform Sample.commands [] VUndef VUndef VUndef Sample.qsprinter
  = (Ok tt,
     with_buffer Sample.qsprinter
       [27; 35; 35; 81; 80; 73; 88; 12;
        29; 40; 107; 3; 0; 49; 67; 3;
        29; 40; 107; 3; 0; 49; 69; 52; 56;
        29; 40; 107; 3; 0; 49; 80; 48;
        29; 40; 107; 3; 0; 49; 81; 48]%N)
  /\ fst (qrcode Sample.platform Sample.commands (replicate 2711 65%N)
            VUndef VUndef VUndef Sample.qsprinter) = Ok tt.
Proof. split; vm_compute; reflexivity. Qed.

(** X1. On a session of the qsprinter model, whatever the length of the
    content, [qrcode] returns and appends the five commands, provided the
    clamped pixel size and version are bytes, the framed length fits 16
    bits and the level, if given, is a string. *)
Theorem qrcode_qsprinter_emits (pf : Platform) (cmd : Commands) (content : jstring)
    (version level size : value) (p : Printer) :
  is_model (_model p) "qsprinter" = true ->
  optional_string level = true ->
  0 <= clamp size (QS_PIXEL_SIZE_DEFAULT cmd) (QS_PIXEL_SIZE_MIN cmd)
         (QS_PIXEL_SIZE_MAX cmd) <= 255 ->
  0 <= clamp version (QS_VERSION_DEFAULT cmd) (QS_VERSION_MIN cmd)
         (QS_VERSION_MAX cmd) <= 255 ->
  0 <= Z.of_nat (length (iconv_encode pf content (str "utf8"))) + QS_LEN_OFFSET cmd
    <= 65535 ->
  qrcode pf cmd content version level size p
  = (Ok tt,
     with_buffer p (buffer p ++ qs_qrcode_stream pf cmd content version level size)).
Proof.
  intros Hmodel Hlevel Hsize Hversion Hlen.
  destruct (or_else_string level (str "L") Hlevel) as [lv Hlv].
  unfold qrcode, qs_qrcode_stream. rewrite Hlv.
  unfold bind at 1. cbn [get_model]. rewrite Hmodel. cbn [negb].
  rewrite qrcode_guard_dead. cbn [upperCase_value]. rewrite bind_ret_l.
  match goal with
  | |- ?m p = _ => eassert (Ha : appends m _)
  end.
  { unfold write_Buffer.
    repeat (apply appends_seq;
            [solve [auto with appends
                   | apply appends_writeUInt8; assumption
                   | apply appends_writeUInt16LE; assumption] |]).
    auto with appends. }
  rewrite (Ha p). do 3 f_equal. unfold entry_bytes, u16le.
  rewrite <- ?app_assoc. reflexivity.
Qed.

(** X5. A call of [barcode] whose first optional argument is not an object
    (no options at all, or the former positional width, height, position
    and font) throws a TypeError of the runtime while it resolves its
    options, before any check of the symbology or of the payload and
    before any byte. *)
Theorem barcode_needs_options_object (pf : Platform) (cmd : Commands)
    (code : jstring) (type : value) (optionsOrLegacy : list value) (p : Printer) :
  typeof_object (arg optionsOrLegacy 0) = false ->
  barcode pf cmd code type optionsOrLegacy p = (Throw RuntimeTypeError, p).
Proof.
  intros Hobj. unfold barcode.
  rewrite barcode_options_not_object by exact Hobj. reflexivity.
Qed.

Lemma barcode_needs_options_object_witness :
  barcode Sample.platform Sample.commands (str "400638133393") (VStr (str "EAN13"))
    [] Sample.printer = (Throw RuntimeTypeError, Sample.printer)
  /\ barcode Sample.platform Sample.commands (str "400638133393") (VStr (str "EAN13"))
       [VNum 2; VNum 50; VStr (str "blw"); VStr (str "a")] Sample.printer
     = (Throw RuntimeTypeError, Sample.printer).
Proof.
  split.
  - exact (barcode_needs_options_object Sample.platform Sample.commands
             (str "400638133393") (VStr (str "EAN13")) [] Sample.printer eq_refl).
  - exact (barcode_needs_options_object Sample.platform Sample.commands
             (str "400638133393") (VStr (str "EAN13"))
             [VNum 2; VNum 50; VStr (str "blw"); VStr (str "a")] Sample.printer eq_refl).
Defined.

(** ** Table layout ([tableCustom]; C8, C10) *)

Lemma tableCustom_S (pf : Platform) (cmd : Commands) (fuel : nat)
    (data : list nat) (options : option TableOptions) (this : Printer)
    (store : gmap nat Cell) :
  tableCustom pf cmd (S fuel) data options this store
  = let options := default (default_table_options this) options in
    let '(r, rs) := table_row cmd (width this) data (fst (t_size options)) store in
    match r with
    | Throw e => Some (Throw e, this, heap rs)
    | Ok _ =>
        let this := with_buffer this
                      (buffer this ++ table_line pf cmd options this (lineStr rs)) in
        if secondLineEnabled rs
        then tableCustom pf cmd fuel (secondLine rs) (Some options) this (heap rs)
        else Some (Ok tt, this, heap rs)
    end.
Proof. reflexivity. Qed.

(** One pass over the row of [Sample.wide_store]: the character does not
    fit in the cell, nothing of it is put on the line, and the whole of
    it is left for the continuation row, which is the same row on the
    same store. *)
Lemma wide_row_pass :
  table_row Sample.commands 48 [0%nat] 1 Sample.wide_store
  = (Ok tt,
     {| cellWidth := 1; leftoverSpace := 0; lineStr := [];
        secondLineEnabled := true; secondLine := [0%nat];
        heap := Sample.wide_store |}).
Proof. vm_compute. reflexivity. Qed.

Lemma wide_row_loops (fuel : nat) :
  forall (options : option TableOptions) (this : Printer),
    width this = 48 ->
    fst (t_size (default (default_table_options this) options)) = 1%positive ->
    tableCustom Sample.platform Sample.commands fuel [0%nat] options this
      Sample.wide_store = None.
Proof.
  induction fuel as [|fuel IH]; intros options this Hw Hsize; [reflexivity|].
  rewrite tableCustom_S. cbv zeta.
  rewrite Hw, Hsize, wide_row_pass. cbn [secondLineEnabled secondLine heap].
  apply IH; [exact Hw | exact Hsize].
Qed.

(** C8, at the input that breaks it. A row of one cell, one column wide,
    whose text is one character two columns wide: every pass leaves the
    whole text for a continuation row, so [tableCustom] appends an empty
    line and calls itself again, without end. No number [k] of
    continuation rows makes the output [k + 1] lines. *)
Theorem tableCustom_wide_character_never_returns :
  never_returns
    (fun fuel =>
       tableCustom Sample.platform Sample.commands fuel [0%nat] None
         Sample.printer Sample.wide_store).
Proof.
  intros fuel. apply wide_row_loops; reflexivity.
Qed.

(** *** What a pass does to the cells *)

Lemma cell_step_secondLine cmd bw w l obj rs :
  secondLine (cell_step cmd bw w l obj rs) = secondLine rs ++ [l].
Proof.
  unfold cell_step. repeat case_match; reflexivity.
Qed.

Lemma cell_step_heap_other cmd bw w l obj rs l' :
  l' <> l -> heap (cell_step cmd bw w l obj rs) !! l' = heap rs !! l'.
Proof.
  intros Hne. unfold cell_step.
  repeat case_match; cbn [heap]; rewrite ?lookup_insert_ne by congruence;
    reflexivity.
Qed.

(** After the step the cell is in the store; and when the step does not
    ask for a continuation row, it did not before and the text of the
    cell is now empty. *)
Lemma cell_step_heap_same cmd bw w l obj rs :
  exists c, heap (cell_step cmd bw w l obj rs) !! l = Some c
            /\ (secondLineEnabled (cell_step cmd bw w l obj rs) = false ->
                secondLineEnabled rs = false /\ text c = []).
Proof.
  unfold cell_step.
  repeat case_match; cbn [heap secondLineEnabled];
    rewrite lookup_insert_eq; eexists; (split; [reflexivity|]);
    intros Hflag; try discriminate; (split; [exact Hflag | reflexivity]).
Qed.

Lemma render_cells_spec cmd bw w (data : list nat) :
  forall rs r rs',
    render_cells cmd bw w data rs = (r, rs') ->
    (forall l, l ∉ data -> heap rs' !! l = heap rs !! l)
    /\ (r = Ok tt ->
        secondLine rs' = secondLine rs ++ data
        /\ (secondLineEnabled rs' = false ->
            secondLineEnabled rs = false
            /\ forall l, l ∈ data ->
                 exists c, heap rs' !! l = Some c /\ text c = [])).
Proof.
  induction data as [|l data IH]; intros rs r rs' H; cbn [render_cells] in H.
  - inversion H; subst. split; [reflexivity|]. intros _.
    split; [rewrite app_nil_r; reflexivity|].
    intros Hflag. split; [exact Hflag|]. intros l Hl. inversion Hl.
  - destruct (heap rs !! l) as [obj|] eqn:Hobj.
    + apply IH in H. destruct H as [Hother Hok]. split.
      * intros l' Hl'. apply not_elem_of_cons in Hl'. destruct Hl' as [Hne Hl'].
        rewrite Hother by exact Hl'. apply cell_step_heap_other. exact Hne.
      * intros Hr. destruct (Hok Hr) as [Hsecond Hclear]. split.
        -- rewrite Hsecond, cell_step_secondLine, <- app_assoc. reflexivity.
        -- intros Hflag. destruct (Hclear Hflag) as [Hflag1 Hrest].
           destruct (cell_step_heap_same cmd bw w l obj rs) as (c & Hc & Hstep).
           destruct (Hstep Hflag1) as [Hflag0 Htext].
           split; [exact Hflag0|].
           intros l' Hl'. apply elem_of_cons in Hl'.
           destruct (decide (l' ∈ data)) as [Hin|Hnotin]; [apply Hrest; exact Hin|].
           destruct Hl' as [Heq | Hin]; [subst l'|contradiction].
           exists c. rewrite Hother by exact Hnotin. split; assumption.
    + inversion H; subst. split; [reflexivity|]. intros Hr. discriminate.
Qed.

(** C10. [tableCustom] changes the cells it is handed: the continuation
    row of a pass is made of the very same cell objects, in the same
    order, and when the outermost call returns the text of every cell of
    the caller's row is the empty string. *)
Theorem tableCustom_clears_cells (pf : Platform) (cmd : Commands) :
  (forall deviceWidth data w store rs,
      table_row cmd deviceWidth data w store = (Ok tt, rs) ->
      secondLine rs = data)
  /\ (forall fuel data options this store this' store',
         tableCustom pf cmd fuel data options this store = Some (Ok tt, this', store') ->
         forall l, l ∈ data -> exists c, store' !! l = Some c /\ text c = []).
Proof.
  split.
  - intros deviceWidth data w store rs H. unfold table_row in H.
    apply render_cells_spec in H. destruct H as [_ H].
    destruct (H eq_refl) as [Hsecond _]. exact Hsecond.
  - induction fuel as [|fuel IH]; intros data options this store this' store' H;
      [discriminate|].
    rewrite tableCustom_S in H. cbv zeta in H.
    destruct (table_row cmd (width this) data _ store) as [r rs] eqn:Hrow.
    destruct r as [[]|e]; [|discriminate].
    unfold table_row in Hrow. apply render_cells_spec in Hrow.
    destruct Hrow as [_ Hok]. destruct (Hok eq_refl) as [Hsecond Hclear].
    cbn [secondLine app] in Hsecond.
    destruct (secondLineEnabled rs) eqn:Hflag.
    + rewrite Hsecond in H. eapply IH. exact H.
    + inversion H; subst. apply Hclear. reflexivity.
Qed.

Lemma tableCustom_clears_cells_witness :
  tableCustom Sample.platform Sample.commands 10 [0%nat; 1%nat] None
    Sample.printer16 Sample.row_store
  = Some (Ok tt, Sample.printer16_after, Sample.row_store_after)
  /\ (exists c, Sample.row_store_after !! 0%nat = Some c /\ text c = [])
  /\ (exists c, Sample.row_store_after !! 1%nat = Some c /\ text c = []).
Proof.
  assert (Hrun : tableCustom Sample.platform Sample.commands 10 [0%nat; 1%nat] None
                   Sample.printer16 Sample.row_store
                 = Some (Ok tt, Sample.printer16_after, Sample.row_store_after))
    by (vm_compute; reflexivity).
  split; [exact Hrun|].
  split;
    (apply (proj2 (tableCustom_clears_cells Sample.platform Sample.commands)
              10%nat [0%nat; 1%nat] None Sample.printer16 Sample.row_store
              Sample.printer16_after Sample.row_store_after Hrun);
     apply list_elem_of_In; simpl; tauto).
Defined.

(** *** When [tableCustom] returns *)

Lemma cell_step_cellWidth cmd bw w l obj rs :
  cellWidth (cell_step cmd bw w l obj rs) = cell_width bw w obj rs.
Proof.
  unfold cell_step, cell_width. repeat case_match; simplify_eq; reflexivity.
Qed.

Lemma cell_step_flag cmd bw w l obj rs :
  secondLineEnabled (cell_step cmd bw w l obj rs)
  = overflows (cell_width bw w obj rs) obj || secondLineEnabled rs.
Proof.
  unfold cell_step, cell_width, overflows.
  repeat case_match; simplify_eq; try congruence; cbn [secondLineEnabled];
    repeat match goal with
           | H : Qlt_bool _ _ = _ |- _ => rewrite H
           end; reflexivity.
Qed.

Lemma cell_step_heap_at cmd bw w l obj rs :
  heap (cell_step cmd bw w l obj rs) !! l
  = Some (set_text obj
            (if overflows (cell_width bw w obj rs) obj
             then utils.textSubstring (text obj) (cell_width bw w obj rs) None
             else [])).
Proof.
  unfold cell_step, cell_width, overflows.
  repeat case_match; simplify_eq; try congruence; cbn [heap];
    rewrite lookup_insert_eq;
    repeat match goal with
           | H : Qlt_bool _ _ = _ |- _ => rewrite H
           end; reflexivity.
Qed.

(** [textSubstring] keeps some of the characters. *)
Lemma substring_rounds_length (start : Q) (e : option Q) (s : jstring) :
  forall (a : Z) (acc : jstring),
    (length (snd (foldl (utils.substring_round start e) (a, acc) s))
     <= length acc + length s)%nat.
Proof.
  induction s as [|c s IH]; intros a acc; cbn [foldl snd length]; [lia|].
  unfold utils.substring_round at 2.
  etransitivity; [apply IH|]. rewrite length_app.
  destruct (_ && _); cbn [length]; lia.
Qed.

Lemma textSubstring_length (s : jstring) (start : Q) :
  (length (utils.textSubstring s start None) <= length s)%nat.
Proof.
  unfold utils.textSubstring.
  exact (substring_rounds_length start None s 0 []).
Qed.

Lemma charLength_le_2 (c : N) : utils.charLength c <= 2.
Proof. unfold utils.charLength. destruct (_ && _); lia. Qed.

(** From a width of two columns on, the first character is never left for
    the continuation row: the rest is shorter than the text. *)
Lemma textSubstring_shorter (s : jstring) (start : Q) :
  (2 <= start)%Q -> s <> [] ->
  (length (utils.textSubstring s start None) < length s)%nat.
Proof.
  intros Hstart Hs. destruct s as [|c s]; [congruence|].
  unfold utils.textSubstring. cbn [foldl length].
  unfold utils.substring_round at 2.
  assert (Hdrop : Qlt_bool start (inject_Z (0 + utils.charLength c)) = false).
  { unfold Qlt_bool. apply negb_false_iff. apply Qle_bool_iff.
    apply (Qle_trans _ (inject_Z 2)); [|exact Hstart].
    rewrite <- Zle_Qle. pose proof (charLength_le_2 c). lia. }
  rewrite Hdrop. cbn [andb app].
  pose proof (substring_rounds_length start None s (0 + utils.charLength c) []) as H.
  cbn [length] in H. lia.
Qed.

Lemma cell_width_set_text bw w obj t rs :
  cell_width bw w (set_text obj t) rs = cell_width bw w obj rs.
Proof. reflexivity. Qed.

Lemma cell_width_only_width bw w obj rs :
  cell_width bw w obj rs
  = cell_width bw w obj
      {| cellWidth := cellWidth rs; leftoverSpace := 0; lineStr := [];
         secondLineEnabled := false; secondLine := []; heap := ∅ |}.
Proof. reflexivity. Qed.

(** What a pass keeps and what it shortens, when every width is at least
    two columns. *)
Lemma render_cells_progress cmd bw w (data : list nat) :
  forall rs r rs',
    (2 <= cellWidth rs)%Q ->
    store_wide_enough bw w (heap rs) ->
    render_cells cmd bw w data rs = (r, rs') ->
    store_wide_enough bw w (heap rs')
    /\ (forall l c', heap rs' !! l = Some c' ->
          exists c, heap rs !! l = Some c
                    /\ (length (text c') <= length (text c))%nat)
    /\ (forall l c', l ∈ data -> r = Ok tt -> heap rs' !! l = Some c' ->
          text c' = []
          \/ exists c, heap rs !! l = Some c
                       /\ (length (text c') < length (text c))%nat)
    /\ (secondLineEnabled rs' = true ->
        secondLineEnabled rs = true
        \/ exists l c, l ∈ data /\ heap rs !! l = Some c /\ text c <> []).
Proof.
  induction data as [|l data IH]; intros rs r rs' Hcw Hstore H;
    cbn [render_cells] in H.
  - inversion H; subst. repeat split; try assumption.
    + intros l c' Hc'. exists c'. split; [exact Hc' | lia].
    + intros l c' Hl. inversion Hl.
    + intros Hflag. left. exact Hflag.
  - destruct (heap rs !! l) as [obj|] eqn:Hobj.
    + set (rs1 := cell_step cmd bw w l obj rs) in *.
      set (cw := cell_width bw w obj rs).
      assert (Hcw1 : (2 <= cw)%Q).
      { unfold cw. rewrite cell_width_only_width. apply (Hstore l obj Hobj). exact Hcw. }
      assert (Hat : heap rs1 !! l
                    = Some (set_text obj
                              (if overflows cw obj
                               then utils.textSubstring (text obj) cw None else [])))
        by apply cell_step_heap_at.
      assert (Hother : forall l', l' <> l -> heap rs1 !! l' = heap rs !! l')
        by (intros; apply cell_step_heap_other; assumption).
      assert (Hstore1 : store_wide_enough bw w (heap rs1)).
      { intros l' obj' Hl'. destruct (decide (l' = l)) as [->|Hne].
        - rewrite Hat in Hl'. inversion Hl'; subst obj'.
          intros cw0 Hcw0. rewrite cell_width_set_text. apply (Hstore l obj Hobj). exact Hcw0.
        - rewrite Hother in Hl' by exact Hne. apply (Hstore l' obj' Hl'). }
      assert (Hmono1 : forall l' c1, heap rs1 !! l' = Some c1 ->
                 exists c, heap rs !! l' = Some c
                           /\ (length (text c1) <= length (text c))%nat).
      { intros l' c1 Hl'. destruct (decide (l' = l)) as [->|Hne].
        - rewrite Hat in Hl'. inversion Hl'; subst c1. exists obj.
          split; [exact Hobj|]. cbn [text set_text].
          destruct (overflows cw obj); [apply textSubstring_length | cbn; lia].
        - rewrite Hother in Hl' by exact Hne. exists c1. split; [exact Hl' | lia]. }
      apply IH in H;
        [| unfold rs1; rewrite cell_step_cellWidth; exact Hcw1 | exact Hstore1].
      destruct H as (Hstore' & Hmono & Hshort & Hflag).
      split; [exact Hstore'|]. split; [|split].
      * intros l' c' Hc'. destruct (Hmono l' c' Hc') as (c1 & Hc1 & Hle1).
        destruct (Hmono1 l' c1 Hc1) as (c & Hc & Hle). exists c. split; [exact Hc | lia].
      * intros l' c' Hl' Hr Hc'.
        destruct (decide (l' ∈ data)) as [Hin|Hnotin].
        -- destruct (Hshort l' c' Hin Hr Hc') as [Hnil | (c1 & Hc1 & Hlt)];
             [left; exact Hnil|].
           destruct (Hmono1 l' c1 Hc1) as (c & Hc & Hle).
           right. exists c. split; [exact Hc | lia].
        -- apply elem_of_cons in Hl'. destruct Hl' as [Heq | Hin]; [subst l'|contradiction].
           destruct (Hmono l c' Hc') as (c1 & Hc1 & Hle1).
           rewrite Hat in Hc1. inversion Hc1; subst c1. cbn [text set_text] in Hle1.
           destruct (overflows cw obj) eqn:Hov.
           ++ destruct (text c') as [|x t] eqn:Htext; [left; reflexivity|].
              right. exists obj. split; [exact Hobj|].
              assert (Hne : text obj <> []).
              { intros Hnil. rewrite Hnil in Hle1.
                unfold utils.textSubstring in Hle1. cbn in Hle1. lia. }
              pose proof (textSubstring_shorter (text obj) cw Hcw1 Hne). lia.
           ++ left. cbn [length] in Hle1. destruct (text c'); [reflexivity | cbn in Hle1; lia].
      * intros Hflag'. destruct (Hflag Hflag') as [Hflag1 | (l' & c1 & Hin & Hc1 & Hne1)].
        -- unfold rs1 in Hflag1. rewrite cell_step_flag in Hflag1. fold cw in Hflag1.
           apply orb_true_iff in Hflag1. destruct Hflag1 as [Hov | Hold]; [|left; exact Hold].
           right. exists l, obj. split; [left|]. split; [exact Hobj|].
           intros Hnil. unfold overflows in Hov. rewrite Hnil in Hov.
           unfold Qlt_bool in Hov. apply negb_true_iff in Hov.
           assert (Hle : Qle_bool (inject_Z (utils.textLength [])) cw = true).
           { apply Qle_bool_iff. eapply Qle_trans; [|exact Hcw1]. cbn. discriminate. }
           congruence.
        -- right. destruct (Hmono1 l' c1 Hc1) as (c & Hc & Hle).
           exists l', c. split; [right; exact Hin|]. split; [exact Hc|].
           intros Hnil. rewrite Hnil in Hle. destruct (text c1); [congruence | cbn in Hle; lia].
    + inversion H; subst. repeat split; try assumption.
      * intros l' c' Hc'. exists c'. split; [exact Hc' | lia].
      * intros l' c' _ Hr. discriminate.
      * intros Hflag. left. exact Hflag.
Qed.

(** X3. When every cell is at least two columns wide, [tableCustom] returns:
    a recursion as deep as the longest text of the row suffices. *)
Theorem tableCustom_returns (pf : Platform) (cmd : Commands) (fuel : nat) :
  forall (data : list nat) (options : option TableOptions) (this : Printer)
         (store : gmap nat Cell),
    let w := fst (t_size (default (default_table_options this) options)) in
    let baseWidth := width this / Z.pos w in
    (2 <= inject_Z (baseWidth / Z.of_nat (length data)))%Q ->
    store_wide_enough baseWidth w store ->
    (forall l c, l ∈ data -> store !! l = Some c -> (length (text c) <= fuel)%nat) ->
    exists res, tableCustom pf cmd (S fuel) data options this store = Some res.
Proof.
  induction fuel as [|fuel IH]; intros data options this store w baseWidth Hcw Hstore Hlen;
    rewrite tableCustom_S; cbv zeta; fold w;
    destruct (table_row cmd (width this) data w store) as [r rs] eqn:Hrow;
    unfold table_row in Hrow; fold baseWidth in Hrow;
    pose proof Hrow as Hprog;
    (apply render_cells_progress in Hprog; [|exact Hcw | exact Hstore]);
    destruct Hprog as (Hstore' & Hmono & Hshort & Hflag);
    pose proof (render_cells_spec cmd baseWidth w data _ r rs Hrow) as [_ Hspec];
    (destruct r as [[]|e]; [|eexists; reflexivity]);
    destruct (Hspec eq_refl) as [Hsecond _]; cbn [secondLine app] in Hsecond;
    (destruct (secondLineEnabled rs) eqn:Hen; [|eexists; reflexivity]);
    destruct (Hflag eq_refl) as [Hold | (l0 & c0 & Hin0 & Hc0 & Hne0)];
    try discriminate; cbn [heap] in Hc0;
    pose proof (Hlen l0 c0 Hin0 Hc0) as Hlen0.
  - destruct (text c0); [congruence | cbn in Hlen0; lia].
  - rewrite Hsecond. apply IH.
    + cbn [default]. exact Hcw.
    + cbn [default]. exact Hstore'.
    + intros l c' Hin Hc'.
      destruct (Hshort l c' Hin eq_refl Hc') as [Hnil | (c & Hc & Hlt)].
      * rewrite Hnil. cbn. lia.
      * cbn [heap] in Hc. pose proof (Hlen l c Hin Hc). lia.
Qed.

(** *** The lines of a table *)

(** A row in which no cell overflows makes one line. *)
Lemma tableCustom_fits_one_line (pf : Platform) (cmd : Commands) (fuel : nat)
    (data : list nat) (options : option TableOptions) (this : Printer)
    (store : gmap nat Cell) (rs : RowState) :
  let opts := default (default_table_options this) options in
  table_row cmd (width this) data (fst (t_size opts)) store = (Ok tt, rs) ->
  secondLineEnabled rs = false ->
  tableCustom pf cmd (S fuel) data options this store
  = Some (Ok tt,
          with_buffer this (buffer this ++ table_line pf cmd opts this (lineStr rs)),
          heap rs).
Proof.
  intros opts Hrow Hflag. rewrite tableCustom_S. cbv zeta. fold opts.
  rewrite Hrow, Hflag. reflexivity.
Qed.

(** ** The results above on concrete calls *)

Lemma codeLength_one_byte_witness :
  utils.codeLength Sample.platform (str "1234567890123456") = [16%N].
Proof.
  apply (codeLength_one_byte Sample.platform (str "1234567890123456")
           sample_decodes_ascii).
  simpl. lia.
Defined.

Lemma qrcode_qsprinter_emits_witness :
  qrcode Sample.platform Sample.commands (str "hi") VUndef VUndef VUndef
    Sample.qsprinter
  = (Ok tt,
     with_buffer Sample.qsprinter
       [27; 35; 35; 81; 80; 73; 88; 12;
        29; 40; 107; 3; 0; 49; 67; 3;
        29; 40; 107; 3; 0; 49; 69; 52; 56;
        29; 40; 107; 5; 0; 49; 80; 48; 104; 105;
        29; 40; 107; 5; 0; 49; 81; 48]%N).
Proof.
  apply (qrcode_qsprinter_emits Sample.platform Sample.commands (str "hi")
           VUndef VUndef VUndef Sample.qsprinter eq_refl eq_refl);
    vm_compute; split; discriminate.
Defined.

Lemma tableCustom_returns_witness :
  exists res,
    tableCustom Sample.platform Sample.commands 26 [0%nat; 1%nat] None
      Sample.printer16 Sample.row_store = Some res.
Proof.
  apply (tableCustom_returns Sample.platform Sample.commands 25 [0%nat; 1%nat] None
           Sample.printer16 Sample.row_store).
  - vm_compute. discriminate.
  - intros l obj Hl cw Hcw. unfold Sample.row_store in Hl.
    apply lookup_insert_Some in Hl.
    destruct Hl as [[_ <-] | [_ Hl]]; [exact Hcw|].
    apply lookup_singleton_Some in Hl. destruct Hl as [_ <-]. exact Hcw.
  - intros l c _ Hl. unfold Sample.row_store in Hl.
    apply lookup_insert_Some in Hl.
    destruct Hl as [[_ <-] | [_ Hl]]; [vm_compute; lia|].
    apply lookup_singleton_Some in Hl. destruct Hl as [_ <-]. vm_compute. lia.
Defined.

(** * Further properties of the encoder *)

(** ** Display widths ([charLength], [textLength], [textSubstring]) *)

Lemma charLength_ge_1 (c : N) : 1 <= utils.charLength c.
Proof. unfold utils.charLength. destruct (_ && _); lia. Qed.

Lemma textLength_fold (s : jstring) (a : Z) :
  foldl (fun accLen char => accLen + utils.charLength char) a s
  = a + utils.textLength s.
Proof.
  unfold utils.textLength. revert a.
  induction s as [|c s IH]; intros a; cbn [foldl]; [lia|].
  rewrite (IH (a + _)), (IH (0 + _)). lia.
Qed.

Lemma textLength_cons (c : N) (s : jstring) :
  utils.textLength (c :: s) = utils.charLength c + utils.textLength s.
Proof.
  unfold utils.textLength at 1. cbn [foldl]. rewrite textLength_fold. lia.
Qed.

Lemma textLength_app (a b : jstring) :
  utils.textLength (a ++ b) = utils.textLength a + utils.textLength b.
Proof.
  induction a as [|c a IH]; [reflexivity|].
  cbn [app]. rewrite !textLength_cons, IH. lia.
Qed.

Lemma textLength_nonneg (s : jstring) : 0 <= utils.textLength s.
Proof.
  induction s as [|c s IH]; [reflexivity|].
  rewrite textLength_cons. pose proof (charLength_ge_1 c). lia.
Qed.

Lemma textLength_replicate_space (n : nat) :
  utils.textLength (replicate n 32%N) = Z.of_nat n.
Proof.
  induction n as [|n IH]; [reflexivity|].
  cbn [replicate]. rewrite textLength_cons, IH.
  change (utils.charLength 32) with 1. lia.
Qed.

Lemma textLength_columns_bounds (s : jstring) :
  Z.of_nat (length s) <= utils.textLength s <= 2 * Z.of_nat (length s).
Proof.
  induction s as [|c s IH]; [cbn; lia|].
  rewrite textLength_cons. cbn [length].
  pose proof (charLength_ge_1 c). pose proof (charLength_le_2 c). lia.
Qed.

(** X6. The display width of a text is the sum of the widths of its
    parts; it counts one or two columns for every UTF-16 code unit, and
    exactly one for every code unit of an ASCII text. *)
Theorem textLength_columns (a b : jstring) :
  utils.textLength (a ++ b) = utils.textLength a + utils.textLength b
  /\ Z.of_nat (length a) <= utils.textLength a <= 2 * Z.of_nat (length a)
  /\ (Forall (fun c => (c <= 0x7f)%N) a -> utils.textLength a = Z.of_nat (length a)).
Proof.
  split; [apply textLength_app|]. split.
  - apply textLength_columns_bounds.
  - induction 1 as [|c a Hc _ IH]; [reflexivity|].
    rewrite textLength_cons, IH. cbn [length].
    unfold utils.charLength.
    replace (0x7f <? c)%N with false by (symmetry; apply N.ltb_ge; exact Hc).
    cbn [andb]. lia.
Qed.

Lemma textLength_columns_witness :
  utils.textLength (str "ab" ++ [0x4E2D%N]) = 2 + 2
  /\ utils.textLength (str "ab") = 2.
Proof.
  destruct (textLength_columns (str "ab") [0x4E2D%N]) as (Happ & _ & Hascii).
  split.
  - rewrite Happ. reflexivity.
  - apply Hascii. repeat constructor; cbn; lia.
Defined.

(** *** The two parts that an overflowing cell is cut into *)

Lemma substring_round_acc (start : Q) (e : option Q) (s : jstring) :
  forall (a : Z) (acc : jstring),
    snd (foldl (utils.substring_round start e) (a, acc) s)
    = acc ++ snd (foldl (utils.substring_round start e) (a, []) s).
Proof.
  induction s as [|c s IH]; intros a acc; cbn [foldl snd].
  - rewrite app_nil_r. reflexivity.
  - unfold utils.substring_round at 2 4. cbv beta iota.
    rewrite IH. rewrite (IH _ ([] ++ _)). cbn [app].
    rewrite app_assoc. reflexivity.
Qed.

(** One round on an empty accumulator. *)
Lemma substring_round_cons (start : Q) (e : option Q) (c : N) (s : jstring) (a : Z) :
  snd (foldl (utils.substring_round start e) (a, []) (c :: s))
  = (if Qlt_bool start (inject_Z (a + utils.charLength c))
        && (utils.not_end e
            || match e with
               | Some q => Qle_bool (inject_Z (a + utils.charLength c)) q
               | None => false
               end)
     then [c] else [])
    ++ snd (foldl (utils.substring_round start e) (a + utils.charLength c, []) s).
Proof.
  cbn [foldl]. unfold utils.substring_round at 2. cbv beta iota.
  rewrite substring_round_acc. reflexivity.
Qed.

Lemma Qlt_bool_true (a b : Q) : (a < b)%Q -> Qlt_bool a b = true.
Proof.
  intros H. unfold Qlt_bool. apply negb_true_iff.
  destruct (Qle_bool b a) eqn:E; [|reflexivity].
  apply Qle_bool_iff in E. exfalso. apply (Qlt_not_le _ _ H E).
Qed.

Lemma Qlt_bool_false (a b : Q) : (b <= a)%Q -> Qlt_bool a b = false.
Proof.
  intros H. unfold Qlt_bool. apply negb_false_iff. apply Qle_bool_iff. exact H.
Qed.

Lemma Qle_bool_false (a b : Q) : (b < a)%Q -> Qle_bool a b = false.
Proof.
  intros H. destruct (Qle_bool a b) eqn:E; [|reflexivity].
  apply Qle_bool_iff in E. exfalso. apply (Qlt_not_le _ _ H E).
Qed.

(** Past the end, nothing is kept of the first part. *)
Lemma substring_head_past (w : Q) (s : jstring) :
  forall a : Z,
    (w < inject_Z a)%Q ->
    Qeq_bool w 0 = false ->
    snd (foldl (utils.substring_round 0 (Some w)) (a, []) s) = [].
Proof.
  induction s as [|c s IH]; intros a Ha Hw; [reflexivity|].
  rewrite substring_round_cons. cbn [utils.not_end]. rewrite Hw.
  assert (Ha' : (w < inject_Z (a + utils.charLength c))%Q).
  { eapply Qlt_le_trans; [exact Ha|]. rewrite <- Zle_Qle.
    pose proof (charLength_ge_1 c). lia. }
  rewrite (Qle_bool_false _ _ Ha'), andb_false_r. cbn [app orb].
  apply IH; assumption.
Qed.

(** From the start on, everything is kept of the second part. *)
Lemma substring_tail_from (w : Q) (s : jstring) :
  forall a : Z,
    (w <= inject_Z a)%Q ->
    snd (foldl (utils.substring_round w None) (a, []) s) = s.
Proof.
  induction s as [|c s IH]; intros a Ha; [reflexivity|].
  rewrite substring_round_cons. cbn [utils.not_end orb].
  assert (Ha' : (w < inject_Z (a + utils.charLength c))%Q).
  { eapply Qle_lt_trans; [exact Ha|]. rewrite <- Zlt_Qlt.
    pose proof (charLength_ge_1 c). lia. }
  rewrite (Qlt_bool_true _ _ Ha'). cbn [andb app]. f_equal.
  apply IH. apply Qlt_le_weak. exact Ha'.
Qed.

Lemma substring_split (w : Q) (s : jstring) :
  forall a : Z,
    0 <= a ->
    Qeq_bool w 0 = false ->
    snd (foldl (utils.substring_round 0 (Some w)) (a, []) s)
      ++ snd (foldl (utils.substring_round w None) (a, []) s) = s
    /\ ((inject_Z a <= w)%Q ->
        (inject_Z (a + utils.textLength
                         (snd (foldl (utils.substring_round 0 (Some w)) (a, []) s)))
         <= w)%Q).
Proof.
  induction s as [|c s IH]; intros a Ha Hw.
  - split; [reflexivity|]. cbn [foldl snd]. change (utils.textLength []) with 0.
    rewrite Z.add_0_r. auto.
  - rewrite !substring_round_cons. cbn [utils.not_end orb]. rewrite Hw. cbn [orb].
    pose proof (charLength_ge_1 c) as Hc.
    assert (Hpos : Qlt_bool 0 (inject_Z (a + utils.charLength c)) = true).
    { apply Qlt_bool_true. change 0%Q with (inject_Z 0). rewrite <- Zlt_Qlt. lia. }
    rewrite Hpos. cbn [andb].
    destruct (Qle_bool (inject_Z (a + utils.charLength c)) w) eqn:Hle.
    + assert (Hin : (inject_Z (a + utils.charLength c) <= w)%Q)
        by (apply Qle_bool_iff; exact Hle).
      rewrite (Qlt_bool_false _ _ Hin). cbn [andb app].
      destruct (IH (a + utils.charLength c) ltac:(lia) Hw) as [IH1 IH2].
      split; [f_equal; exact IH1|].
      intros _. rewrite textLength_cons.
      replace (a + (utils.charLength c + _))
        with (a + utils.charLength c
              + utils.textLength
                  (snd (foldl (utils.substring_round 0 (Some w))
                          (a + utils.charLength c, []) s))) by lia.
      apply IH2. exact Hin.
    + assert (Hout : (w < inject_Z (a + utils.charLength c))%Q).
      { apply Qnot_le_lt. intros H. apply Qle_bool_iff in H. congruence. }
      rewrite (Qlt_bool_true _ _ Hout). cbn [andb app].
      rewrite substring_head_past by assumption.
      rewrite substring_tail_from by (apply Qlt_le_weak; exact Hout).
      split; [reflexivity|].
      intros H. change (utils.textLength []) with 0. rewrite Z.add_0_r. exact H.
Qed.

(** X7. The part of a text that fits in a width and the part that is
    left for the continuation row make up the text, in this order: no
    character is lost and none is repeated; and the first part is at most
    as wide as the width. A width of zero is taken as no width at all: the
    first part is then the whole text. *)
Theorem textSubstring_splits (s : jstring) (w : Q) :
  (~ (w == 0)%Q ->
   utils.textSubstring s 0 (Some w) ++ utils.textSubstring s w None = s
   /\ ((0 < w)%Q ->
       (inject_Z (utils.textLength (utils.textSubstring s 0 (Some w))) <= w)%Q))
  /\ ((w == 0)%Q -> utils.textSubstring s 0 (Some w) = s).
Proof.
  split.
  - intros Hw.
    assert (Hw' : Qeq_bool w 0 = false).
    { destruct (Qeq_bool w 0) eqn:E; [|reflexivity].
      apply Qeq_bool_iff in E. contradiction. }
    destruct (substring_split w s 0 ltac:(lia) Hw') as [H1 H2].
    split; [exact H1|].
    intros Hpos. apply H2. apply Qlt_le_weak. exact Hpos.
  - intros Hw. unfold utils.textSubstring.
    assert (Hw' : Qeq_bool w 0 = true) by (apply Qeq_bool_iff; exact Hw).
    assert (H : forall a, 0 <= a ->
                snd (foldl (utils.substring_round 0 (Some w)) (a, []) s) = s).
    { induction s as [|c s IH]; intros a Ha; [reflexivity|].
      rewrite substring_round_cons. cbn [utils.not_end]. rewrite Hw'. cbn [orb].
      pose proof (charLength_ge_1 c) as Hc.
      rewrite Qlt_bool_true
        by (change 0%Q with (inject_Z 0); rewrite <- Zlt_Qlt; lia).
      cbn [andb app]. f_equal. apply IH. lia. }
    apply H. lia.
Qed.

Lemma textSubstring_splits_witness :
  utils.textSubstring (str "hello world") 0 (Some 8%Q)
    ++ utils.textSubstring (str "hello world") 8%Q None = str "hello world"
  /\ (inject_Z (utils.textLength (utils.textSubstring (str "hello world") 0 (Some 8%Q)))
      <= 8)%Q
  /\ utils.textSubstring (str "hello world") 0 (Some 0%Q) = str "hello world".
Proof.
  destruct (textSubstring_splits (str "hello world") 8%Q) as [H _].
  destruct (H ltac:(discriminate)) as [H1 H2].
  destruct (textSubstring_splits (str "hello world") 0%Q) as [_ H0].
  split; [exact H1|]. split; [apply H2; reflexivity|]. apply H0. reflexivity.
Defined.

(** ** The checksum digit of a payload that is not a number *)

Lemma parity_loop_NaN (l : jstring) (i : nat) :
  utils.parseInt1 (l !! i) = None ->
  forall n, (i < n)%nat ->
    for_loop n
      (fun counter parity =>
         p ← parity;
         d ← utils.parseInt1 (l !! counter);
         Some (p + d * utils.pow3 ((counter + 1) mod 2)))
      (Some 0) = None.
Proof.
  intros Hi n. induction n as [|n IH]; intros Hn; [lia|].
  rewrite for_loop_S.
  destruct (decide (i = n)) as [->|Hne].
  - rewrite Hi. destruct (for_loop n _ _); reflexivity.
  - rewrite IH by lia. reflexivity.
Qed.

(** X8. [getParityBit] does not check that its argument is made of
    digits: as soon as one character is not a decimal digit the result is
    the three characters NaN, and for the empty string it is the digit
    0. *)
Theorem getParityBit_not_a_number (s : jstring) :
  (~ Forall is_digit s -> utils.getParityBit s = str "NaN")
  /\ utils.getParityBit [] = str "0".
Proof.
  split; [|reflexivity].
  intros Hs. apply not_Forall_Exists in Hs; [|intros c; unfold is_digit; apply _].
  apply Exists_exists in Hs. destruct Hs as (c & Hin & Hc).
  apply elem_of_reverse in Hin.
  apply list_elem_of_lookup in Hin. destruct Hin as [i Hi].
  unfold utils.getParityBit, utils.parity_loop.
  rewrite (parity_loop_NaN (reverse s) i); [reflexivity| |].
  - rewrite Hi. unfold utils.parseInt1.
    destruct ((48 <=? c)%N && (c <=? 57)%N) eqn:E; [|reflexivity].
    exfalso. apply Hc. apply andb_true_iff in E. destruct E as [E1 E2].
    apply N.leb_le in E1, E2. unfold is_digit. lia.
  - apply lookup_lt_Some in Hi. exact Hi.
Qed.

Lemma getParityBit_not_a_number_witness :
  utils.getParityBit (str "40063813339x") = str "NaN".
Proof.
  apply (getParityBit_not_a_number (str "40063813339x")).
  intros H. apply Forall_forall with (x := 120%N) in H.
  - unfold is_digit in H. lia.
  - apply list_elem_of_In. cbn. tauto.
Defined.

(** ** The clamping of the qsprinter options *)

(** X9. [clamp] always gives a value of the range when the default is in
    the range; a number of the range other than 0 is kept; 0, like a
    missing option, gives the default. *)
Theorem clamp_in_range (v : value) (dflt mn mx : Z) :
  (mn <= dflt <= mx -> mn <= clamp v dflt mn mx <= mx)
  /\ (forall n, n <> 0 -> mn <= n <= mx -> clamp (VNum n) dflt mn mx = n)
  /\ clamp (VNum 0) dflt mn mx = dflt
  /\ clamp VUndef dflt mn mx = dflt.
Proof.
  split; [|split; [|split; reflexivity]].
  - intros Hd. unfold clamp.
    destruct v as [| |b|n|s|o]; cbn [truthy typeof_number negb orb andb];
      try lia.
    + destruct b; cbn; lia.
    + destruct (n =? 0) eqn:E0; cbn [negb orb andb]; [lia|].
      destruct (n <? mn) eqn:E1; [lia|]. destruct (mx <? n) eqn:E2; lia.
    + destruct s; cbn; lia.
  - intros n Hn Hr. unfold clamp. cbn [truthy typeof_number].
    replace (n =? 0) with false by (symmetry; apply Z.eqb_neq; exact Hn).
    cbn [negb orb andb].
    replace (n <? mn) with false by (symmetry; apply Z.ltb_ge; lia).
    replace (mx <? n) with false by (symmetry; apply Z.ltb_ge; lia).
    reflexivity.
Qed.

Lemma clamp_in_range_witness :
  1 <= clamp (VNum 99) 12 1 24 <= 24 /\ clamp (VNum 7) 12 1 24 = 7.
Proof.
  destruct (clamp_in_range (VNum 99) 12 1 24) as (H1 & H2 & _).
  split; [apply H1; lia | apply H2; lia].
Defined.

(** ** The image: its mask and the size of its projections *)

Lemma bits_value_byte (f : nat -> bool) : 0 <= bits_value f <= 255.
Proof.
  unfold bits_value, bit_of.
  destruct (f 0%nat), (f 1%nat), (f 2%nat), (f 3%nat),
    (f 4%nat), (f 5%nat), (f 6%nat), (f 7%nat);
    vm_compute; split; discriminate.
Qed.

Lemma Forall_flat_map_seq {A : Type} (P : A -> Prop) (chunk : nat -> list A) (n : nat) :
  (forall i, (i < n)%nat -> Forall P (chunk i)) ->
  Forall P (flat_map chunk (seq 0 n)).
Proof.
  intros H. induction n as [|n IH]; [constructor|].
  rewrite seq_S, flat_map_app. apply Forall_app. split.
  - apply IH. intros i Hi. apply H. lia.
  - cbn [flat_map Nat.add]. rewrite app_nil_r. apply H. lia.
Qed.

Lemma raster_row_bytes (img : PrintImage) (y : nat) : Forall is_byte (raster_row img y).
Proof.
  unfold raster_row. apply Forall_flat_map_seq. intros x _.
  repeat constructor. eexists. split; [reflexivity|]. apply bits_value_byte.
Qed.

Lemma bitmap_line_bytes (img : PrintImage) (density y : nat) :
  Forall is_byte (bitmap_line img density y).
Proof.
  unfold bitmap_line, bitmap_column.
  apply Forall_flat_map_seq. intros x _.
  apply Forall_flat_map_seq. intros j _.
  repeat constructor. eexists. split; [reflexivity|]. apply bits_value_byte.
Qed.

(** X10. The raster of an image has one byte for every eight dots of a
    row, the last byte of a row padded, and a row for every row of the
    image: [width] is the number of bytes of a row, [height] the number of
    rows, and [data] holds exactly [height * width] entries, each of them
    a byte (no hole, no value above 255), whatever the mask. *)
Theorem toRaster_shape (img : PrintImage) :
  r_width (toRaster img) = ((s_width (size img) + 7) / 8)%nat
  /\ r_height (toRaster img) = s_height (size img)
  /\ length (r_data (toRaster img))
     = (r_height (toRaster img) * r_width (toRaster img))%nat
  /\ Forall is_byte (r_data (toRaster img)).
Proof.
  split; [reflexivity|]. split; [reflexivity|].
  rewrite toRaster_data. split.
  - apply length_flat_map_const. intros y _. apply length_raster_row.
  - apply Forall_flat_map_seq. intros y _. apply raster_row_bytes.
Qed.

(** X11. The bitmap of an image, for a density that is a positive
    multiple of 8, has a line for every block of [density] rows, the last
    block padded; every line is there and has [density / 8] bytes for each
    column of the image, each of them a byte. *)
Theorem toBitmap_shape (img : PrintImage) (density : nat) :
  (0 < density)%nat -> (density mod 8 = 0)%nat ->
  bm_density (toBitmap img density) = density
  /\ length (bm_data (toBitmap img density))
     = ((s_height (size img) + density - 1) / density)%nat
  /\ Forall (fun o => exists line,
                 o = Some line
                 /\ length line = (s_width (size img) * (density / 8))%nat
                 /\ Forall is_byte line)
       (bm_data (toBitmap img density)).
Proof.
  intros _ Hd. split; [reflexivity|].
  rewrite toBitmap_data by exact Hd. split.
  - rewrite (length_flat_map_const _ 1) by reflexivity. lia.
  - apply Forall_flat_map_seq. intros y _. repeat constructor.
    eexists. split; [reflexivity|]. split.
    + apply length_bitmap_line.
    + apply bitmap_line_bytes.
Qed.

Lemma toBitmap_shape_witness :
  length (bm_data (toBitmap Sample.grid 8)) = 1%nat
  /\ Forall (fun o => exists line,
                 o = Some line /\ length line = 3%nat /\ Forall is_byte line)
       (bm_data (toBitmap Sample.grid 8)).
Proof.
  destruct (toBitmap_shape Sample.grid 8 ltac:(lia) eq_refl) as (_ & H1 & H2).
  split; [exact H1 | exact H2].
Defined.

(** *** The constructor *)

Lemma new_PrintImage_data (px : Pixels) (img : PrintImage) :
  new_PrintImage px = Some img ->
  let c := snd (px_shape px) in
  pixels img = px
  /\ data img
     = map (fun k => let chunk := map (fun b => px_data px !! (k * c + b)%nat) (seq 0 c) in
                     ne0 (mjoin (chunk !! 3%nat)) && gt200 (mjoin (chunk !! 0%nat))
                     && gt200 (mjoin (chunk !! 1%nat)) && gt200 (mjoin (chunk !! 2%nat)))
         (seq 0 ((length (px_data px) + c - 1) / c)).
Proof.
  intros H c. unfold new_PrintImage in H. fold c in H.
  destruct ((c =? 0)%nat && negb (length (px_data px) =? 0)%nat); [discriminate|].
  inversion H; subst img; clear H. cbn [pixels data]. split; [reflexivity|].
  rewrite (for_loop_append _ _
             (fun k => [map (fun b => px_data px !! (k * c + b)%nat) (seq 0 c)]))
    by reflexivity.
  cbn [app]. generalize (seq 0 ((length (px_data px) + c - 1) / c)).
  intros l. induction l as [|k l IH]; [reflexivity|].
  cbn [flat_map app map]. rewrite IH. reflexivity.
Qed.

(** X12. For a pixel source with at least four channels for a pixel, the
    constructor returns an image whose mask has one entry for each pixel
    of the data (a last pixel that is cut short included); the entry is
    set exactly when the alpha of the pixel is not 0 and its red, green
    and blue are all above 200. When the data holds [w * h] pixels, the
    mask has [h * w] entries. *)
Theorem new_PrintImage_mask (px : Pixels) (w h c : nat) :
  px_shape px = (w, h, c) -> (4 <= c)%nat ->
  exists img,
    new_PrintImage px = Some img
    /\ pixels img = px
    /\ length (data img) = ((length (px_data px) + c - 1) / c)%nat
    /\ (forall k, (k < (length (px_data px) + c - 1) / c)%nat ->
          data img !! k = Some (marked px c k))
    /\ (length (px_data px) = (w * h * c)%nat -> length (data img) = (h * w)%nat).
Proof.
  intros Hshape Hc.
  assert (Hsnd : snd (px_shape px) = c) by (rewrite Hshape; reflexivity).
  destruct (new_PrintImage px) as [img|] eqn:Hnew.
  2:{ unfold new_PrintImage in Hnew. rewrite Hsnd in Hnew.
      replace (c =? 0)%nat with false in Hnew
        by (symmetry; apply Nat.eqb_neq; lia).
      discriminate. }
  exists img. split; [reflexivity|].
  destruct (new_PrintImage_data px img Hnew) as [Hpx Hdata].
  rewrite Hsnd in Hdata.
  split; [exact Hpx|].
  assert (Hlen : length (data img) = ((length (px_data px) + c - 1) / c)%nat)
    by (rewrite Hdata, length_map, length_seq; reflexivity).
  split; [exact Hlen|]. split.
  - intros k Hk. rewrite Hdata, list_lookup_fmap, lookup_seq_lt by exact Hk.
    cbn [fmap option_fmap option_map Nat.add]. f_equal. unfold marked.
    rewrite !list_lookup_fmap, !lookup_seq_lt by lia.
    cbn [fmap option_fmap option_map Nat.add mjoin option_join].
    rewrite Nat.add_0_r. reflexivity.
  - intros Hfull. rewrite Hlen, Hfull.
    replace (w * h * c + c - 1)%nat with (c - 1 + (h * w) * c)%nat by lia.
    rewrite Nat.div_add by lia. rewrite Nat.div_small by lia. lia.
Qed.

Lemma new_PrintImage_mask_witness :
  exists img,
    new_PrintImage SampleMore.rgba = Some img
    /\ length (data img) = 4%nat
    /\ data img !! 0%nat = Some true
    /\ data img !! 1%nat = Some false
    /\ data img !! 2%nat = Some false
    /\ data img !! 3%nat = Some true.
Proof.
  destruct (new_PrintImage_mask SampleMore.rgba 2 2 4 eq_refl ltac:(lia))
    as (img & Hnew & _ & Hlen & Hk & _).
  exists img. split; [exact Hnew|]. split; [exact Hlen|].
  split; [|split; [|split]].
  - exact (Hk 0%nat ltac:(simpl; lia)).
  - exact (Hk 1%nat ltac:(simpl; lia)).
  - exact (Hk 2%nat ltac:(simpl; lia)).
  - exact (Hk 3%nat ltac:(simpl; lia)).
Defined.

(** ** Raster emission ([raster]) *)

(** X13. For every image whose rows take at most 65535 bytes and that
    has at most 65535 rows, and every mode, [raster] returns and appends
    the header of the mode (the spellings DHDW, DWH and DHW standing for
    DWDH), the number of bytes of a row and the number of rows as
    little-endian 16-bit integers, and the rows; the bytes that follow the
    two integers are as many as their product. *)
Theorem raster_emits (cmd : Commands) (img : PrintImage) (mode : option jstring) :
  Z.of_nat ((s_width (size img) + 7) / 8) <= 65535 ->
  Z.of_nat (s_height (size img)) <= 65535 ->
  appends (raster cmd (ImageObject img) mode) (raster_stream cmd img mode)
  /\ length (line_bytes (flat_map (raster_row img) (seq 0 (s_height (size img)))))
     = (s_height (size img) * ((s_width (size img) + 7) / 8))%nat.
Proof.
  intros Hw Hh. split.
  - unfold raster, raster_stream. fold (raster_mode mode).
    rewrite toRaster_data.
    change (r_width (toRaster img)) with ((s_width (size img) + 7) / 8)%nat.
    change (r_height (toRaster img)) with (s_height (size img)).
    unfold entry_bytes, u16le, line_bytes.
    apply appends_seq; [apply appends_write_entry|].
    apply appends_seq; [apply appends_writeUInt16LE; lia|].
    apply appends_seq; [apply appends_writeUInt16LE; lia|].
    apply appends_write_Array.
  - unfold line_bytes. rewrite length_map.
    apply length_flat_map_const. intros y _. apply length_raster_row.
Qed.

Lemma raster_emits_witness :
  raster Sample.commands (ImageObject Sample.grid) (Some (str "dwh")) Sample.printer
  = (Ok tt, with_buffer Sample.printer [29; 118; 48; 3; 1; 0; 2; 0; 160; 96]%N).
Proof.
  exact (proj1 (raster_emits Sample.commands Sample.grid (Some (str "dwh"))
                  ltac:(simpl; lia) ltac:(simpl; lia)) Sample.printer).
Defined.

(** ** The 2D code of the other models ([qrcode]) *)

Lemma bind_appends {B : Type} (m : M unit) (bs : list N) (k : unit -> M B) (p : Printer) :
  appends m bs -> bind m k p = k tt (with_buffer p (buffer p ++ bs)).
Proof. intros H. unfold bind. rewrite H. reflexivity. Qed.

Lemma appends_writeUInt8_value (pf : Platform) (v : value) :
  uint8_ok pf v -> appends (writeUInt8_value pf v) [uint8_byte pf v].
Proof.
  unfold uint8_ok, uint8_byte, writeUInt8_value. intros H.
  destruct (ToNumber pf v) as [[n|]|]; [| |contradiction];
    cbn [convert]; rewrite bind_ret_l.
  - apply appends_writeUInt8. exact H.
  - apply appends_bytes.
Qed.

Lemma utf8_encode_ascii (s : jstring) :
  Forall (fun c => (c < 128)%N) s -> utf8_encode s = s.
Proof.
  induction 1 as [|c s Hc _ IH]; [reflexivity|].
  cbn [utf8_encode]. unfold is_high_surrogate, is_low_surrogate, utf8_code_point.
  replace (0xD800 <=? c)%N with false by (symmetry; apply N.leb_gt; lia).
  replace (0xDC00 <=? c)%N with false by (symmetry; apply N.leb_gt; lia).
  replace (c <? 0x80)%N with true by (symmetry; apply N.ltb_lt; lia).
  cbn [andb app]. rewrite IH. reflexivity.
Qed.

(** X14. On a session whose model is not qsprinter, when the level, if
    given, is a string, the version and the size are bytes and the content
    has at most 65535 UTF-16 code units, [qrcode] returns and appends the
    preamble (type, 2D-code command, version, level, size), the number of
    code units of the content as a little-endian 16-bit integer, and the
    content in UTF-8. That integer is the number of bytes that follow it
    when the content is ASCII. *)
Theorem qrcode_emits (pf : Platform) (cmd : Commands) (content : jstring)
    (version level size : value) (p : Printer) :
  is_model (_model p) "qsprinter" = false ->
  optional_string level = true ->
  uint8_ok pf (or_else version (VNum 3)) ->
  uint8_ok pf (or_else size (VNum 6)) ->
  Z.of_nat (length content) <= 65535 ->
  qrcode pf cmd content version level size p
  = (Ok tt, with_buffer p (buffer p ++ qrcode_stream pf cmd content version level size))
  /\ (Forall (fun c => (c < 128)%N) content ->
      length (utf8_encode content) = length content).
Proof.
  intros Hmodel Hlevel Hversion Hsize Hlen.
  split; [|intros Hascii; rewrite utf8_encode_ascii by exact Hascii; reflexivity].
  destruct (or_else_string level (str "L") Hlevel) as [lv Hlv].
  unfold qrcode, qrcode_stream, qrcode_preamble, level_key. rewrite Hlv.
  unfold bind at 1. cbn [get_model]. rewrite Hmodel. cbn [negb].
  cbn [upperCase_value]. rewrite bind_ret_l.
  match goal with
  | |- ?m p = _ => eassert (Ha : appends m _)
  end.
  { repeat (apply appends_seq;
            [solve [auto with appends
                   | apply appends_writeUInt8_value; assumption
                   | apply appends_writeUInt16LE; lia] |]).
    auto with appends. }
  rewrite (Ha p). do 3 f_equal. unfold entry_bytes, u16le.
  rewrite <- ?app_assoc. reflexivity.
Qed.

Lemma qrcode_emits_witness :
  qrcode Sample.platform Sample.commands (str "hi") VUndef (VStr (str "m")) VUndef
    Sample.printer
  = (Ok tt,
     with_buffer Sample.printer [29; 90; 2; 27; 90; 3; 77; 6; 2; 0; 104; 105]%N)
  /\ length (utf8_encode (str "hi")) = length (str "hi").
Proof.
  destruct (qrcode_emits Sample.platform Sample.commands (str "hi") VUndef
              (VStr (str "m")) VUndef Sample.printer eq_refl eq_refl
              ltac:(vm_compute; split; discriminate)
              ltac:(vm_compute; split; discriminate)
              ltac:(simpl; lia)) as [H1 H2].
  split; [exact H1|]. apply H2. repeat constructor.
Defined.

(** X15. The same call with a content of more than 65535 code units
    fails with the RangeError of the 16-bit writer, and the preamble that
    was written before the length stays in the output stream: an error
    that the driver does not throw itself leaves a command cut short. *)
Theorem qrcode_too_long_keeps_preamble (pf : Platform) (cmd : Commands)
    (content : jstring) (version level size : value) (p : Printer) :
  is_model (_model p) "qsprinter" = false ->
  optional_string level = true ->
  uint8_ok pf (or_else version (VNum 3)) ->
  uint8_ok pf (or_else size (VNum 6)) ->
  65535 < Z.of_nat (length content) ->
  qrcode pf cmd content version level size p
  = (Throw RangeError,
     with_buffer p (buffer p ++ qrcode_preamble pf cmd version level size)).
Proof.
  intros Hmodel Hlevel Hversion Hsize Hlen.
  destruct (or_else_string level (str "L") Hlevel) as [lv Hlv].
  unfold qrcode, qrcode_preamble, level_key. rewrite Hlv.
  unfold bind at 1. cbn [get_model]. rewrite Hmodel. cbn [negb].
  cbn [upperCase_value]. rewrite bind_ret_l.
  erewrite bind_appends by apply appends_write.
  erewrite bind_appends by apply appends_write.
  erewrite bind_appends by (apply appends_writeUInt8_value; exact Hversion).
  erewrite bind_appends by apply appends_write_entry.
  erewrite bind_appends by (apply appends_writeUInt8_value; exact Hsize).
  unfold bind, writeUInt16LE.
  replace (Z.of_nat (length content) <=? 65535) with false
    by (symmetry; apply Z.leb_gt; exact Hlen).
  rewrite andb_false_r. cbn [throw with_buffer buffer].
  unfold with_buffer. cbn [buffer options encoding width _model].
  unfold entry_bytes. rewrite <- ?app_assoc. reflexivity.
Qed.

Lemma qrcode_too_long_keeps_preamble_witness :
  qrcode Sample.platform Sample.commands (replicate (Z.to_nat 65536) 65%N)
    VUndef VUndef VUndef Sample.printer
  = (Throw RangeError,
     with_buffer Sample.printer
       (qrcode_preamble Sample.platform Sample.commands VUndef VUndef VUndef)).
Proof.
  apply (qrcode_too_long_keeps_preamble Sample.platform Sample.commands
           (replicate (Z.to_nat 65536) 65%N) VUndef VUndef VUndef Sample.printer
           eq_refl eq_refl).
  - vm_compute. split; discriminate.
  - vm_compute. split; discriminate.
  - rewrite length_replicate, Z2Nat.id; lia.
Defined.

(** ** The bytes of a barcode ([barcode]) *)

(** X16. With an options object, text options that are strings when
    given, a width and a height that convert (the width need not for the
    qsprinter model, which does not read it), a symbology that is a string
    and, for EAN13 and EAN8, a payload of 12 and of 7 characters, [barcode]
    returns and appends: for the qsprinter model the mode-on command; for
    the other models the width; the height; for the other models the font;
    the position of the text; the symbology; the payload with its length
    prefix for CODE128 and CODE93 and its checksum digit for EAN13 and
    EAN8, closed by NUL; for the qsprinter model the mode-off command. *)
Theorem barcode_emits (pf : Platform) (cmd : Commands) (code ty : jstring)
    (optionsOrLegacy : list value) (p : Printer) :
  typeof_object (arg optionsOrLegacy 0) = true ->
  optional_string (arg optionsOrLegacy 2) = true ->
  optional_string (arg optionsOrLegacy 3) = true ->
  is_model (_model p) "qsprinter" = true \/ convertible (arg optionsOrLegacy 0) = true ->
  convertible (arg optionsOrLegacy 1) = true ->
  (ty = str "EAN13" -> length code = 12%nat) ->
  (ty = str "EAN8" -> length code = 7%nat) ->
  barcode pf cmd code (VStr ty) optionsOrLegacy p
  = (Ok tt,
     with_buffer p
       (buffer p ++ barcode_stream pf cmd (is_model (_model p) "qsprinter")
                      code ty optionsOrLegacy)).
Proof. exact (barcode_run pf cmd code ty optionsOrLegacy p). Qed.

Lemma barcode_emits_witness :
  barcode Sample.platform Sample.commands (str "1234567") (VStr (str "EAN8"))
    [VObj []] Sample.qsprinter
  = (Ok tt,
     with_buffer Sample.qsprinter
       ([29; 69; 67; 1; 29; 104; 194; 162; 29; 72; 2; 29; 107; 3]%N
          ++ utf8_encode (str "12345670") ++ [0; 29; 69; 67; 0]%N)).
Proof.
  exact (barcode_emits Sample.platform Sample.commands (str "1234567") (str "EAN8")
           [VObj []] Sample.qsprinter eq_refl eq_refl eq_refl
           (or_introl eq_refl) eq_refl
           ltac:(discriminate) (fun _ => eq_refl)).
Defined.

(** X31. The conversion of an options object to a width fails where the
    object has a property [toString] of its own, which is then no
    function: on a model other than qsprinter a call that has passed the
    checks of the type and of the length throws the TypeError of the
    runtime, and has appended nothing. *)
Theorem barcode_width_not_convertible (pf : Platform) (cmd : Commands)
    (code ty : jstring) (props : list (string * value)) (rest : list value)
    (p : Printer) :
  own_property props "toString" = true ->
  is_model (_model p) "qsprinter" = false ->
  (ty = str "EAN13" -> length code = 12%nat) ->
  (ty = str "EAN8" -> length code = 7%nat) ->
  barcode pf cmd code (VStr ty) (VObj props :: rest) p = (Throw RuntimeTypeError, p).
Proof.
  intros Hown Hqs H13 H8.
  unfold barcode. rewrite barcode_options_legacy, !bind_ret_l by reflexivity.
  cbv beta iota. unfold legacy_options.
  cbn [b_position b_font b_width b_height b_includeParity truthy].
  change (arg (VObj props :: rest) 0) with (VObj props).
  unfold is_str.
  assert (G13 : bool_decide (ty = str "EAN13") && negb (length code =? 12)%nat = false)
    by (apply guard_false; intros E; rewrite (H13 E); reflexivity).
  assert (G8 : bool_decide (ty = str "EAN8") && negb (length code =? 7)%nat = false)
    by (apply guard_false; intros E; rewrite (H8 E); reflexivity).
  rewrite G13, G8.
  unfold bind at 1. cbn [get_model]. rewrite Hqs.
  rewrite bind_ret_l. cbn [ToPropertyKey]. rewrite Hown. cbn [convert].
  reflexivity.
Qed.

Lemma barcode_width_not_convertible_witness :
  barcode Sample.platform Sample.commands (str "1234567") (VStr (str "EAN8"))
    [VObj [("toString"%string, VNum 1)]] Sample.printer
  = (Throw RuntimeTypeError, Sample.printer).
Proof.
  exact (barcode_width_not_convertible Sample.platform Sample.commands
           (str "1234567") (str "EAN8") [("toString"%string, VNum 1)] []
           Sample.printer eq_refl eq_refl ltac:(discriminate) (fun _ => eq_refl)).
Defined.

(** X17. Of what an options object holds, nothing is read but whether it
    has a property [toString] of its own: [barcode] takes the object
    itself for the width, and takes the height, the position and the font
    from the arguments that follow it. Two calls that differ only by
    the other contents of the options object, [width], [height],
    [position], [font] and [includeParity] included, do the same. *)
Theorem barcode_ignores_options_object (pf : Platform) (cmd : Commands)
    (code : jstring) (type : value) (props props' : list (string * value))
    (rest : list value) (p : Printer) :
  own_property props "toString" = own_property props' "toString" ->
  barcode pf cmd code type (VObj props :: rest) p
  = barcode pf cmd code type (VObj props' :: rest) p.
Proof.
  intros Hown.
  unfold barcode. rewrite !barcode_options_legacy, !bind_ret_l by reflexivity.
  cbv beta. unfold legacy_options.
  cbn [b_width b_height b_position b_font b_includeParity].
  change (arg (VObj props :: rest) 0) with (VObj props).
  change (arg (VObj props' :: rest) 0) with (VObj props').
  change (arg (VObj props :: rest) 1) with (arg (VObj props' :: rest) 1).
  change (arg (VObj props :: rest) 2) with (arg (VObj props' :: rest) 2).
  change (arg (VObj props :: rest) 3) with (arg (VObj props' :: rest) 3).
  cbn [ToPropertyKey]. rewrite Hown. reflexivity.
Qed.

Lemma barcode_ignores_options_object_witness :
  barcode Sample.platform Sample.commands (str "1234567") (VStr (str "EAN8"))
    [VObj [("width"%string, VNum 3); ("height"%string, VNum 40);
           ("includeParity"%string, VBool false)]; VNum 80] Sample.printer
  = barcode Sample.platform Sample.commands (str "1234567") (VStr (str "EAN8"))
      [VObj []; VNum 80] Sample.printer.
Proof.
  exact (barcode_ignores_options_object Sample.platform Sample.commands
           (str "1234567") (VStr (str "EAN8"))
           [("width"%string, VNum 3); ("height"%string, VNum 40);
            ("includeParity"%string, VBool false)] [] [VNum 80] Sample.printer
           eq_refl).
Defined.

(** ** The session under a chain of calls *)

Lemma appender_writeUInt8 (n : Z) : appender (writeUInt8 n).
Proof. unfold writeUInt8. destruct (_ && _); auto with appender. Qed.

Lemma appender_writeUInt16LE (n : Z) : appender (writeUInt16LE n).
Proof. unfold writeUInt16LE. destruct (_ && _); auto with appender. Qed.

Lemma appender_write_Buffer (bs : list N) : appender (write_Buffer bs).
Proof. apply appender_append_bytes. Qed.

Lemma appender_write_Array (a : list (option Z)) : appender (write_Array a).
Proof. apply appender_append_bytes. Qed.

Lemma appender_writeUInt8_value (pf : Platform) (v : value) :
  appender (writeUInt8_value pf v).
Proof.
  unfold writeUInt8_value.
  apply appender_bind; [apply appender_convert | intros [n|]].
  - apply appender_writeUInt8.
  - apply appender_append_bytes.
Qed.

Lemma appender_get {A : Type} (f : Printer -> A) : appender (fun p => (Ok (f p), p)).
Proof.
  intros p. exists []. cbn [snd]. rewrite app_nil_r, with_buffer_same. reflexivity.
Qed.

Lemma appender_forEach {A : Type} (l : list A) (body : A -> M unit) :
  (forall a, appender (body a)) -> appender (forEach l body).
Proof.
  intros H. induction l as [|a l IH]; cbn [forEach].
  - apply appender_ret.
  - apply appender_bind; [apply H | intros; exact IH].
Qed.

Lemma appender_toString_value (v : value) : appender (toString_value v).
Proof. destruct v; cbn; auto with appender. Qed.

(** The commands are sequences, tests and loops of steps that append. *)
Ltac appender_steps :=
  repeat first
    [ apply appender_bind; [|intros]
    | apply appender_if
    | apply appender_forEach; intros
    | solve [auto with appender]
    | apply appender_writeUInt8
    | apply appender_writeUInt16LE
    | apply appender_write_Buffer
    | apply appender_write_Array
    | apply appender_writeUInt8_value
    | apply appender_toString_value
    | apply (appender_get encoding)
    | apply (appender_get width)
    | apply (appender_get options)
    | match goal with
      | |- appender (match ?x with _ => _ end) => destruct x
      end ].

Lemma appender_lineSpace (pf : Platform) (cmd : Commands) (n : value) :
  appender (lineSpace pf cmd n).
Proof. unfold lineSpace. appender_steps. Qed.

Lemma appender_barcode pf cmd code type optionsOrLegacy :
  appender (barcode pf cmd code type optionsOrLegacy).
Proof. unfold barcode, barcode_options. appender_steps. Qed.

Lemma appender_qrcode pf cmd content version level size :
  appender (qrcode pf cmd content version level size).
Proof. unfold qrcode. appender_steps. Qed.

Lemma appender_image pf cmd img density : appender (image pf cmd img density).
Proof.
  unfold image, forEach_array. destruct img; [|apply appender_throw].
  cbv zeta.
  apply appender_bind; [apply appender_lineSpace | intros _].
  apply appender_bind; [| intros _; apply appender_lineSpace].
  apply appender_forEach. intros line. appender_steps.
Qed.

Lemma appender_raster cmd img mode : appender (raster cmd img mode).
Proof. unfold raster. appender_steps. Qed.

Lemma appender_table_cells (cw : Q) (data : list value) :
  forall lineTxt, appender (Session.table_cells cw data lineTxt).
Proof.
  induction data as [|item data IH]; intros lineTxt; cbn [Session.table_cells].
  - apply appender_ret.
  - apply appender_bind; [apply appender_toString_value|]. intros s. apply IH.
Qed.

(** What a command that only appends leaves of the session. *)
Lemma appender_frame {A : Type} (m : M A) (p : Printer) :
  appender m ->
  (exists bs, buffer (snd (m p)) = buffer p ++ bs)
  /\ options (snd (m p)) = options p
  /\ encoding (snd (m p)) = encoding p
  /\ width (snd (m p)) = width p
  /\ _model (snd (m p)) = _model p.
Proof.
  intros H. destruct (H p) as [bs ->]. cbn [with_buffer buffer options encoding width _model].
  split; [exists bs; reflexivity|]. repeat split.
Qed.

Lemma run_frame (pf : Platform) (cmd : Commands) (more : MoreCommands)
    (c : call) (p : Printer) :
  (exists bs, buffer (snd (run pf cmd more c p)) = buffer p ++ bs)
  /\ options (snd (run pf cmd more c p)) = options p
  /\ (sets_encoding c = false -> encoding (snd (run pf cmd more c p)) = encoding p)
  /\ (sets_width c = false -> width (snd (run pf cmd more c p)) = width p)
  /\ (sets_model c = false -> _model (snd (run pf cmd more c p)) = _model p).
Proof.
  assert (Happ : forall m : M unit,
             appender m ->
             (exists bs, buffer (snd (m p)) = buffer p ++ bs)
             /\ options (snd (m p)) = options p
             /\ (sets_encoding c = false -> encoding (snd (m p)) = encoding p)
             /\ (sets_width c = false -> width (snd (m p)) = width p)
             /\ (sets_model c = false -> _model (snd (m p)) = _model p)).
  { intros m Hm. destruct (appender_frame m p Hm) as (H1 & H2 & H3 & H4 & H5).
    repeat split; auto. }
  destruct c; cbn [run];
    try solve [apply Happ;
         first [ apply appender_lineSpace | apply appender_barcode
               | apply appender_qrcode | apply appender_image
               | apply appender_raster
               | unfold Session.setCharacterCodeTable, Session.marginBottom,
                   Session.marginLeft, Session.marginRight, Session.print,
                   Session.println, Session.newLine, Session.text,
                   Session.drawLine, Session.table, Session.pureText,
                   Session.feed, Session.control, Session.align, Session.style,
                   Session.size, Session.spacing, Session.cashdraw, Session.beep,
                   Session.cut, Session.color, Session.setReverseColors,
                   Session.raw, Session.starFullCut, Session.emphasize,
                   Session.cancelEmphasize, Session.feed, Session.print,
                   get_encoding, get_width;
                 cbv zeta;
                 repeat first [ apply appender_table_cells | progress appender_steps ] ] ].
  - (* encode *)
    cbn. split; [exists []; rewrite app_nil_r; reflexivity|].
    repeat split; discriminate.
  - (* font *)
    unfold Session.font. destruct family; cbn [upperCase_value];
      try (apply Happ; apply appender_throw).
    rewrite bind_ret_l. unfold bind, write_entry, write, append_bytes, get_options.
    destruct (bool_decide _); cbn;
      (split; [eexists; reflexivity|]); repeat split; discriminate.
  - (* model *)
    cbn. split; [exists []; rewrite app_nil_r; reflexivity|].
    repeat split; discriminate.
Qed.

(** X18. Whatever calls are chained, and whether the chain ends by
    returning or by an exception: the output stream after the chain is
    the stream before it with bytes appended, no byte written earlier is
    changed or removed; the options of the constructor are not changed;
    and the encoding, the width and the model are changed by no call other
    than [encode], [font] and [model]. *)
Theorem chain_frame (pf : Platform) (cmd : Commands) (more : MoreCommands)
    (calls : list call) (p : Printer) :
  (exists bs, buffer (snd (chain pf cmd more calls p)) = buffer p ++ bs)
  /\ options (snd (chain pf cmd more calls p)) = options p
  /\ (Forall (fun c => sets_encoding c = false) calls ->
      encoding (snd (chain pf cmd more calls p)) = encoding p)
  /\ (Forall (fun c => sets_width c = false) calls ->
      width (snd (chain pf cmd more calls p)) = width p)
  /\ (Forall (fun c => sets_model c = false) calls ->
      _model (snd (chain pf cmd more calls p)) = _model p).
Proof.
  revert p. unfold chain.
  induction calls as [|c calls IH]; intros p; cbn [forEach].
  - cbn. split; [exists []; rewrite app_nil_r; reflexivity|]. repeat split.
  - destruct (run_frame pf cmd more c p) as ([b1 H1] & H2 & H3 & H4 & H5).
    unfold bind. destruct (run pf cmd more c p) as [[[]|e] p1] eqn:Hrun;
      cbn [snd] in *.
    + destruct (IH p1) as ([b2 I1] & I2 & I3 & I4 & I5).
      split; [exists (b1 ++ b2); rewrite I1, H1, app_assoc; reflexivity|].
      split; [congruence|].
      repeat split; intros HF; apply Forall_cons in HF; destruct HF as [Hc HF].
      * rewrite I3, H3; auto.
      * rewrite I4, H4; auto.
      * rewrite I5, H5; auto.
    + split; [exists b1; exact H1|]. split; [exact H2|].
      repeat split; intros HF; apply Forall_cons in HF; destruct HF as [Hc HF]; auto.
Qed.

Lemma chain_frame_witness :
  (exists bs,
      buffer (snd (chain Sample.platform Sample.commands SampleMore.more
                     sample_calls Sample.printer))
      = buffer Sample.printer ++ bs)
  /\ encoding (snd (chain Sample.platform Sample.commands SampleMore.more
                      sample_calls Sample.printer))
     = encoding Sample.printer
  /\ width (snd (chain Sample.platform Sample.commands SampleMore.more
                   sample_calls Sample.printer))
     = width Sample.printer
  /\ _model (snd (chain Sample.platform Sample.commands SampleMore.more
                    sample_calls Sample.printer))
     = _model Sample.printer.
Proof.
  destruct (chain_frame Sample.platform Sample.commands SampleMore.more
              sample_calls Sample.printer) as (H1 & _ & H3 & H4 & H5).
  split; [exact H1|].
  split; [apply H3|split; [apply H4|apply H5]];
    repeat constructor.
Defined.

(** ** Lines: [feed], [cut], [drawLine], [text], [table] *)

Lemma Forall_concat_replicate {A : Type} (P : A -> Prop) (n : nat) (l : list A) :
  Forall P l -> Forall P (concat (replicate n l)).
Proof.
  intros H. induction n as [|n IH]; cbn [replicate concat]; [constructor|].
  apply Forall_app. split; assumption.
Qed.

(** X19. When the end of line of the command table is ASCII: [feed(n)]
    appends [n] ends of line, for every [n] from 0 to 2^32 - 1, and one
    when [n] is not given; for a negative [n], [feed] throws a RangeError
    and appends nothing, and so does [cut], which then does not write the
    cut command; [cut] with no number of lines feeds three lines and then
    writes the cut command, the partial one when [partial] is truthy. *)
Theorem feed_lines (cmd : Commands) (more : MoreCommands) :
  Forall (fun c => (c < 128)%N) (EOL cmd) ->
  (forall n, 0 <= n <= 4294967295 ->
     appends (Session.feed cmd (Some n)) (concat (replicate (Z.to_nat n) (EOL cmd))))
  /\ appends (Session.feed cmd None) (EOL cmd)
  /\ (forall n p, n < 0 -> Session.feed cmd (Some n) p = (Throw RangeError, p))
  /\ (forall partial n p,
         n < 0 -> Session.cut cmd more partial (Some n) p = (Throw RangeError, p))
  /\ (forall partial,
         appends (Session.cut cmd more partial None)
           (concat (replicate 3 (EOL cmd))
              ++ utf8_encode (if truthy partial then PAPER_PART_CUT more
                              else PAPER_FULL_CUT more))).
Proof.
  intros Heol.
  assert (Hfeed : forall n, 0 <= n <= 4294967295 ->
            appends (Session.feed cmd (Some n))
              (concat (replicate (Z.to_nat n) (EOL cmd)))).
  { intros n Hn p. unfold Session.feed. cbn [default]. unfold id.
    replace (n <? 0) with false by (symmetry; apply Z.ltb_ge; lia).
    replace (4294967295 <? n) with false by (symmetry; apply Z.ltb_ge; lia).
    cbn [orb]. unfold write, append_bytes.
    rewrite utf8_encode_ascii by (apply Forall_concat_replicate; exact Heol).
    reflexivity. }
  assert (Hneg : forall n p, n < 0 -> Session.feed cmd (Some n) p = (Throw RangeError, p)).
  { intros n p Hn. unfold Session.feed. cbn [default]. unfold id.
    replace (n <? 0) with true by (symmetry; apply Z.ltb_lt; lia).
    reflexivity. }
  split; [exact Hfeed|]. split; [|split; [exact Hneg|split]].
  - intros p. change (Session.feed cmd None) with (Session.feed cmd (Some 1)).
    rewrite (Hfeed 1 ltac:(lia) p).
    change (concat (replicate (Z.to_nat 1) (EOL cmd))) with (EOL cmd ++ []).
    rewrite app_nil_r. reflexivity.
  - intros partial n p Hn. unfold Session.cut, bind. cbn [default]. unfold id.
    rewrite (Hneg n p Hn). reflexivity.
  - intros partial. unfold Session.cut. cbn [default].
    apply appends_seq; [apply (Hfeed 3); lia|].
    destruct partial; apply appends_write.
Qed.

Lemma feed_lines_witness :
  Session.feed Sample.commands (Some 2) Sample.printer
  = (Ok tt, with_buffer Sample.printer [10; 10]%N)
  /\ Session.cut Sample.commands SampleMore.more (VBool true) (Some (-1)) Sample.printer
     = (Throw RangeError, Sample.printer)
  /\ Session.cut Sample.commands SampleMore.more (VBool true) None Sample.printer
     = (Ok tt, with_buffer Sample.printer [10; 10; 10; 29; 86; 1]%N).
Proof.
  destruct (feed_lines Sample.commands SampleMore.more
              ltac:(repeat constructor)) as (H1 & _ & _ & H4 & H5).
  split; [exact (H1 2 ltac:(lia) Sample.printer)|].
  split; [exact (H4 (VBool true) (-1) Sample.printer ltac:(lia))|].
  exact (H5 (VBool true) Sample.printer).
Defined.

Lemma appends_forEach_const {A : Type} (l : list A) (m : M unit) (bs : list N) :
  appends m bs ->
  appends (forEach l (fun _ => m)) (concat (replicate (length l) bs)).
Proof.
  intros H. induction l as [|a l IH]; cbn [forEach length replicate concat].
  - apply appends_ret.
  - apply appends_seq; assumption.
Qed.

(** X20. [drawLine] appends the UTF-8 bytes of its character (a hyphen
    when none is given) as many times as the session is wide, not at all
    when the width is zero or negative, and then the end of line. *)
Theorem drawLine_emits (cmd : Commands) (character : option jstring) (p : Printer) :
  Session.drawLine cmd character p
  = (Ok tt,
     with_buffer p
       (buffer p
          ++ concat (replicate (Z.to_nat (width p))
                       (utf8_encode (default (str "-") character)))
          ++ utf8_encode (EOL cmd)))
  /\ (width p <= 0 ->
      Session.drawLine cmd character p
      = (Ok tt, with_buffer p (buffer p ++ utf8_encode (EOL cmd)))).
Proof.
  assert (H : Session.drawLine cmd character p
              = (Ok tt,
                 with_buffer p
                   (buffer p
                      ++ concat (replicate (Z.to_nat (width p))
                                   (utf8_encode (default (str "-") character)))
                      ++ utf8_encode (EOL cmd)))).
  { unfold Session.drawLine. unfold bind at 1. cbn [get_width].
    match goal with
    | |- ?m p = _ => eassert (Ha : appends m _)
    end.
    { apply appends_seq.
      - apply appends_forEach_const. apply appends_bytes.
      - apply appends_write. }
    rewrite (Ha p), length_seq. reflexivity. }
  split; [exact H|].
  intros Hw. rewrite H.
  replace (Z.to_nat (width p)) with 0%nat by lia. reflexivity.
Qed.

Lemma drawLine_emits_witness :
  Session.drawLine Sample.commands None (set_width 0 Sample.printer).2
  = (Ok tt, with_buffer (set_width 0 Sample.printer).2 [10%N]).
Proof.
  exact (proj2 (drawLine_emits Sample.commands None (set_width 0 Sample.printer).2)
           ltac:(simpl; lia)).
Defined.

(** *** [table] *)

Lemma Qceiling_minus_Z (q : Q) (n : Z) :
  Qceiling (q - inject_Z n) = Qceiling q - n.
Proof.
  destruct q as [a b]. unfold Qceiling, Qfloor, Qminus, Qplus, Qopp, inject_Z.
  cbn [Qnum Qden]. rewrite Pos.mul_1_r, Z.mul_1_r.
  replace (- (a + - n * Z.pos b)) with (- a + n * Z.pos b) by lia.
  rewrite Z.div_add by discriminate. lia.
Qed.

Lemma Qceiling_div (a b : Z) :
  0 < b -> Qceiling (inject_Z a / inject_Z b) = ceil_div a b.
Proof.
  intros Hb. destruct b as [|pb|pb]; try lia.
  unfold ceil_div, Qceiling, Qfloor, Qdiv, Qmult, Qinv, Qopp, inject_Z.
  cbn [Qnum Qden]. rewrite Z.mul_1_r. reflexivity.
Qed.

Lemma length_pad (q : Q) : Z.of_nat (length (pad q)) = Z.max 0 (Qceiling q).
Proof. unfold pad. rewrite length_replicate. lia. Qed.

(** The loop of [table] on a row of strings. *)
Lemma table_cells_strings (cw : Q) (items : list jstring) :
  forall (lineTxt : jstring) (p : Printer),
    Session.table_cells cw (map VStr items) lineTxt p
    = (Ok (lineTxt
             ++ flat_map (fun s => s ++ pad (cw - inject_Z (Z.of_nat (length s)))) items),
       p).
Proof.
  induction items as [|s items IH]; intros lineTxt p; cbn [map Session.table_cells flat_map].
  - rewrite app_nil_r. reflexivity.
  - cbn [toString_value ToPropertyKey convert]. rewrite bind_ret_l, IH.
    rewrite <- !app_assoc. reflexivity.
Qed.

Lemma length_table_line (cw : Q) (items : list jstring) :
  Z.of_nat (length (flat_map (fun s => s ++ pad (cw - inject_Z (Z.of_nat (length s))))
                      items))
  = cells_width (Qceiling cw) items.
Proof.
  induction items as [|s items IH]; [reflexivity|].
  cbn [flat_map cells_width foldr]. rewrite !length_app, !Nat2Z.inj_add, IH.
  rewrite length_pad, Qceiling_minus_Z. unfold cells_width. lia.
Qed.

Lemma cells_width_ge (cw : Z) (items : list jstring) :
  cw * Z.of_nat (length items) <= cells_width cw items.
Proof.
  induction items as [|s items IH]; cbn [cells_width foldr length]; [lia|].
  unfold cells_width in IH. lia.
Qed.

Lemma cells_width_fit (cw : Z) (items : list jstring) :
  Forall (fun s => Z.of_nat (length s) <= cw) items ->
  cells_width cw items = cw * Z.of_nat (length items).
Proof.
  induction 1 as [|s items Hs _ IH]; cbn [cells_width foldr length]; [lia|].
  unfold cells_width in IH. lia.
Qed.

Lemma table_cells_padded (cw : Q) (items : list jstring) :
  flat_map (fun s => s ++ pad (cw - inject_Z (Z.of_nat (length s)))) items
  = padded_cells (Qceiling cw) items.
Proof.
  unfold padded_cells. induction items as [|s items IH]; [reflexivity|].
  cbn [flat_map]. rewrite IH. unfold padded_cell at 1, pad.
  rewrite Qceiling_minus_Z. reflexivity.
Qed.

(** X21. [table] on a row of strings returns and appends one encoded
    line, closed by the end of line. The line is the sequence of the
    cells, in the order of the items; every cell is the whole text of its
    item, never cut, followed by the spaces that bring it to the width of
    the session divided by the number of items, rounded up, and by no
    space when the text is that wide or wider. The line is exactly as wide
    as the session when the number of items divides the width and every
    text fits in its cell; it is wider than the session as soon as the
    number of items does not divide the width. *)
Theorem table_line_width (pf : Platform) (cmd : Commands) (items : list jstring)
    (enc : option jstring) (p : Printer) :
  items <> [] ->
  let cw := ceil_div (width p) (Z.of_nat (length items)) in
  let lineTxt := padded_cells cw items in
  Session.table pf cmd (map VStr items) enc p
  = (Ok tt,
     with_buffer p
       (buffer p ++ iconv_encode pf (lineTxt ++ EOL cmd) (default (encoding p) enc)))
  /\ Z.of_nat (length lineTxt) = cells_width cw items
  /\ ((Z.of_nat (length items) | width p) ->
      Forall (fun s => Z.of_nat (length s) * Z.of_nat (length items) <= width p) items ->
      Z.of_nat (length lineTxt) = width p)
  /\ (~ (Z.of_nat (length items) | width p) -> width p < Z.of_nat (length lineTxt)).
Proof.
  intros Hne cw lineTxt.
  assert (Hn : 0 < Z.of_nat (length items)) by (destruct items; [congruence | cbn; lia]).
  assert (Hlen : Z.of_nat (length lineTxt) = cells_width cw items).
  { unfold lineTxt, cw. rewrite <- (Qceiling_div _ _ Hn), <- table_cells_padded.
    apply length_table_line. }
  split; [|split; [|split]].
  - unfold Session.table. unfold bind at 1. cbn [get_encoding].
    unfold bind at 1. cbn [get_width].
    unfold bind. rewrite length_map, table_cells_strings. cbn [app].
    rewrite table_cells_padded, Qceiling_div by exact Hn. reflexivity.
  - exact Hlen.
  - intros [k Hk] Hfit. rewrite Hlen.
    assert (Hcw : cw = k).
    { unfold cw, ceil_div. rewrite Hk.
      replace (- (k * Z.of_nat (length items))) with (- k * Z.of_nat (length items)) by lia.
      rewrite Z.div_mul by lia. lia. }
    rewrite Hcw, cells_width_fit; [lia|].
    eapply Forall_impl; [exact Hfit|]. intros s Hs. cbn beta in Hs. nia.
  - intros Hndiv. rewrite Hlen.
    eapply Z.lt_le_trans; [|apply cells_width_ge].
    unfold cw, ceil_div.
    pose proof (Z.div_mod (- width p) (Z.of_nat (length items)) ltac:(lia)) as Hdm.
    pose proof (Z.mod_pos_bound (- width p) (Z.of_nat (length items)) Hn) as Hb.
    destruct (decide ((- width p) mod Z.of_nat (length items) = 0)) as [H0|H0].
    + exfalso. apply Hndiv.
      exists (- (- width p / Z.of_nat (length items))). lia.
    + nia.
Qed.

Lemma table_line_width_witness :
  Session.table Sample.platform Sample.commands
    (map VStr [str "a"; str "bcd"; str "ef"; str "g"; str "h"]) None Sample.printer
  = (Ok tt,
     with_buffer Sample.printer
       (buffer Sample.printer
          ++ iconv_encode Sample.platform
               (str "a         bcd       ef        g         h         "
                  ++ EOL Sample.commands)
               (encoding Sample.printer)))
  /\ 48 < Z.of_nat (length (str "a         bcd       ef        g         h         ")).
Proof.
  destruct (table_line_width Sample.platform Sample.commands
              [str "a"; str "bcd"; str "ef"; str "g"; str "h"] None Sample.printer
              ltac:(discriminate)) as (H1 & _ & _ & H4).
  split; [exact H1|].
  apply H4. intros [k Hk]. cbn in Hk. lia.
Defined.

(** ** Raw bytes ([raw]) *)







(** ** The custom table: what a call leaves alone *)

Lemma same_but_text_refl (c : Cell) : same_but_text c c.
Proof. repeat split. Qed.

Lemma same_but_text_set_text (c : Cell) (t : jstring) : same_but_text c (set_text c t).
Proof. repeat split. Qed.

Lemma same_but_text_trans (a b c : Cell) :
  same_but_text a b -> same_but_text b c -> same_but_text a c.
Proof.
  unfold same_but_text. intros (H1 & H2 & H3 & H4) (G1 & G2 & G3 & G4).
  repeat split; congruence.
Qed.

(** A pass keeps the cells that are there, up to their text, and adds
    none. *)
Lemma render_cells_keeps cmd bw w (data : list nat) :
  forall rs r rs',
    render_cells cmd bw w data rs = (r, rs') ->
    (forall l c, heap rs !! l = Some c ->
       exists c', heap rs' !! l = Some c' /\ same_but_text c c')
    /\ (forall l, heap rs !! l = None -> heap rs' !! l = None).
Proof.
  induction data as [|l0 data IH]; intros rs r rs' H; cbn [render_cells] in H.
  - inversion H; subst. split; [|auto].
    intros l c Hc. exists c. split; [exact Hc | apply same_but_text_refl].
  - destruct (heap rs !! l0) as [obj|] eqn:Hobj.
    + destruct (IH _ _ _ H) as [IH1 IH2]. split.
      * intros l c Hc.
        destruct (decide (l = l0)) as [->|Hne].
        -- rewrite Hobj in Hc. inversion Hc; subst c.
           destruct (IH1 l0 _ (cell_step_heap_at cmd bw w l0 obj rs)) as (c' & Hc' & Hs).
           exists c'. split; [exact Hc'|].
           eapply same_but_text_trans; [apply same_but_text_set_text | exact Hs].
        -- apply IH1. rewrite cell_step_heap_other by exact Hne. exact Hc.
      * intros l Hl. apply IH2.
        destruct (decide (l = l0)) as [->|Hne]; [congruence|].
        rewrite cell_step_heap_other by exact Hne. exact Hl.
    + inversion H; subst. split; [|auto].
      intros l c Hc. exists c. split; [exact Hc | apply same_but_text_refl].
Qed.

(** X23. Whatever [tableCustom] returns, a value or an exception: the
    output stream has only grown, and the rest of the session is as it
    was; the cells that are not in the row are untouched; no cell is
    added to the store or removed from it; and of a cell of the row
    nothing but the text is changed (alignment, style, width and columns
    stay). *)
Theorem tableCustom_frame (pf : Platform) (cmd : Commands) (fuel : nat) :
  forall (data : list nat) (options : option TableOptions) (this this' : Printer)
         (store store' : gmap nat Cell) (r : outcome unit),
    tableCustom pf cmd fuel data options this store = Some (r, this', store') ->
    (exists bs, this' = with_buffer this (buffer this ++ bs))
    /\ (forall l, l ∉ data -> store' !! l = store !! l)
    /\ (forall l c, store !! l = Some c ->
          exists c', store' !! l = Some c' /\ same_but_text c c')
    /\ (forall l, store !! l = None -> store' !! l = None).
Proof.
  induction fuel as [|fuel IH]; intros data opts this this' store store' r H;
    [discriminate|].
  rewrite tableCustom_S in H. cbv zeta in H.
  destruct (table_row cmd (width this) data _ store) as [r0 rs] eqn:Hrow.
  unfold table_row in Hrow.
  destruct (render_cells_spec _ _ _ _ _ _ _ Hrow) as [Hother Hok].
  destruct (render_cells_keeps _ _ _ _ _ _ _ Hrow) as [Hkeep Hnone].
  cbn [heap] in Hother, Hkeep, Hnone.
  destruct r0 as [[]|e].
  - destruct (Hok eq_refl) as [Hsecond _]. cbn [secondLine app] in Hsecond.
    destruct (secondLineEnabled rs).
    + apply IH in H. destruct H as ([bs Hbs] & H2 & H3 & H4).
      rewrite Hsecond in H2.
      split; [|split; [|split]].
      * eexists. rewrite Hbs. cbn [with_buffer buffer].
        unfold with_buffer. cbn [buffer options encoding width _model].
        rewrite <- app_assoc. reflexivity.
      * intros l Hl. rewrite H2, Hother by exact Hl. reflexivity.
      * intros l c Hc. destruct (Hkeep l c Hc) as (c1 & Hc1 & Hs1).
        destruct (H3 l c1 Hc1) as (c2 & Hc2 & Hs2).
        exists c2. split; [exact Hc2 | eapply same_but_text_trans; eassumption].
      * intros l Hl. apply H4, Hnone, Hl.
    + inversion H; subst. split; [eexists; reflexivity|]. auto.
  - inversion H; subst. split; [|auto].
    exists []. rewrite app_nil_r, with_buffer_same. reflexivity.
Qed.

Lemma tableCustom_frame_witness :
  (exists bs, Sample.printer16_after
              = with_buffer Sample.printer16 (buffer Sample.printer16 ++ bs))
  /\ (exists c', Sample.row_store_after !! 0%nat = Some c'
                 /\ same_but_text (Sample.cell (str "hello world, this is long")) c')
  /\ Sample.row_store_after !! 7%nat = None.
Proof.
  destruct (tableCustom_frame Sample.platform Sample.commands 10 [0%nat; 1%nat] None
              Sample.printer16 Sample.printer16_after Sample.row_store
              Sample.row_store_after (Ok tt) ltac:(vm_compute; reflexivity))
    as (H1 & _ & H3 & H4).
  split; [exact H1|]. split.
  - apply (H3 0%nat). reflexivity.
  - apply (H4 7%nat). reflexivity.
Defined.

(** ** The custom table: the width of a line *)

Lemma styled_text_plain (cmd : Commands) (obj : Cell) :
  plain_cell obj -> styled_text cmd obj = text obj.
Proof.
  intros (_ & _ & Hs). unfold styled_text.
  destruct (text obj); [reflexivity|].
  destruct Hs as [-> | ->]; reflexivity.
Qed.

Lemma textLength_pad (q : Q) : utils.textLength (pad q) = Z.max 0 (Qceiling q).
Proof. unfold pad. rewrite textLength_replicate_space. lia. Qed.

Lemma Qceiling_slack (a b c : Z) :
  Qceiling (inject_Z a - inject_Z b + inject_Z c) = a - b + c.
Proof.
  unfold Qminus. rewrite <- inject_Z_opp, <- !inject_Z_plus. apply Qceiling_Z.
Qed.

Lemma Qceiling_floor_slack (a b c : Z) :
  Qceiling (inject_Z (Qfloor (inject_Z a - inject_Z b)) + inject_Z c) = a - b + c.
Proof.
  replace (inject_Z a - inject_Z b)%Q with (inject_Z (a - b))
    by (unfold Qminus; rewrite <- inject_Z_opp, <- inject_Z_plus; reflexivity).
  rewrite Qfloor_Z, <- inject_Z_plus. apply Qceiling_Z.
Qed.

Lemma inject_Z_diff (a b : Z) : (inject_Z a - inject_Z b)%Q = inject_Z (a - b).
Proof. unfold Qminus. rewrite <- inject_Z_opp, <- inject_Z_plus. reflexivity. Qed.

Lemma Qceiling_half (a b : Z) :
  Qceiling ((inject_Z a - inject_Z b) / 2) = - (- (a - b) / 2).
Proof.
  unfold Qceiling, Qfloor, Qdiv, Qmult, Qinv, Qminus, Qplus, Qopp, inject_Z.
  cbn [Qnum Qden]. change (Z.pos (1 * 1 * 2)) with 2. f_equal. f_equal. lia.
Qed.

Lemma Qceiling_half_less (a b : Z) :
  Qceiling ((inject_Z a - inject_Z b) / 2 - 1) = - (- (a - b) / 2) - 1.
Proof.
  unfold Qceiling, Qfloor, Qdiv, Qmult, Qinv, Qminus, Qplus, Qopp, inject_Z.
  cbn [Qnum Qden]. change (Z.pos (1 * 1 * 2 * 1)) with 2.
  change (Z.pos (1 * 1 * 2)) with 2.
  replace (- ((a * 1 + - b * 1) * 1 * 1 + - (1) * 2)) with (- (a - b) + 1 * 2) by lia.
  rewrite Z.div_add by lia. lia.
Qed.

(** The step of the loop on a plain cell whose text fits in the width in
    force, a whole number of columns. *)
Lemma cell_step_piece cmd bw w l obj rs (cwz : Z) :
  plain_cell obj ->
  cellWidth rs = inject_Z cwz ->
  utils.textLength (text obj) <= cwz ->
  let rs' := cell_step cmd bw w l obj rs in
  cellWidth rs' = cellWidth rs
  /\ secondLineEnabled rs' = secondLineEnabled rs
  /\ heap rs' = <[l := set_text obj []]> (heap rs)
  /\ (cell_align obj = str "CENTER" ->
      leftoverSpace rs' = leftoverSpace rs
      /\ lineStr rs' = lineStr rs ++ centre_piece cwz obj)
  /\ (cell_align obj <> str "CENTER" ->
      0 <= leftoverSpace rs ->
      leftoverSpace rs' = 0
      /\ lineStr rs' = lineStr rs ++ side_piece cwz (leftoverSpace rs) obj).
Proof.
  intros Hplain Hcw Hfit rs'. subst rs'.
  pose proof (styled_text_plain cmd obj Hplain) as Hst.
  destruct Hplain as (Hw & Hcols & _).
  unfold cell_step. fold (cell_align obj). rewrite Hw.
  assert (Hwidth : match cols obj with
                   | Some c => if c =? 0 then (cellWidth rs, leftoverSpace rs)
                               else ((inject_Z c / inject_Z (Z.pos w))%Q, 0)
                   | None => (cellWidth rs, leftoverSpace rs)
                   end = (cellWidth rs, leftoverSpace rs))
    by (destruct Hcols as [-> | ->]; reflexivity).
  rewrite Hwidth. cbv beta iota. rewrite Hcw.
  rewrite (Qlt_bool_false (inject_Z cwz) (inject_Z (utils.textLength (text obj))))
    by (rewrite <- Zle_Qle; exact Hfit).
  cbv beta iota. rewrite Hst.
  destruct (decide (cell_align obj = str "CENTER")) as [Hc|Hc].
  - rewrite bool_decide_eq_true_2 by exact Hc.
    cbn [cellWidth secondLineEnabled heap leftoverSpace lineStr].
    do 3 (split; [reflexivity|]).
    split; [intros _ | intros Hx; contradiction].
    split; [reflexivity|].
    unfold centre_piece, pad, ceil_div.
    rewrite Qceiling_half, Qceiling_half_less. reflexivity.
  - rewrite bool_decide_eq_false_2 by exact Hc.
    unfold side_piece.
    destruct (bool_decide (cell_align obj = str "RIGHT"));
      destruct (0 <? leftoverSpace rs) eqn:Hlo;
      cbn [cellWidth secondLineEnabled heap leftoverSpace lineStr];
      do 3 (split; [reflexivity|]);
      (split; [intros Hx; contradiction | intros _ Hpos]);
      [apply Z.ltb_lt in Hlo | apply Z.ltb_ge in Hlo
      | apply Z.ltb_lt in Hlo | apply Z.ltb_ge in Hlo];
      (split; [lia|]); unfold pad.
    + rewrite Qceiling_slack. reflexivity.
    + rewrite inject_Z_diff, Qceiling_Z.
      replace (leftoverSpace rs) with 0 by lia. rewrite Z.add_0_r. reflexivity.
    + rewrite Qceiling_floor_slack. reflexivity.
    + rewrite inject_Z_diff, Qfloor_Z, Qceiling_Z.
      replace (leftoverSpace rs) with 0 by lia. rewrite Z.add_0_r. reflexivity.
Qed.

Lemma row_fits_tail centred cwz (l : nat) (rest : list nat) (store : gmap nat Cell) (c : Cell) :
  store !! l = Some c ->
  row_fits centred cwz (l :: rest) store ->
  0 <= cwz ->
  row_fits centred cwz rest (<[l := set_text c []]> store).
Proof.
  intros Hc Hrow Hcw l' Hl'.
  destruct (decide (l' = l)) as [->|Hne].
  - rewrite lookup_insert_eq.
    destruct (Hrow l ltac:(left)) as (c0 & Hc0 & Hp & Ha & _).
    rewrite Hc in Hc0. inversion Hc0; subst c0.
    eexists. split; [reflexivity|]. split; [exact Hp|]. split; [exact Ha|].
    exact Hcw.
  - rewrite lookup_insert_ne by congruence.
    apply Hrow. right. exact Hl'.
Qed.

(** The cells of a row. *)
Lemma row_cells_cons (l : nat) (rest : list nat) (store : gmap nat Cell) (c : Cell) :
  store !! l = Some c -> row_cells (l :: rest) store = c :: row_cells rest store.
Proof. intros Hc. unfold row_cells. cbn. rewrite Hc. reflexivity. Qed.

Lemma row_cells_insert (l : nat) (c : Cell) (rest : list nat) (store : gmap nat Cell) :
  l ∉ rest -> row_cells rest (<[l := c]> store) = row_cells rest store.
Proof.
  intros Hl. unfold row_cells. induction rest as [|l' rest IH]; [reflexivity|].
  cbn. rewrite lookup_insert_ne by (intros ->; apply Hl; left).
  rewrite IH by (intros Hin; apply Hl; right; exact Hin). reflexivity.
Qed.

Lemma row_cells_fit centred cwz (data : list nat) (store : gmap nat Cell) :
  row_fits centred cwz data store ->
  length (row_cells data store) = length data
  /\ Forall (fun c => utils.textLength (text c) <= cwz) (row_cells data store).
Proof.
  induction data as [|l rest IH]; intros Hrow; [split; [reflexivity | constructor]|].
  destruct (Hrow l ltac:(left)) as (c & Hc & _ & _ & Hfit).
  rewrite (row_cells_cons l rest store c Hc).
  destruct IH as [IH1 IH2]; [intros l' Hl'; apply Hrow; right; exact Hl'|].
  split; [cbn [length]; rewrite IH1; reflexivity | constructor; assumption].
Qed.

(** The width of what a cell puts on the line. *)
Lemma textLength_side_piece (cwz extra : Z) (c : Cell) :
  utils.textLength (text c) <= cwz -> 0 <= extra ->
  utils.textLength (side_piece cwz extra c) = cwz + extra.
Proof.
  intros Hfit Hextra. unfold side_piece.
  destruct (bool_decide (cell_align c = str "RIGHT"));
    rewrite textLength_app, textLength_replicate_space; lia.
Qed.

Lemma centred_columns (cwz tl : Z) :
  0 <= tl <= cwz ->
  tl + Z.max 0 (- (- (cwz - tl) / 2)) + Z.max 0 (- (- (cwz - tl) / 2) - 1)
  = cwz - (if (0 <? cwz - tl) && Z.even (cwz - tl) then 1 else 0).
Proof.
  intros H. destruct (Z.even (cwz - tl)) eqn:E.
  - apply Z.even_spec in E. destruct E as [k Hk].
    replace (- (cwz - tl)) with (- k * 2) by lia.
    rewrite Z.div_mul by lia.
    destruct (0 <? cwz - tl) eqn:E0; cbn [andb];
      [apply Z.ltb_lt in E0 | apply Z.ltb_ge in E0]; lia.
  - rewrite andb_false_r.
    assert (Ho : Z.odd (cwz - tl) = true) by (rewrite <- Z.negb_even, E; reflexivity).
    apply Z.odd_spec in Ho. destruct Ho as [k Hk].
    replace (- (cwz - tl)) with (- 1 + (- k) * 2) by lia.
    rewrite Z.div_add by lia. change (- 1 / 2) with (- 1). lia.
Qed.

Lemma textLength_centre_piece (cwz : Z) (c : Cell) :
  utils.textLength (text c) <= cwz ->
  utils.textLength (centre_piece cwz c)
  = cwz - (if comes_short cwz c then 1 else 0).
Proof.
  intros Hfit. pose proof (textLength_nonneg (text c)) as Hnn.
  unfold centre_piece, comes_short, ceil_div. cbv zeta.
  rewrite !textLength_app, !textLength_replicate_space.
  rewrite <- (centred_columns cwz (utils.textLength (text c))) by lia. lia.
Qed.

Lemma textLength_side_cells (cwz : Z) (cs : list Cell) :
  Forall (fun c => utils.textLength (text c) <= cwz) cs ->
  Forall (fun c => utils.textLength (side_piece cwz 0 c) = cwz) cs
  /\ utils.textLength (flat_map (side_piece cwz 0) cs) = cwz * Z.of_nat (length cs).
Proof.
  induction 1 as [|c cs Hc _ [IH1 IH2]]; [split; [constructor | cbn; lia]|].
  pose proof (textLength_side_piece cwz 0 c Hc ltac:(lia)) as Hp.
  split; [constructor; [lia | exact IH1]|].
  cbn [flat_map length]. rewrite textLength_app, IH2. lia.
Qed.

Lemma textLength_centre_cells (cwz : Z) (cs : list Cell) :
  Forall (fun c => utils.textLength (text c) <= cwz) cs ->
  Forall (fun c => utils.textLength (centre_piece cwz c)
                   = cwz - (if comes_short cwz c then 1 else 0)) cs
  /\ utils.textLength (flat_map (centre_piece cwz) cs)
     = cwz * Z.of_nat (length cs)
       - Z.of_nat (length (List.filter (comes_short cwz) cs)).
Proof.
  induction 1 as [|c cs Hc _ [IH1 IH2]]; [split; [constructor | cbn; lia]|].
  pose proof (textLength_centre_piece cwz c Hc) as Hp.
  split; [constructor; [exact Hp | exact IH1]|].
  cbn [flat_map length List.filter]. rewrite textLength_app, IH2, Hp.
  destruct (comes_short cwz c); cbn [length]; lia.
Qed.

(** A pass over a row of distinct cells that fit, none of them centred. *)
Lemma render_cells_side cmd bw w (cwz : Z) (data : list nat) :
  0 <= cwz ->
  NoDup data ->
  forall rs,
    cellWidth rs = inject_Z cwz ->
    0 <= leftoverSpace rs ->
    row_fits false cwz data (heap rs) ->
    exists rs',
      render_cells cmd bw w data rs = (Ok tt, rs')
      /\ secondLineEnabled rs' = secondLineEnabled rs
      /\ lineStr rs'
         = lineStr rs ++ side_layout cwz (leftoverSpace rs) (row_cells data (heap rs)).
Proof.
  intros Hcwz Hnd. induction Hnd as [|l rest Hl Hnd IH]; intros rs Hcw Hlo Hrow;
    cbn [render_cells].
  - exists rs. split; [reflexivity|]. split; [reflexivity|].
    cbn. rewrite app_nil_r. reflexivity.
  - destruct (Hrow l ltac:(left)) as (c & Hc & Hp & Ha & Hfit).
    rewrite Hc.
    destruct (cell_step_piece cmd bw w l c rs cwz Hp Hcw Hfit)
      as (S1 & S2 & S3 & _ & S5).
    destruct (S5 Ha Hlo) as [S6 S7].
    destruct (IH (cell_step cmd bw w l c rs)) as (rs' & R1 & R2 & R3).
    + rewrite S1. exact Hcw.
    + rewrite S6. lia.
    + rewrite S3. eapply row_fits_tail; eassumption.
    + exists rs'. split; [exact R1|]. split; [congruence|].
      rewrite R3, S7, S6, S3, row_cells_insert by exact Hl.
      rewrite (row_cells_cons l rest (heap rs) c Hc). cbn [side_layout].
      rewrite <- app_assoc. do 2 f_equal.
      destruct (row_cells rest (heap rs)); [reflexivity|].
      cbn [side_layout flat_map]. reflexivity.
Qed.

(** A pass over a row of distinct centred cells that fit. *)
Lemma render_cells_centred cmd bw w (cwz : Z) (data : list nat) :
  0 <= cwz ->
  NoDup data ->
  forall rs,
    cellWidth rs = inject_Z cwz ->
    row_fits true cwz data (heap rs) ->
    exists rs',
      render_cells cmd bw w data rs = (Ok tt, rs')
      /\ secondLineEnabled rs' = secondLineEnabled rs
      /\ lineStr rs'
         = lineStr rs ++ flat_map (centre_piece cwz) (row_cells data (heap rs)).
Proof.
  intros Hcwz Hnd. induction Hnd as [|l rest Hl Hnd IH]; intros rs Hcw Hrow;
    cbn [render_cells].
  - exists rs. split; [reflexivity|]. split; [reflexivity|].
    cbn. rewrite app_nil_r. reflexivity.
  - destruct (Hrow l ltac:(left)) as (c & Hc & Hp & Ha & Hfit).
    rewrite Hc.
    destruct (cell_step_piece cmd bw w l c rs cwz Hp Hcw Hfit)
      as (S1 & S2 & S3 & S4 & _).
    destruct (S4 Ha) as [S6 S7].
    destruct (IH (cell_step cmd bw w l c rs)) as (rs' & R1 & R2 & R3).
    + rewrite S1. exact Hcw.
    + rewrite S3. eapply row_fits_tail; eassumption.
    + exists rs'. split; [exact R1|]. split; [congruence|].
      rewrite R3, S7, S3, row_cells_insert by exact Hl.
      rewrite (row_cells_cons l rest (heap rs) c Hc). cbn [flat_map].
      rewrite <- app_assoc. reflexivity.
Qed.

(** X24. A row of distinct plain cells (no width of their own, no
    style), none of them centred, whose texts all fit in the width of a
    cell, comes out as one line, after which [tableCustom] returns. The
    line is the sequence of the cells in the order of the row; a cell is
    its text with the spaces that fill the width of a cell, after the
    text, or before it when the cell is aligned to the right; the first
    cell has, with its spaces, the columns that the division of the base
    width leaves over. In display columns the first cell takes the width
    of a cell and the columns left over, every other cell the width of a
    cell, and the line exactly the base width. *)
Theorem tableCustom_row_width (pf : Platform) (cmd : Commands) (fuel : nat)
    (data : list nat) (topts : option TableOptions) (this : Printer)
    (store : gmap nat Cell) :
  data <> [] ->
  NoDup data ->
  0 <= width this ->
  let opts := default (default_table_options this) topts in
  let baseWidth := width this / Z.pos (fst (t_size opts)) in
  let cwz := baseWidth / Z.of_nat (length data) in
  let leftover := baseWidth - cwz * Z.of_nat (length data) in
  row_fits false cwz data store ->
  let cells := row_cells data store in
  let line := side_layout cwz leftover cells in
  (exists store',
      tableCustom pf cmd (S fuel) data topts this store
      = Some (Ok tt,
              with_buffer this (buffer this ++ table_line pf cmd opts this line),
              store'))
  /\ length cells = length data
  /\ (exists c cs,
         cells = c :: cs
         /\ line = side_piece cwz leftover c ++ flat_map (side_piece cwz 0) cs
         /\ utils.textLength (side_piece cwz leftover c) = cwz + leftover
         /\ Forall (fun c' => utils.textLength (side_piece cwz 0 c') = cwz) cs)
  /\ utils.textLength line = baseWidth.
Proof.
  intros Hne Hnd Hw opts baseWidth cwz leftover Hrow cells line.
  set (n := Z.of_nat (length data)) in *.
  assert (Hn : 0 < n) by (subst n; destruct data; [congruence | cbn; lia]).
  assert (Hbase : 0 <= baseWidth) by (apply Z.div_pos; lia).
  assert (Hcwz : 0 <= cwz) by (apply Z.div_pos; lia).
  assert (Hleft : 0 <= leftover).
  { subst leftover cwz.
    pose proof (Z.div_mod baseWidth n ltac:(lia)).
    pose proof (Z.mod_pos_bound baseWidth n Hn). lia. }
  destruct (row_cells_fit false cwz data store Hrow) as [Hlen Hfits].
  fold cells in Hlen, Hfits.
  destruct (render_cells_side cmd baseWidth (fst (t_size opts)) cwz data Hcwz Hnd
              {| cellWidth := inject_Z cwz; leftoverSpace := leftover;
                 lineStr := []; secondLineEnabled := false; secondLine := [];
                 heap := store |} eq_refl Hleft Hrow)
    as (rs & R1 & R2 & R3).
  cbn [lineStr secondLineEnabled leftoverSpace heap app] in R2, R3.
  fold cells in R3. fold line in R3.
  assert (Hcells : exists c cs, cells = c :: cs).
  { destruct cells as [|c cs]; [|eauto].
    destruct data; [congruence | discriminate Hlen]. }
  destruct Hcells as (c & cs & Ecells).
  assert (Hline : line = side_piece cwz leftover c ++ flat_map (side_piece cwz 0) cs)
    by (subst line; rewrite Ecells; reflexivity).
  rewrite Ecells in Hfits. inversion Hfits as [|? ? Hc Hcs]; subst x l.
  destruct (textLength_side_cells cwz cs Hcs) as [Hall Hsum].
  pose proof (textLength_side_piece cwz leftover c Hc Hleft) as Hfirst.
  split; [|split; [exact Hlen|split]].
  - exists (heap rs). rewrite <- R3.
    apply tableCustom_fits_one_line; [exact R1 | exact R2].
  - exists c, cs. repeat split; assumption.
  - rewrite Hline, textLength_app, Hfirst, Hsum.
    rewrite Ecells in Hlen. cbn [length] in Hlen.
    subst leftover. fold n. lia.
Qed.

Lemma tableCustom_row_width_witness :
  exists store',
    tableCustom Sample.platform Sample.commands 1 [0%nat; 1%nat; 2%nat] None
      Sample.printer16 sample_row
    = Some (Ok tt,
            with_buffer Sample.printer16
              (buffer Sample.printer16
                 ++ table_line Sample.platform Sample.commands
                      (default_table_options Sample.printer16) Sample.printer16
                      (str "tea    2.50" ++ [0x4E2D%N] ++ str "   ")),
            store').
Proof.
  refine (proj1 (tableCustom_row_width Sample.platform Sample.commands 0
                   [0%nat; 1%nat; 2%nat] None Sample.printer16 sample_row _ _ _ _)).
  - discriminate.
  - repeat constructor; rewrite ?list_elem_of_In; cbn; lia.
  - cbn. lia.
  - intros l Hl. apply list_elem_of_In in Hl. cbn in Hl.
    destruct Hl as [<-|[<-|[<-|[]]]]; eexists;
      (split; [reflexivity|]);
      (split; [repeat split; auto|]);
      (split; [discriminate | vm_compute; discriminate]).
Defined.

(** X25. A row of distinct plain cells that are all centred and whose
    texts all fit comes out as one line, after which [tableCustom]
    returns. The line is the sequence of the cells in the order of the
    row; a cell is its text between half of the free columns of the cell,
    rounded up, in spaces before it and one space less after it. A cell
    so takes the width of a cell, or one column less when its text leaves
    an even number of columns free, other than zero; no cell takes the
    columns that the division of the base width leaves over. The line is
    at most as wide as the base width, and narrower by the columns left
    over and by one column for each cell that comes out short: the
    columns of the rows of a table then do not line up. *)
Theorem tableCustom_centred_row (pf : Platform) (cmd : Commands) (fuel : nat)
    (data : list nat) (topts : option TableOptions) (this : Printer)
    (store : gmap nat Cell) :
  data <> [] ->
  NoDup data ->
  0 <= width this ->
  let opts := default (default_table_options this) topts in
  let baseWidth := width this / Z.pos (fst (t_size opts)) in
  let cwz := baseWidth / Z.of_nat (length data) in
  let leftover := baseWidth - cwz * Z.of_nat (length data) in
  row_fits true cwz data store ->
  let cells := row_cells data store in
  let line := flat_map (centre_piece cwz) cells in
  (exists store',
      tableCustom pf cmd (S fuel) data topts this store
      = Some (Ok tt,
              with_buffer this (buffer this ++ table_line pf cmd opts this line),
              store'))
  /\ length cells = length data
  /\ Forall (fun c => utils.textLength (centre_piece cwz c)
                      = cwz - (if comes_short cwz c then 1 else 0)) cells
  /\ utils.textLength line
     = baseWidth - leftover
       - Z.of_nat (length (List.filter (comes_short cwz) cells))
  /\ 0 <= leftover
  /\ utils.textLength line <= baseWidth.
Proof.
  intros Hne Hnd Hw opts baseWidth cwz leftover Hrow cells line.
  set (n := Z.of_nat (length data)) in *.
  assert (Hn : 0 < n) by (subst n; destruct data; [congruence | cbn; lia]).
  assert (Hbase : 0 <= baseWidth) by (apply Z.div_pos; lia).
  assert (Hcwz : 0 <= cwz) by (apply Z.div_pos; lia).
  assert (Hleft : 0 <= leftover).
  { subst leftover cwz.
    pose proof (Z.div_mod baseWidth n ltac:(lia)).
    pose proof (Z.mod_pos_bound baseWidth n Hn). lia. }
  destruct (row_cells_fit true cwz data store Hrow) as [Hlen Hfits].
  fold cells in Hlen, Hfits.
  destruct (render_cells_centred cmd baseWidth (fst (t_size opts)) cwz data Hcwz Hnd
              {| cellWidth := inject_Z cwz; leftoverSpace := leftover;
                 lineStr := []; secondLineEnabled := false; secondLine := [];
                 heap := store |} eq_refl Hrow)
    as (rs & R1 & R2 & R3).
  cbn [lineStr secondLineEnabled leftoverSpace heap app] in R2, R3.
  fold cells in R3. fold line in R3.
  destruct (textLength_centre_cells cwz cells Hfits) as [Hall Hsum].
  fold line in Hsum.
  assert (Hwidth : utils.textLength line
                   = baseWidth - leftover
                     - Z.of_nat (length (List.filter (comes_short cwz) cells)))
    by (rewrite Hsum, Hlen; subst leftover; fold n; lia).
  split; [|split; [exact Hlen|split; [exact Hall|split; [exact Hwidth|split]]]].
  - exists (heap rs). rewrite <- R3.
    apply tableCustom_fits_one_line; [exact R1 | exact R2].
  - exact Hleft.
  - rewrite Hwidth. lia.
Qed.

Lemma tableCustom_centred_row_witness :
  (exists store',
      tableCustom Sample.platform Sample.commands 1 [0%nat; 1%nat] None
        Sample.printer16 centred_row
      = Some (Ok tt,
              with_buffer Sample.printer16
                (buffer Sample.printer16
                   ++ table_line Sample.platform Sample.commands
                        (default_table_options Sample.printer16) Sample.printer16
                        (str "   abc    abcd ")),
              store'))
  /\ utils.textLength (str "   abc    abcd ") = 16 - 0 - 1.
Proof.
  destruct (tableCustom_centred_row Sample.platform Sample.commands 0
              [0%nat; 1%nat] None Sample.printer16 centred_row)
    as (H1 & _ & _ & H4 & _).
  - discriminate.
  - repeat constructor; rewrite ?list_elem_of_In; cbn; lia.
  - cbn. lia.
  - intros l Hl. apply list_elem_of_In in Hl. cbn in Hl.
    destruct Hl as [<-|[<-|[]]]; eexists;
      (split; [reflexivity|]);
      (split; [repeat split; auto|]);
      (split; [reflexivity | vm_compute; discriminate]).
  - split; [exact H1 | exact H4].
Defined.

Lemma codeLength_short_witness :
  utils.codeLength Sample.platform (str "12345") = [].
Proof.
  apply (codeLength_short Sample.platform (str "12345") sample_decodes_ascii).
  simpl. lia.
Defined.

(** ** The custom table: a text that is wrapped *)

Lemma styled_text_set_text (cmd : Commands) (obj : Cell) (t : jstring) :
  plain_cell obj -> styled_text cmd (set_text obj t) = t.
Proof.
  intros (_ & _ & Hs). unfold styled_text. cbn [text style set_text].
  destruct t; [reflexivity|].
  destruct Hs as [-> | ->]; reflexivity.
Qed.

Lemma pad_negative (k : Z) : k <= 0 -> pad (inject_Z k) = [].
Proof.
  intros Hk. unfold pad. rewrite Qceiling_Z.
  replace (Z.to_nat k) with 0%nat by lia. reflexivity.
Qed.

Lemma plain_cell_width (obj : Cell) (rs : RowState) (w : positive) :
  plain_cell obj ->
  match cols obj with
  | Some c => if c =? 0 then (cellWidth rs, leftoverSpace rs)
              else ((inject_Z c / inject_Z (Z.pos w))%Q, 0)
  | None => (cellWidth rs, leftoverSpace rs)
  end = (cellWidth rs, leftoverSpace rs).
Proof. intros (_ & [-> | ->] & _); reflexivity. Qed.

(** The step of the loop on a plain cell aligned to the left, when
    nothing is left over of the division: its text fits, or it does
    not. *)
Lemma cell_step_left cmd bw w l obj rs (cwz : Z) :
  plain_cell obj ->
  cell_align obj <> str "CENTER" -> cell_align obj <> str "RIGHT" ->
  cellWidth rs = inject_Z cwz ->
  leftoverSpace rs = 0 ->
  cell_step cmd bw w l obj rs
  = if cwz <? utils.textLength (text obj)
    then {| cellWidth := inject_Z cwz; leftoverSpace := 0;
            lineStr := lineStr rs
                         ++ utils.textSubstring (text obj) 0 (Some (inject_Z cwz));
            secondLineEnabled := true;
            secondLine := secondLine rs ++ [l];
            heap := <[l := set_text obj
                              (utils.textSubstring (text obj) (inject_Z cwz) None)]>
                      (heap rs) |}
    else {| cellWidth := inject_Z cwz; leftoverSpace := 0;
            lineStr := lineStr rs ++ text obj
                         ++ replicate (Z.to_nat (cwz - utils.textLength (text obj))) 32%N;
            secondLineEnabled := secondLineEnabled rs;
            secondLine := secondLine rs ++ [l];
            heap := <[l := set_text obj []]> (heap rs) |}.
Proof.
  intros Hplain Hc Hr Hcw Hlo.
  pose proof (styled_text_plain cmd obj Hplain) as Hst.
  pose proof (plain_cell_width obj rs w Hplain) as Hwidth.
  unfold cell_step. fold (cell_align obj).
  destruct Hplain as (Hw & Hcols & Hs). rewrite Hw, Hwidth. cbv beta iota.
  rewrite Hcw, Hlo.
  rewrite !(bool_decide_eq_false_2 _ Hc), !(bool_decide_eq_false_2 _ Hr).
  change (0 <? 0) with false. cbv beta iota.
  rewrite inject_Z_diff, Qfloor_Z.
  destruct (cwz <? utils.textLength (text obj)) eqn:E.
  - apply Z.ltb_lt in E.
    rewrite Qlt_bool_true by (rewrite <- Zlt_Qlt; exact E).
    cbv beta iota.
    rewrite styled_text_set_text by (repeat split; assumption).
    rewrite pad_negative by lia. rewrite app_nil_r.
    f_equal. apply insert_insert_eq.
  - apply Z.ltb_ge in E.
    rewrite Qlt_bool_false by (rewrite <- Zle_Qle; exact E).
    cbv beta iota. rewrite Hst. unfold pad. rewrite Qceiling_Z. reflexivity.
Qed.

Lemma table_row_single cmd (deviceWidth : Z) (w : positive) (l : nat) (c : Cell)
    (store : gmap nat Cell) :
  store !! l = Some c ->
  table_row cmd deviceWidth [l] w store
  = (Ok tt,
     cell_step cmd (deviceWidth / Z.pos w) w l c
       {| cellWidth := inject_Z (deviceWidth / Z.pos w); leftoverSpace := 0;
          lineStr := []; secondLineEnabled := false; secondLine := [];
          heap := store |}).
Proof.
  intros Hc. unfold table_row. cbn [length Z.of_nat Pos.of_succ_nat].
  rewrite Z.div_1_r, Z.mul_1_r, Z.sub_diag.
  cbn [render_cells heap]. rewrite Hc. reflexivity.
Qed.

Lemma tableCustom_default_options pf cmd (fuel : nat) (data : list nat)
    (topts : option TableOptions) (this : Printer) (store : gmap nat Cell) :
  tableCustom pf cmd fuel data topts this store
  = tableCustom pf cmd fuel data (Some (default (default_table_options this) topts))
      this store.
Proof. destruct fuel; reflexivity. Qed.

Lemma table_line_with_buffer pf cmd (opts : TableOptions) (this : Printer) (b : list N)
    (lineStr : jstring) :
  table_line pf cmd opts (with_buffer this b) lineStr = table_line pf cmd opts this lineStr.
Proof. reflexivity. Qed.

(** The passes over a row of one plain cell aligned to the left. *)
Lemma wrap_passes pf cmd (opts : TableOptions) (l : nat) (bw : Z) (fuel : nat) :
  2 <= bw ->
  forall (this : Printer) (store : gmap nat Cell) (c : Cell),
    width this / Z.pos (fst (t_size opts)) = bw ->
    store !! l = Some c ->
    plain_cell c ->
    cell_align c <> str "CENTER" -> cell_align c <> str "RIGHT" ->
    (length (text c) <= fuel)%nat ->
    exists (pieces : list jstring) (last : jstring) (n : nat) (store' : gmap nat Cell),
      tableCustom pf cmd (S fuel) [l] (Some opts) this store
      = Some (Ok tt,
              with_buffer this
                (buffer this
                   ++ flat_map (table_line pf cmd opts this)
                        (pieces ++ [last ++ replicate n 32%N])),
              store')
      /\ concat pieces ++ last = text c
      /\ Forall (fun s => s <> [] /\ utils.textLength s <= bw) pieces
      /\ utils.textLength (last ++ replicate n 32%N) = bw.
Proof.
  intros Hbw. induction fuel as [|fuel IH]; intros this store c Hw Hc Hplain Hac Har Hlen;
    rewrite tableCustom_S; cbv zeta;
    change (default (default_table_options this) (Some opts)) with opts;
    rewrite (table_row_single cmd _ _ l c store Hc), Hw;
    (erewrite (cell_step_left cmd bw _ l c _ bw);
     [| exact Hplain | exact Hac | exact Har | reflexivity | reflexivity]);
    pose proof (textLength_columns_bounds (text c)) as Hcols;
    destruct (bw <? utils.textLength (text c)) eqn:E;
    [apply Z.ltb_lt in E | apply Z.ltb_ge in E | apply Z.ltb_lt in E | apply Z.ltb_ge in E];
    cbn [secondLineEnabled lineStr secondLine heap app].
  - exfalso. lia.
  - exists [], (text c), (Z.to_nat (bw - utils.textLength (text c))). eexists.
    split; [cbn [app flat_map]; rewrite app_nil_r; reflexivity|]. split; [reflexivity|]. split; [constructor|].
    rewrite textLength_app, textLength_replicate_space. lia.
  - assert (Hw0 : Qeq_bool (inject_Z bw) 0 = false).
    { destruct (Qeq_bool (inject_Z bw) 0) eqn:E0; [|reflexivity].
      apply Qeq_bool_iff in E0. unfold Qeq, inject_Z in E0. cbn [Qnum Qden] in E0.
      lia. }
    destruct (substring_split (inject_Z bw) (text c) 0 ltac:(lia) Hw0) as [Hsplit Hfit].
    fold (utils.textSubstring (text c) 0 (Some (inject_Z bw))) in Hsplit, Hfit.
    fold (utils.textSubstring (text c) (inject_Z bw) None) in Hsplit.
    assert (Hne : text c <> []) by (intros Hnil; rewrite Hnil in E; cbn in E; lia).
    pose proof (textSubstring_shorter (text c) (inject_Z bw)
                  ltac:(change 2%Q with (inject_Z 2); rewrite <- Zle_Qle; exact Hbw) Hne)
      as Hshort.
    destruct (IH (with_buffer this
                    (buffer this
                       ++ table_line pf cmd opts this
                            (utils.textSubstring (text c) 0 (Some (inject_Z bw)))))
                (<[l := set_text c (utils.textSubstring (text c) (inject_Z bw) None)]> store)
                (set_text c (utils.textSubstring (text c) (inject_Z bw) None)))
      as (pieces & last & n & store' & Hrun & Hcat & Hpieces & Hlast).
    + exact Hw.
    + apply lookup_insert_eq.
    + exact Hplain.
    + exact Hac.
    + exact Har.
    + cbn [text set_text]. lia.
    + exists (utils.textSubstring (text c) 0 (Some (inject_Z bw)) :: pieces), last, n, store'.
      split; [|split; [|split]].
      * rewrite Hrun. cbn [buffer with_buffer flat_map app].
        unfold with_buffer. cbn [buffer options encoding width _model].
        rewrite <- !app_assoc. reflexivity.
      * cbn [concat text set_text] in *. rewrite <- app_assoc, Hcat. exact Hsplit.
      * constructor; [|exact Hpieces]. split.
        -- intros Hnil. rewrite Hnil in Hsplit. cbn [app] in Hsplit.
           rewrite Hsplit in Hshort. lia.
        -- specialize (Hfit ltac:(change 0%Q with (inject_Z 0); rewrite <- Zle_Qle; lia)).
           rewrite Z.add_0_l in Hfit. rewrite <- Zle_Qle in Hfit. exact Hfit.
      * exact Hlast.
  - exists [], (text c), (Z.to_nat (bw - utils.textLength (text c))). eexists.
    split; [cbn [app flat_map]; rewrite app_nil_r; reflexivity|]. split; [reflexivity|]. split; [constructor|].
    rewrite textLength_app, textLength_replicate_space. lia.
Qed.

(** X27. A text that is longer than the line is wrapped without loss.
    For a row of one plain cell aligned to the left, on a line of at least
    two columns, [tableCustom] returns and appends lines (each one encoded
    and closed by the end of line) such that: the lines but the last, put
    end to end with the text of the last, are the text of the cell; every
    line but the last is not empty and fits in the width; and the last,
    with the spaces that pad it, is exactly as wide as the line. *)
Theorem tableCustom_wraps (pf : Platform) (cmd : Commands) (fuel : nat) (l : nat)
    (c : Cell) (topts : option TableOptions) (this : Printer) (store : gmap nat Cell) :
  store !! l = Some c ->
  plain_cell c ->
  cell_align c <> str "CENTER" -> cell_align c <> str "RIGHT" ->
  2 <= width this / Z.pos (fst (t_size (default (default_table_options this) topts))) ->
  (length (text c) <= fuel)%nat ->
  exists (pieces : list jstring) (last : jstring) (n : nat) (store' : gmap nat Cell),
    tableCustom pf cmd (S fuel) [l] topts this store
    = Some (Ok tt,
            with_buffer this
              (buffer this
                 ++ flat_map (table_line pf cmd (default (default_table_options this) topts)
                                this)
                      (pieces ++ [last ++ replicate n 32%N])),
            store')
    /\ concat pieces ++ last = text c
    /\ Forall (fun s => s <> []
                        /\ utils.textLength s
                           <= width this
                                / Z.pos (fst (t_size (default (default_table_options this)
                                                        topts))))
         pieces
    /\ utils.textLength (last ++ replicate n 32%N)
       = width this / Z.pos (fst (t_size (default (default_table_options this) topts))).
Proof.
  intros Hc Hplain Hac Har Hbw Hlen.
  rewrite tableCustom_default_options.
  apply (wrap_passes pf cmd _ l _ fuel Hbw this store c eq_refl Hc Hplain Hac Har Hlen).
Qed.

Lemma tableCustom_wraps_witness :
  exists (pieces : list jstring) (last : jstring) (n : nat) (store' : gmap nat Cell),
    tableCustom Sample.platform Sample.commands 26 [0%nat] None Sample.printer16 long_row
    = Some (Ok tt,
            with_buffer Sample.printer16
              (buffer Sample.printer16
                 ++ flat_map (table_line Sample.platform Sample.commands
                                (default_table_options Sample.printer16) Sample.printer16)
                      (pieces ++ [last ++ replicate n 32%N])),
            store')
    /\ concat pieces ++ last = str "hello world, this is long"
    /\ Forall (fun s => s <> [] /\ utils.textLength s <= 16) pieces
    /\ utils.textLength (last ++ replicate n 32%N) = 16.
Proof.
  apply (tableCustom_wraps Sample.platform Sample.commands 25 0%nat
           (Sample.cell (str "hello world, this is long")) None Sample.printer16 long_row).
  - reflexivity.
  - repeat split; auto.
  - discriminate.
  - discriminate.
  - cbn. lia.
  - cbn. lia.
Defined.
